(** * Smart photo editing backend: transform engine and session state machine

    A shallow embedding of [src/backend/tools/Picture.py] (the transform
    catalogue) and [src/backend/ipc_server.py] (the request router and the
    session it owns), together with the properties of the specification that
    were checked against them.

    Conventions of the embedding.
    - Python exceptions are values of [Exc]; [try/except] in the router turns
      a raised exception into a failure response carrying [str(e)].
    - Python [float] is IEEE-754 binary64 and NumPy [float32] is binary32;
      both are computed bit for bit with the parametric operations of
      [SpecFloat] (round to nearest, ties to even).  Scalar promotion follows
      NumPy 2 (a Python scalar adapts to the array or NumPy scalar it meets).
    - A request is decoded JSON whose parameters have the types the method
      signatures of [Picture] declare; an absent parameter is [None].
    - The imaging library (Pillow), NumPy reductions and the file system are
      external: what their routines compute is left uninterpreted in the
      classes [Imaging] and [Host]; modes, sizes, band structure and the
      documented argument checks are tracked here. *)

From Stdlib Require Import ZArith List String Bool Lia.
From Stdlib Require QArith Qround Qminmax.
From Corelib Require Import SpecFloat.
From stdpp Require Import base option list.

Local Open Scope string_scope.
Local Open Scope Z_scope.

(** ** Exceptions *)

Inductive PyExc :=
| ValueError | TypeError | ZeroDivisionError | OverflowError
| FileNotFoundError | IOError | NotADirectoryError | OSError
| NotImplementedError | IndexError | ReferenceError.

(** An exception: its class and [str(e)]. *)
Record Exception := mkExc { exc_class : PyExc; exc_str : string }.

Inductive Exc (A : Type) :=
| Ok (a : A)
| Raise (e : Exception).
Arguments Ok {A} a.
Arguments Raise {A} e.

Definition raise {A} (c : PyExc) (msg : string) : Exc A := Raise (mkExc c msg).

Definition ebind {A B} (m : Exc A) (k : A -> Exc B) : Exc B :=
  match m with
  | Ok a => k a
  | Raise e => Raise e
  end.

Notation "'do' x <- m ; k" := (ebind m (fun x => k))
  (at level 10, x name, m at level 100, k at level 200).
Notation "'do' ' p <- m ; k" := (ebind m (fun x => match x with p => k end))
  (at level 10, p pattern, m at level 100, k at level 200).

Definition is_ok {A} (m : Exc A) : bool :=
  match m with Ok _ => true | Raise _ => false end.

(** ** IEEE-754 arithmetic *)

Module IEEE.

Definition is_zero (x : spec_float) : bool :=
  match x with S754_zero _ => true | _ => false end.

Definition is_finite (x : spec_float) : bool :=
  match x with S754_zero _ | S754_finite _ _ _ => true | _ => false end.

(** Truncation toward zero of a finite number ([None] on NaN and infinity). *)
Definition trunc (x : spec_float) : option Z :=
  match x with
  | S754_zero _ => Some 0
  | S754_finite s m e =>
      Some (cond_Zopp s (if 0 <=? e then Zpos m * 2 ^ e else Zpos m / 2 ^ (- e)))
  | _ => None
  end.

(** An integer as an unrounded mantissa with exponent 0. *)
Definition raw (z : Z) : spec_float :=
  match z with
  | Z0 => S754_zero false
  | Zpos p => S754_finite false p 0
  | Zneg p => S754_finite true p 0
  end.

End IEEE.

(** Python's [float]: binary64. *)
Module Py.

Definition prec := 53.
Definition emax := 1024.

Definition of_int (z : Z) : spec_float := binary_normalize prec emax z 0 false.
Definition add := SFadd prec emax.
Definition sub := SFsub prec emax.
Definition mul := SFmul prec emax.
Definition div := SFdiv prec emax.
Definition valid := valid_binary prec emax.

(** A decimal literal [n / 10^k], correctly rounded as the parser does. *)
Definition lit (n : Z) (k : Z) : spec_float :=
  SFdiv prec emax (IEEE.raw n) (IEEE.raw (10 ^ k)).

Definition zero : spec_float := S754_zero false.
Definition one : spec_float := Eval vm_compute in of_int 1.

(** [float(z)]: an integer too large for a float raises. *)
Definition float (z : Z) : Exc spec_float :=
  let f := of_int z in
  if IEEE.is_finite f then Ok f
  else raise OverflowError "int too large to convert to float".

(** [a / b] on integers: the correctly rounded quotient. *)
Definition int_truediv (a b : Z) : Exc spec_float :=
  if b =? 0 then raise ZeroDivisionError "division by zero"
  else
    let q := SFdiv prec emax (IEEE.raw a) (IEEE.raw b) in
    if IEEE.is_finite q then Ok q
    else raise OverflowError "integer division result too large for a float".

(** [x / y] on floats. *)
Definition truediv (x y : spec_float) : Exc spec_float :=
  if IEEE.is_zero y then raise ZeroDivisionError "float division by zero"
  else Ok (div x y).

(** [min(a, b)]: the second argument only when it is strictly smaller. *)
Definition min (a b : spec_float) : spec_float :=
  if SFltb b a then b else a.

(** [int(x)]. *)
Definition int (x : spec_float) : Exc Z :=
  match x with
  | S754_nan => raise ValueError "cannot convert float NaN to integer"
  | S754_infinity _ => raise OverflowError "cannot convert float infinity to integer"
  | _ => Ok (default 0 (IEEE.trunc x))
  end.

End Py.

(** NumPy's [float32] arrays and scalars: binary32, and the conversions
    between the two widths. *)
Module Np.

Definition prec := 24.
Definition emax := 128.

(** [np.array(img, dtype=np.float32)] on one 8-bit sample. *)
Definition of_sample (v : Z) : spec_float := binary_normalize prec emax v 0 false.
Definition add := SFadd prec emax.
Definition mul := SFmul prec emax.
Definition div := SFdiv prec emax.

(** A Python float meeting a float32 array is rounded to binary32. *)
Definition of_float (x : spec_float) : spec_float :=
  match x with
  | S754_finite s m e => binary_round prec emax s m e
  | _ => x
  end.

(** A float32 value widened to float64 (exact). *)
Definition to_float (x : spec_float) : spec_float :=
  match x with
  | S754_finite s m e => binary_round Py.prec Py.emax s m e
  | _ => x
  end.

(** [np.clip(x, 0, 255)] on a binary32 and on a binary64 value. *)
Definition clip32 (x : spec_float) : spec_float :=
  let lo := of_sample 0 in
  let hi := of_sample 255 in
  if SFltb x lo then lo else if SFltb hi x then hi else x.

Definition clip64 (x : spec_float) : spec_float :=
  let lo := Py.of_int 0 in
  let hi := Py.of_int 255 in
  if SFltb x lo then lo else if SFltb hi x then hi else x.

(** [.astype(np.uint8)]: the C conversion truncates toward zero; the value
    is already within [0, 255] after the clip (NaN, which the clip lets
    through, is taken to 0). *)
Definition astype_uint8 (x : spec_float) : Z :=
  default 0 (IEEE.trunc x) mod 256.

End Np.

(** ** Images *)

(** Colour modes: the five of the data model, and the two more the library
    produces on the way (luma/chroma inside [equalize], CMYK from files). *)
Inductive Mode := L | LA | P | RGB | RGBA | CMYK | YCbCr.

Global Instance Mode_eq_dec : EqDecision Mode.
Proof. solve_decision. Defined.

Definition mode_name (m : Mode) : string :=
  match m with
  | L => "L" | LA => "LA" | P => "P" | RGB => "RGB" | RGBA => "RGBA"
  | CMYK => "CMYK" | YCbCr => "YCbCr"
  end.

Definition nbands (m : Mode) : nat :=
  match m with
  | L | P => 1
  | LA => 2
  | RGB | YCbCr => 3
  | RGBA | CMYK => 4
  end%nat.

Definition has_alpha (m : Mode) : bool :=
  match m with LA | RGBA => true | _ => false end.

(** One channel of an image: rows of 8-bit samples. *)
Definition Band := list (list Z).

(** A raster image, one band per channel ([Image.split] order); [im_format]
    is the file format an opened image remembers, [None] on any image the
    library builds. *)
Record Image := mkImage {
  im_mode : Mode;
  im_size : Z * Z;
  im_bands : list Band;
  im_format : option string
}.

Definition im_width (img : Image) : Z := fst (im_size img).
Definition im_height (img : Image) : Z := snd (im_size img).

(** The invariant of the data model: as many bands as the mode has channels,
    each band [height] rows of [width] samples in [0, 255]. *)
Definition wf_band (w h : Z) (b : Band) : bool :=
  (Z.of_nat (length b) =? h) &&
  forallb (fun row => (Z.of_nat (length row) =? w) &&
                      forallb (fun v => (0 <=? v) && (v <=? 255)) row) b.

Definition wf_image (img : Image) : bool :=
  (0 <=? im_width img) && (0 <=? im_height img) &&
  (length (im_bands img) =? nbands (im_mode img))%nat &&
  forallb (wf_band (im_width img) (im_height img)) (im_bands img).

(** The alpha channel of an image that has one: its last band. *)
Definition alpha_band (img : Image) : option Band :=
  if has_alpha (im_mode img) then last (im_bands img) else None.

(** Same dimensions, mode and samples. *)
Definition pixel_identical (a b : Image) : Prop :=
  im_mode a = im_mode b /\ im_size a = im_size b /\ im_bands a = im_bands b.

Definition zrange (start len : Z) : list Z :=
  map (fun i => start + Z.of_nat i) (seq 0 (Z.to_nat len)).

Definition uniform_band (w h v : Z) : Band :=
  repeat (repeat v (Z.to_nat w)) (Z.to_nat h).

Definition sample_at (b : Band) (x y : Z) : Z :=
  if (0 <=? x) && (0 <=? y)
  then nth (Z.to_nat x) (nth (Z.to_nat y) b []) 0
  else 0.

Definition map_band {A B} (f : A -> B) (b : list (list A)) : list (list B) :=
  map (map f) b.

(** ** The imaging library *)

Inductive Resampling := NEAREST | BICUBIC | LANCZOS.
Inductive Transpose := FLIP_LEFT_RIGHT | FLIP_TOP_BOTTOM.
Inductive Enhancer := Brightness | Contrast | Color | Sharpness.

Inductive Filter :=
| GaussianBlur (radius : spec_float)
| BoxBlur (radius : spec_float)
| ModeFilter (size : Z)
| BLUR | FIND_EDGES | EDGE_ENHANCE_MORE | CONTOUR | EMBOSS.

(** The library routines whose pixel arithmetic is not interpreted, each
    with the scalar arguments of the call. *)
Inductive Routine :=
| lib_convert (target : Mode)
| lib_resize (size : Z * Z) (resample : Resampling)
| lib_thumbnail (size : Z * Z) (resample : Resampling)
| lib_rotate (angle : spec_float) (expand : bool) (fillcolor : list Z)
    (resample : Resampling)
| lib_filter (f : Filter)
| lib_enhance (e : Enhancer) (factor : spec_float)
| lib_posterize (bits : Z)
| lib_autocontrast (cutoff : spec_float)
| lib_equalize
| lib_blend (alpha : spec_float)
| lib_paste_mask
| lib_ellipse (box : Z * Z * Z * Z) (fill : Z)
| lib_expand (border : Z) (fill : list Z)
| lib_save (format : string) (quality : Z) (optimize : bool).

(** What is taken from outside: the rasters the library routines compute,
    the sizes they choose, whether a call whose argument checks are not
    tracked here raises, and the NumPy and [colorsys] kernels whose order of
    evaluation or intermediate precision the source does not fix. *)
Class Imaging := {
  (** band [k] of the output of a routine applied to its image arguments *)
  lib_pixels : Routine -> list Image -> nat -> Band;
  (** output size of [thumbnail] and of a rotation with [expand] *)
  lib_size : Routine -> Image -> Z * Z;
  (** the exception of a call, for the routines run through [call] *)
  lib_raises : Routine -> list Image -> option Exception;
  (** [np.mean] of a float32 array, a float32 scalar *)
  np_mean : list (list spec_float) -> spec_float;
  (** one entry of [a @ m.T]: a float64 row of three times a float64 row *)
  np_dot3 : spec_float * spec_float * spec_float ->
            spec_float * spec_float * spec_float -> spec_float;
  (** [colorsys.hsv_to_rgb] after the hue offset [(h + degrees / 360.0) % 1.0]
      after [colorsys.rgb_to_hsv], on one float32 pixel *)
  hsv_rotate : spec_float -> spec_float * spec_float * spec_float ->
               spec_float * spec_float * spec_float
}.

Section Library.
Context {lib : Imaging}.

(** [Image.copy]: a new image object with the same pixels; the file format
    is not carried over. *)
Definition Image_copy (img : Image) : Image :=
  mkImage (im_mode img) (im_size img) (im_bands img) None.

(** The image a routine returns, given its mode and size.  A routine sees
    the mode, size and samples of its arguments, not the file format they
    were opened from. *)
Definition lib_image (r : Routine) (args : list Image) (m : Mode) (sz : Z * Z) : Image :=
  mkImage m sz (map (lib_pixels r (map Image_copy args)) (seq 0 (nbands m))) None.

(** A call that may raise. *)
Definition call (r : Routine) (args : list Image) (m : Mode) (sz : Z * Z) : Exc Image :=
  match lib_raises r (map Image_copy args) with
  | Some e => Raise e
  | None => Ok (lib_image r args m sz)
  end.

(** [Image.new(mode, size, color)]. *)
Definition Image_new (m : Mode) (sz : Z * Z) (color : list Z) : Image :=
  mkImage m sz (map (uniform_band (fst sz) (snd sz)) color) None.

(** [Image.convert]: to RGB, dropping alpha or replicating luminance, is
    plain data movement; the other conversions are the library's. *)
Definition Image_convert (img : Image) (target : Mode) : Image :=
  if decide (im_mode img = target) then Image_copy img
  else
    match target, im_mode img with
    | RGB, RGBA => mkImage RGB (im_size img) (take 3 (im_bands img)) None
    | RGB, (L | LA) =>
        let l := nth 0 (im_bands img) [] in
        mkImage RGB (im_size img) [l; l; l] None
    | _, _ => lib_image (lib_convert target) [img] target (im_size img)
    end.

(** [Image.split]: one single-band image per channel. *)
Definition Image_split (img : Image) : list Image :=
  map (fun b => mkImage L (im_size img) [b] None) (im_bands img).

(** [Image.merge(mode, bands)]. *)
Definition Image_merge (m : Mode) (parts : list Image) : Exc Image :=
  match parts with
  | [] => raise ValueError "wrong number of bands"
  | first :: _ =>
      if negb (length parts =? nbands m)%nat
      then raise ValueError "wrong number of bands"
      else if negb (forallb (fun b => bool_decide (im_mode b = L)) parts)
      then raise ValueError "mode mismatch"
      else if negb (forallb (fun b => bool_decide (im_size b = im_size first)) parts)
      then raise ValueError "size mismatch"
      else Ok (mkImage m (im_size first)
                 (map (fun b => nth 0 (im_bands b) []) parts) None)
  end.

(** [Image.resize(size, resample)]. *)
Definition Image_resize (img : Image) (sz : Z * Z) (resample : Resampling) : Exc Image :=
  if (fst sz <? 1) || (snd sz <? 1)
  then raise ValueError "height and width must be > 0"
  else if bool_decide (sz = im_size img) then Ok (Image_copy img)
  else Ok (lib_image (lib_resize sz resample) [img] (im_mode img) sz).

(** [Image.thumbnail(size, resample)], which works in place: the image is
    the object the caller has just copied. *)
Definition Image_thumbnail (img : Image) (sz : Z * Z) (resample : Resampling) : Exc Image :=
  let r := lib_thumbnail sz resample in
  call r [img] (im_mode img) (lib_size r (Image_copy img)).

(** [Image.rotate]. *)
Definition Image_rotate (img : Image) (angle : spec_float) (expand : bool)
    (fillcolor : list Z) (resample : Resampling) : Exc Image :=
  let r := lib_rotate angle expand fillcolor resample in
  call r [img] (im_mode img)
    (if expand then lib_size r (Image_copy img) else im_size img).

(** [Image.crop(box)]: the box may reach outside the image; what lies
    outside is filled with zero samples. *)
Definition crop_band (b : Band) (x0 y0 x1 y1 : Z) : Band :=
  map (fun y => map (fun x => sample_at b x y) (zrange x0 (x1 - x0)))
      (zrange y0 (y1 - y0)).

Definition Image_crop (img : Image) (box : Z * Z * Z * Z) : Exc Image :=
  let '(x0, y0, x1, y1) := box in
  if x1 <? x0 then raise ValueError "Coordinate 'right' is less than 'left'"
  else if y1 <? y0 then raise ValueError "Coordinate 'lower' is less than 'upper'"
  else Ok (mkImage (im_mode img) (x1 - x0, y1 - y0)
             (map (fun b => crop_band b x0 y0 x1 y1) (im_bands img)) None).

(** [Image.transpose]. *)
Definition Image_transpose (img : Image) (t : Transpose) : Image :=
  mkImage (im_mode img) (im_size img)
    (map (fun b => match t with
                   | FLIP_LEFT_RIGHT => map (@rev Z) b
                   | FLIP_TOP_BOTTOM => rev b
                   end) (im_bands img)) None.

(** [Image.filter]: every filter refuses palette images. *)
Definition Image_filter (img : Image) (f : Filter) : Exc Image :=
  if decide (im_mode img = P) then raise ValueError "cannot filter palette images"
  else Ok (lib_image (lib_filter f) [img] (im_mode img) (im_size img)).

(** [Image.blend(im1, im2, alpha)]. *)
Definition Image_blend (im1 im2 : Image) (alpha : spec_float) : Exc Image :=
  call (lib_blend alpha) [im1; im2] (im_mode im1) (im_size im1).

(** [Image.composite(image1, image2, mask)]: a copy of [image2] with
    [image1] pasted through the mask. *)
Definition Image_paste (dst src mask : Image) : Image :=
  lib_image lib_paste_mask [dst; src; mask] (im_mode dst) (im_size dst).

Definition Image_composite (image1 image2 mask : Image) : Image :=
  Image_paste (Image_copy image2) image1 mask.

(** [ImageOps._lut]: the table-driven operations take L and RGB only. *)
Definition ImageOps_lut (r : Routine) (img : Image) : Exc Image :=
  match im_mode img with
  | P => raise NotImplementedError "mode P support coming soon"
  | L | RGB => Ok (lib_image r [img] (im_mode img) (im_size img))
  | m => raise OSError ("not supported for mode " ++ mode_name m)
  end.

(** [ImageOps.invert]: the table [255 - v]. *)
Definition ImageOps_invert (img : Image) : Exc Image :=
  match im_mode img with
  | P => raise NotImplementedError "mode P support coming soon"
  | L | RGB =>
      Ok (mkImage (im_mode img) (im_size img)
            (map (map_band (fun v => 255 - v)) (im_bands img)) None)
  | m => raise OSError ("not supported for mode " ++ mode_name m)
  end.

Definition ImageOps_posterize (img : Image) (bits : Z) : Exc Image :=
  ImageOps_lut (lib_posterize bits) img.

Definition ImageOps_autocontrast (img : Image) (cutoff : spec_float) : Exc Image :=
  ImageOps_lut (lib_autocontrast cutoff) img.

(** [ImageOps.equalize] converts a palette image to RGB first. *)
Definition ImageOps_equalize (img : Image) : Exc Image :=
  let img := if decide (im_mode img = P) then Image_convert img RGB else img in
  ImageOps_lut lib_equalize img.

(** [ImageOps.expand(image, border, fill)]. *)
Definition ImageOps_expand (img : Image) (border : Z) (fill : list Z) : Exc Image :=
  call (lib_expand border fill) [img] (im_mode img)
    (im_width img + 2 * border, im_height img + 2 * border).

(** [ImageEnhance.X(img).enhance(factor)]. *)
Definition ImageEnhance_enhance (e : Enhancer) (img : Image) (factor : spec_float) : Exc Image :=
  call (lib_enhance e factor) [img] (im_mode img) (im_size img).

(** [ImageDraw.Draw(mask).ellipse(box, fill)], drawing on the mask. *)
Definition ImageDraw_ellipse (mask : Image) (box : Z * Z * Z * Z) (fill : Z) : Exc Image :=
  call (lib_ellipse box fill) [mask] (im_mode mask) (im_size mask).

End Library.

(** ** NumPy views of an image *)

Fixpoint map3 {A B} (f : A -> A -> A -> B) (r g b : list A) : list B :=
  match r, g, b with
  | x :: r, y :: g, z :: b => f x y z :: map3 f r g b
  | _, _, _ => []
  end.

(** A pixel-wise function of the three channels. *)
Definition band_map3 {A B} (f : A -> A -> A -> B) (r g b : list (list A)) : list (list B) :=
  map3 (map3 f) r g b.

(** [np.array(img, dtype=np.float32)[:, :, c]] for an RGB image. *)
Definition np_channel (img : Image) (c : nat) : list (list spec_float) :=
  map_band Np.of_sample (nth c (im_bands img) []).

(** [np.clip(a, 0, 255).astype(np.uint8)] on a float32 channel. *)
Definition to_uint8 (a : list (list spec_float)) : Band :=
  map_band (fun x => Np.astype_uint8 (Np.clip32 x)) a.

(** [Image.fromarray] on an [H x W x 3] array of bytes. *)
Definition Image_fromarray (sz : Z * Z) (r g b : Band) : Image :=
  mkImage RGB sz [r; g; b] None.

(** Tuple unpacking of the result of [split]. *)
Definition unpack2 {A} (l : list A) : Exc (A * A) :=
  match l with
  | [a; b] => Ok (a, b)
  | _ => raise ValueError "wrong number of values to unpack"
  end.

Definition unpack3 {A} (l : list A) : Exc (A * A * A) :=
  match l with
  | [a; b; c] => Ok (a, b, c)
  | _ => raise ValueError "wrong number of values to unpack"
  end.

Definition unpack4 {A} (l : list A) : Exc (A * A * A * A) :=
  match l with
  | [a; b; c; d] => Ok (a, b, c, d)
  | _ => raise ValueError "wrong number of values to unpack"
  end.

(** ** [Picture]: the transform catalogue *)

Record Picture := mkPicture { image : option Image }.

Definition set_image (self : Picture) (img : Image) : Picture := mkPicture (Some img).

Definition _ensure_image (self : Picture) : Exc Image :=
  match image self with
  | None => raise ValueError "尚未設定圖片，請先使用 set_image() 或載入圖片"
  | Some img => Ok img
  end.

(** The sepia matrix, one row per output channel. *)
Definition sepia_matrix : list (spec_float * spec_float * spec_float) :=
  [ (Py.lit 393 3, Py.lit 769 3, Py.lit 189 3);
    (Py.lit 349 3, Py.lit 686 3, Py.lit 168 3);
    (Py.lit 272 3, Py.lit 534 3, Py.lit 131 3) ].

Section Transforms.
Context {lib : Imaging}.

(** 1. thumbnail *)
Definition thumbnail (self : Picture) (max_size : Z * Z) : Exc Image :=
  do img <- _ensure_image self;
  Image_thumbnail (Image_copy img) max_size LANCZOS.

(** 2. resize *)
Definition resize (self : Picture) (new_size : Z * Z) (keep_aspect : bool) : Exc Image :=
  do img <- _ensure_image self;
  if keep_aspect then
    let '(target_width, target_height) := new_size in
    let '(original_width, original_height) := im_size img in
    do width_ratio <- Py.int_truediv target_width original_width;
    do height_ratio <- Py.int_truediv target_height original_height;
    let scale := Py.min width_ratio height_ratio in
    do w <- Py.float original_width;
    do new_width <- Py.int (Py.mul w scale);
    do h <- Py.float original_height;
    do new_height <- Py.int (Py.mul h scale);
    Image_resize img (new_width, new_height) LANCZOS
  else Image_resize img new_size LANCZOS.

(** 3. rotate *)
Definition rotate (self : Picture) (angle : spec_float) (expand : bool)
    (fill_color : list Z) : Exc Image :=
  do img <- _ensure_image self;
  Image_rotate img angle expand fill_color BICUBIC.

(** 4. crop *)
Definition crop (self : Picture) (box : Z * Z * Z * Z) : Exc Image :=
  do img <- _ensure_image self;
  Image_crop img box.

Definition crop_center (self : Picture) (width height : Z) : Exc Image :=
  do img <- _ensure_image self;
  let '(img_width, img_height) := im_size img in
  let left := (img_width - width) / 2 in
  let top := (img_height - height) / 2 in
  let right := left + width in
  let bottom := top + height in
  crop self (left, top, right, bottom).

(** 5. grayscale *)
Definition grayscale (self : Picture) : Exc Image :=
  do img <- _ensure_image self;
  Ok (Image_convert img L).

(** 6. art_effect *)
Definition art_effect (self : Picture) (effect_type : string) : Exc Image :=
  do img <- _ensure_image self;
  if String.eqb effect_type "poster" then
    ImageOps_posterize (Image_convert img RGB) 3
  else if String.eqb effect_type "sketch" then
    let gray := Image_convert img L in
    do inverted <- ImageOps_invert gray;
    do blurred <- Image_filter inverted (GaussianBlur (Py.of_int 21));
    do back <- ImageOps_invert blurred;
    Image_blend gray back (Py.lit 5 1)
  else if String.eqb effect_type "oil_paint" then
    do result <- Image_filter img (ModeFilter 5);
    Image_filter result EDGE_ENHANCE_MORE
  else if String.eqb effect_type "cartoon" then
    do edges <- Image_filter (Image_convert img L) FIND_EDGES;
    do edges <- ImageOps_invert edges;
    do color <- ImageOps_posterize (Image_convert img RGB) 4;
    Ok (Image_composite color (Image_new RGB (im_size img) [255; 255; 255])
          (Image_convert edges L))
  else raise ValueError ("未知的效果類型: " ++ effect_type).

(** 7. white_balance *)
Definition white_balance (self : Picture) (method : string) : Exc Image :=
  do img <- _ensure_image self;
  let img := Image_convert img RGB in
  let r := np_channel img 0 in
  let g := np_channel img 1 in
  let b := np_channel img 2 in
  let '(r, g, b) :=
    if String.eqb method "auto" || String.eqb method "gray_world" then
      let avg_r := np_mean r in
      let avg_g := np_mean g in
      let avg_b := np_mean b in
      let avg_gray := Np.div (Np.add (Np.add avg_r avg_g) avg_b) (Np.of_sample 3) in
      let eps := Np.of_float (Py.lit 1 6) in
      (map_band (fun x => Np.mul x (Np.div avg_gray (Np.add avg_r eps))) r,
       map_band (fun x => Np.mul x (Np.div avg_gray (Np.add avg_g eps))) g,
       map_band (fun x => Np.mul x (Np.div avg_gray (Np.add avg_b eps))) b)
    else (r, g, b) in
  Ok (Image_fromarray (im_size img) (to_uint8 r) (to_uint8 g) (to_uint8 b)).

(** 8 - 11. brightness, contrast, saturation, sharpen *)
Definition brightness (self : Picture) (factor : spec_float) : Exc Image :=
  do img <- _ensure_image self;
  ImageEnhance_enhance Brightness img factor.

Definition contrast (self : Picture) (factor : spec_float) : Exc Image :=
  do img <- _ensure_image self;
  ImageEnhance_enhance Contrast img factor.

Definition saturation (self : Picture) (factor : spec_float) : Exc Image :=
  do img <- _ensure_image self;
  ImageEnhance_enhance Color img factor.

Definition sharpen (self : Picture) (factor : spec_float) : Exc Image :=
  do img <- _ensure_image self;
  ImageEnhance_enhance Sharpness img factor.

(** 12. blur.  The kernel of the motion blur is [int(radius)] by 1; the
    library convolves 3x3 and 5x5 kernels only, so that call raises. *)
Definition blur (self : Picture) (radius : spec_float) (blur_type : string) : Exc Image :=
  do img <- _ensure_image self;
  if String.eqb blur_type "gaussian" then Image_filter img (GaussianBlur radius)
  else if String.eqb blur_type "box" then Image_filter img (BoxBlur radius)
  else if String.eqb blur_type "motion" then
    do _ <- Py.truediv Py.one radius;
    do n <- Py.int radius;
    if n <? 0 then raise ValueError "not enough coefficients in kernel"
    else if decide (im_mode img = P) then raise ValueError "cannot filter palette images"
    else raise ValueError "bad kernel size"
  else Image_filter img BLUR.

(** 13. flip *)
Definition flip (self : Picture) (direction : string) : Exc Image :=
  do img <- _ensure_image self;
  if String.eqb direction "horizontal" then Ok (Image_transpose img FLIP_LEFT_RIGHT)
  else if String.eqb direction "vertical" then Ok (Image_transpose img FLIP_TOP_BOTTOM)
  else raise ValueError ("未知的翻轉方向: " ++ direction).

(** 14. invert *)
Definition invert (self : Picture) : Exc Image :=
  do img <- _ensure_image self;
  if decide (im_mode img = RGBA) then
    do '(r, g, b, a) <- unpack4 (Image_split img);
    do rgb <- Image_merge RGB [r; g; b];
    do inverted_rgb <- ImageOps_invert rgb;
    do '(r2, g2, b2) <- unpack3 (Image_split inverted_rgb);
    Image_merge RGBA [r2; g2; b2; a]
  else ImageOps_invert (Image_convert img RGB).

(** 15. sepia: one output sample, [src] the channel it keeps from the
    source and [row] the matrix row that projects it. *)
Definition sepia_sample (intensity : spec_float)
    (row : spec_float * spec_float * spec_float) (src : nat) (r g b : Z) : Z :=
  let px := (Np.to_float (Np.of_sample r), Np.to_float (Np.of_sample g),
             Np.to_float (Np.of_sample b)) in
  let sepia := np_dot3 px row in
  let kept := Np.mul (Np.of_sample (nth src [r; g; b] 0))
                     (Np.of_float (Py.sub Py.one intensity)) in
  Np.astype_uint8 (Np.clip64 (Py.add (Np.to_float kept) (Py.mul sepia intensity))).

Definition sepia_band (intensity : spec_float) (c : nat) (r g b : Band) : Band :=
  band_map3 (sepia_sample intensity
               (nth c sepia_matrix (Py.zero, Py.zero, Py.zero)) c) r g b.

Definition sepia (self : Picture) (intensity : spec_float) : Exc Image :=
  do img <- _ensure_image self;
  let img := Image_convert img RGB in
  let r := nth 0 (im_bands img) [] in
  let g := nth 1 (im_bands img) [] in
  let b := nth 2 (im_bands img) [] in
  Ok (Image_fromarray (im_size img)
        (sepia_band intensity 0 r g b)
        (sepia_band intensity 1 r g b)
        (sepia_band intensity 2 r g b)).

(** 16. edge_detect *)
Definition edge_detect (self : Picture) (method : string) : Exc Image :=
  do img <- _ensure_image self;
  if String.eqb method "default" then Image_filter img FIND_EDGES
  else if String.eqb method "enhance" then Image_filter img EDGE_ENHANCE_MORE
  else if String.eqb method "contour" then Image_filter img CONTOUR
  else Image_filter img FIND_EDGES.

(** 17. emboss *)
Definition emboss (self : Picture) : Exc Image :=
  do img <- _ensure_image self;
  Image_filter img EMBOSS.

(** 18. pixelate *)
Definition pixelate (self : Picture) (pixel_size : Z) : Exc Image :=
  do img <- _ensure_image self;
  if pixel_size =? 0 then raise ZeroDivisionError "integer division or modulo by zero"
  else
    do small <- Image_resize img (im_width img / pixel_size, im_height img / pixel_size)
                  NEAREST;
    Image_resize small (im_size img) NEAREST.

(** 19. vignette: the mask after the ellipses [0 .. n-1] have been drawn. *)
Definition vignette_alpha (strength : spec_float) (width height i : Z) : Exc Z :=
  do half <- Py.int_truediv (Z.min width height) 2;
  do fi <- Py.float i;
  do ratio <- Py.truediv fi half;
  Py.int (Py.mul (Py.of_int 255)
            (Py.sub Py.one (Py.mul strength (Py.sub Py.one ratio)))).

Fixpoint vignette_mask (strength : spec_float) (width height : Z)
    (steps : list Z) (mask : Image) : Exc Image :=
  match steps with
  | [] => Ok mask
  | i :: rest =>
      do alpha <- vignette_alpha strength width height i;
      do mask <- ImageDraw_ellipse mask (i, i, width - i, height - i) alpha;
      vignette_mask strength width height rest mask
  end.

Definition vignette (self : Picture) (strength : spec_float) : Exc Image :=
  do img <- _ensure_image self;
  let img := Image_convert img RGB in
  let '(width, height) := im_size img in
  let mask := Image_new L (width, height) [255] in
  do mask <- vignette_mask strength width height
               (zrange 0 (Z.min width height / 2)) mask;
  let black := Image_new RGB (width, height) [0; 0; 0] in
  Ok (Image_composite img black mask).

(** 20. hue_shift *)
Definition hue_pixel (degrees : spec_float) (r g b : Z) : Z * Z * Z :=
  let unit v := Np.div (Np.of_sample v) (Np.of_float (Py.of_int 255)) in
  let '(r, g, b) := hsv_rotate degrees (unit r, unit g, unit b) in
  let byte x := Np.astype_uint8 (Np.mul x (Np.of_sample 255)) in
  (byte r, byte g, byte b).

Definition hue_shift (self : Picture) (degrees : spec_float) : Exc Image :=
  do img <- _ensure_image self;
  let img := Image_convert img RGB in
  let r := nth 0 (im_bands img) [] in
  let g := nth 1 (im_bands img) [] in
  let b := nth 2 (im_bands img) [] in
  let px := band_map3 (hue_pixel degrees) r g b in
  Ok (Image_fromarray (im_size img)
        (map_band (fun p => fst (fst p)) px)
        (map_band (fun p => snd (fst p)) px)
        (map_band snd px)).

(** 21. add_border *)
Definition add_border (self : Picture) (border_width : Z) (color : list Z) : Exc Image :=
  do img <- _ensure_image self;
  ImageOps_expand img border_width color.

(** 22. auto_contrast *)
Definition auto_contrast (self : Picture) (cutoff : spec_float) : Exc Image :=
  do img <- _ensure_image self;
  if decide (im_mode img = RGBA) then
    do '(r, g, b, alpha) <- unpack4 (Image_split img);
    do rgb_img <- Image_merge RGB [r; g; b];
    do result_rgb <- ImageOps_autocontrast rgb_img cutoff;
    do '(r, g, b) <- unpack3 (Image_split result_rgb);
    Image_merge RGBA [r; g; b; alpha]
  else if decide (im_mode img = LA) then
    do '(l, alpha) <- unpack2 (Image_split img);
    do result_l <- ImageOps_autocontrast l cutoff;
    Image_merge LA [result_l; alpha]
  else ImageOps_autocontrast img cutoff.

(** 23. equalize: the luma channel only, for a colour image. *)
Definition equalize_rgb (rgb_img : Image) : Exc Image :=
  let img_ycbcr := Image_convert rgb_img YCbCr in
  do '(y, cb, cr) <- unpack3 (Image_split img_ycbcr);
  do y_eq <- ImageOps_equalize y;
  do img_ycbcr_eq <- Image_merge YCbCr [y_eq; cb; cr];
  Ok (Image_convert img_ycbcr_eq RGB).

Definition equalize (self : Picture) : Exc Image :=
  do img <- _ensure_image self;
  match im_mode img with
  | RGBA =>
      do '(r, g, b, alpha) <- unpack4 (Image_split img);
      do rgb_img <- Image_merge RGB [r; g; b];
      do result_rgb <- equalize_rgb rgb_img;
      do '(r, g, b) <- unpack3 (Image_split result_rgb);
      Image_merge RGBA [r; g; b; alpha]
  | RGB => equalize_rgb img
  | L | P => ImageOps_equalize img
  | LA =>
      do '(l, alpha) <- unpack2 (Image_split img);
      do l_eq <- ImageOps_equalize l;
      Image_merge LA [l_eq; alpha]
  | _ => equalize_rgb (Image_convert img RGB)
  end.

(** 24. color_temperature *)
Definition temperature_gains (temperature : Z) : Exc (spec_float * spec_float) :=
  if temperature <? 6500 then
    do factor <- Py.int_truediv (6500 - temperature) 4500;
    Ok (Py.add Py.one (Py.mul factor (Py.lit 2 1)),
        Py.sub Py.one (Py.mul factor (Py.lit 2 1)))
  else
    do factor <- Py.int_truediv (temperature - 6500) 3500;
    Ok (Py.sub Py.one (Py.mul factor (Py.lit 2 1)),
        Py.add Py.one (Py.mul factor (Py.lit 2 1))).

Definition color_temperature (self : Picture) (temperature : Z) : Exc Image :=
  do img <- _ensure_image self;
  let img := Image_convert img RGB in
  do '(gain_r, gain_b) <- temperature_gains temperature;
  let r := map_band (fun x => Np.mul x (Np.of_float gain_r)) (np_channel img 0) in
  let g := np_channel img 1 in
  let b := map_band (fun x => Np.mul x (Np.of_float gain_b)) (np_channel img 2) in
  Ok (Image_fromarray (im_size img) (to_uint8 r) (to_uint8 g) (to_uint8 b)).

End Transforms.

(** ** The session and the request router *)

(** An image object.  A file is opened lazily: [obj_load] is the exception
    that decoding its pixel data raises, if any; an image built by the
    library has none. *)
Record Obj := mkObj { obj_image : Image; obj_load : option Exception }.

(** The file system and the decoders, as seen by one request. *)
Record Host := mkHost {
  (** [os.path.exists] *)
  path_exists : string -> bool;
  (** [Image.open(path)] *)
  open_file : string -> Exc Obj;
  (** [Image.open(BytesIO(base64.b64decode(text)))] *)
  open_base64 : string -> Exc Obj;
  (** [FileHandler.save_as]: directory creation, format selection by
      extension, encoding and writing; the exception it raises, if any *)
  save_as : string -> Obj -> Z -> option Exception;
  (** [FileHandler.batch_load]: the sorted image files of a folder *)
  batch_load : string -> Exc (list string)
}.

Record FileHandler := mkFileHandler {
  fh_current_image : option nat;
  file_path : option string;
  original_format : option string
}.

(** The server: the image objects by identity, and the references it and
    its two collaborators hold. *)
Record IPCServer := mkServer {
  heap : list Obj;
  current_image : option nat;
  original_image : option nat;
  picture_image : option nat;
  file_handler : FileHandler
}.

(** [IPCServer.__init__] *)
Definition init : IPCServer :=
  mkServer [] None None None (mkFileHandler None None None).

(** The encoded preview: the base64 text of what the encoder writes. *)
Record Encoded := mkEncoded {
  enc_format : string;
  enc_quality : Z;
  enc_optimize : bool;
  enc_image : Image
}.

Record Info := mkInfo {
  width : Z;
  height : Z;
  mode : string;
  format : string
}.

(** A piece of a status message (an f-string). *)
Inductive Fragment :=
| txt (s : string)
| int_val (z : Z)
| float_val (x : spec_float)
| size_val (sz : Z * Z).

Record Fields := mkFields {
  message : option (list Fragment);
  info : option Info;
  preview : option Encoded;
  base64 : option Encoded;
  path : option string;
  files : option (list string);
  count : option Z;
  actions : option (list (string * list (string * list string)));
  status : option string
}.

Inductive Response :=
| Success (fields : Fields)
| Failure (error : string).

Definition no_fields : Fields :=
  mkFields None None None None None None None None None.

(** The response of a load, a transform and a reset. *)
Definition edited (msg : list Fragment) (i : Info) (p : Encoded) : Response :=
  Success (mkFields (Some msg) (Some i) (Some p) None None None None None None).

(** The requests, by action; a parameter the request leaves out is [None]. *)
Module Action.
Inductive t :=
| load_file (file_path : option string)
| load_base64 (base64 : option string)
| save_file (output_path : option string) (quality : option Z)
| get_base64 (format : option string)
| get_info
| batch_load (folder_path : option string)
| thumbnail (max_width max_height : option Z)
| resize (width height : option Z) (keep_aspect : option bool)
| rotate (angle : option spec_float) (expand : option bool)
    (fill_color : option (list Z))
| crop (left top right bottom : option Z)
| crop_center (width height : option Z)
| grayscale
| art_effect (effect_type : option string)
| white_balance (method : option string)
| brightness (factor : option spec_float)
| contrast (factor : option spec_float)
| saturation (factor : option spec_float)
| sharpen (factor : option spec_float)
| blur (radius : option spec_float) (blur_type : option string)
| flip (direction : option string)
| invert
| sepia (intensity : option spec_float)
| edge_detect (method : option string)
| emboss
| pixelate (pixel_size : option Z)
| vignette (strength : option spec_float)
| hue_shift (degrees : option spec_float)
| add_border (border_width : option Z) (color : option (list Z))
| auto_contrast (cutoff : option spec_float)
| equalize
| color_temperature (temperature : option Z)
| reset
| list_actions
| ping
| other (action : option string).

(** The [action] field of the request. *)
Definition name (a : t) : option string :=
  match a with
  | load_file _ => Some "load_file"
  | load_base64 _ => Some "load_base64"
  | save_file _ _ => Some "save_file"
  | get_base64 _ => Some "get_base64"
  | get_info => Some "get_info"
  | batch_load _ => Some "batch_load"
  | thumbnail _ _ => Some "thumbnail"
  | resize _ _ _ => Some "resize"
  | rotate _ _ _ => Some "rotate"
  | crop _ _ _ _ => Some "crop"
  | crop_center _ _ => Some "crop_center"
  | grayscale => Some "grayscale"
  | art_effect _ => Some "art_effect"
  | white_balance _ => Some "white_balance"
  | brightness _ => Some "brightness"
  | contrast _ => Some "contrast"
  | saturation _ => Some "saturation"
  | sharpen _ => Some "sharpen"
  | blur _ _ => Some "blur"
  | flip _ => Some "flip"
  | invert => Some "invert"
  | sepia _ => Some "sepia"
  | edge_detect _ => Some "edge_detect"
  | emboss => Some "emboss"
  | pixelate _ => Some "pixelate"
  | vignette _ => Some "vignette"
  | hue_shift _ => Some "hue_shift"
  | add_border _ _ => Some "add_border"
  | auto_contrast _ => Some "auto_contrast"
  | equalize => Some "equalize"
  | color_temperature _ => Some "color_temperature"
  | reset => Some "reset"
  | list_actions => Some "list_actions"
  | ping => Some "ping"
  | other a => a
  end.
(** The transforms: the actions that replace the current image. *)
Definition is_transform (a : t) : bool :=
  match a with
  | thumbnail _ _ | resize _ _ _ | rotate _ _ _ | crop _ _ _ _ | crop_center _ _
  | grayscale | art_effect _ | white_balance _ | brightness _ | contrast _
  | saturation _ | sharpen _ | blur _ _ | flip _ | invert | sepia _
  | edge_detect _ | emboss | pixelate _ | vignette _ | hue_shift _
  | add_border _ _ | auto_contrast _ | equalize | color_temperature _ => true
  | _ => false
  end.

(** The two loads. *)
Definition is_load (a : t) : bool :=
  match a with
  | load_file _ | load_base64 _ => true
  | _ => false
  end.
End Action.

(** The catalogue [list_actions] returns: group, action, parameters (the
    one-line descriptions are left out). *)
Definition catalogue : list (string * list (string * list string)) :=
  [ ("file_operations",
      [ ("load_file", ["file_path"]); ("load_base64", ["base64"]);
        ("save_file", ["output_path"; "quality?"]); ("get_base64", ["format?"]);
        ("get_info", []); ("batch_load", ["folder_path"]); ("reset", []) ]);
    ("basic_transforms",
      [ ("thumbnail", ["max_width?"; "max_height?"]);
        ("resize", ["width"; "height"; "keep_aspect?"]);
        ("rotate", ["angle"; "expand?"; "fill_color?"]);
        ("crop", ["left"; "top"; "right"; "bottom"]);
        ("crop_center", ["width"; "height"]); ("flip", ["direction"]) ]);
    ("color_adjustments",
      [ ("grayscale", []); ("brightness", ["factor"]); ("contrast", ["factor"]);
        ("saturation", ["factor"]); ("white_balance", ["method?"]);
        ("color_temperature", ["temperature"]); ("hue_shift", ["degrees"]);
        ("auto_contrast", ["cutoff?"]); ("equalize", []); ("invert", []);
        ("sepia", ["intensity?"]) ]);
    ("filters_effects",
      [ ("blur", ["radius?"; "blur_type?"]); ("sharpen", ["factor?"]);
        ("edge_detect", ["method?"]); ("emboss", []); ("pixelate", ["pixel_size?"]);
        ("vignette", ["strength?"]); ("art_effect", ["effect_type"]);
        ("add_border", ["border_width?"; "color?"]) ]) ].

(** Python truth of an optional string and of an optional integer. *)
Definition falsy_str (s : option string) : bool :=
  match s with None => true | Some s => String.eqb s "" end.

Definition falsy_int (z : option Z) : bool :=
  match z with None => true | Some z => z =? 0 end.

Definition no_image : string := "尚未載入圖片".
Definition no_original : string := "沒有原始圖片可復原".

Definition with_heap (h : list Obj) (s : IPCServer) : IPCServer :=
  mkServer h (current_image s) (original_image s) (picture_image s) (file_handler s).
Definition with_current (r : option nat) (s : IPCServer) : IPCServer :=
  mkServer (heap s) r (original_image s) (picture_image s) (file_handler s).
Definition with_original (r : option nat) (s : IPCServer) : IPCServer :=
  mkServer (heap s) (current_image s) r (picture_image s) (file_handler s).
Definition with_picture (r : option nat) (s : IPCServer) : IPCServer :=
  mkServer (heap s) (current_image s) (original_image s) r (file_handler s).
Definition with_file_handler (f : FileHandler) (s : IPCServer) : IPCServer :=
  mkServer (heap s) (current_image s) (original_image s) (picture_image s) f.

(** A new object; its reference is its position in the heap. *)
Definition alloc (o : Obj) (s : IPCServer) : nat * IPCServer :=
  (length (heap s), with_heap (heap s ++ [o]) s).

(** The object behind a reference (every reference comes from [alloc], so
    the lookup finds one). *)
Definition deref (s : IPCServer) (r : nat) : Exc Obj :=
  match heap s !! r with
  | Some o => Ok o
  | None => raise ReferenceError "no such object"
  end.

(** [Image.load]: the pixel data of an object. *)
Definition load (o : Obj) : Exc Image :=
  match obj_load o with
  | None => Ok (obj_image o)
  | Some e => Raise e
  end.

Definition pixels (s : IPCServer) (r : nat) : Exc Image :=
  do o <- deref s r; load o.

Section Server.
Context {lib : Imaging}.

(** [Image.save(buffer, format, quality, optimize)] followed by the
    base64 encoding of the buffer. *)
Definition Image_save (img : Image) (format : string) (quality : Z)
    (optimize : bool) : Exc Encoded :=
  if String.eqb format "JPEG" && ((im_width img =? 0) || (im_height img =? 0))
  then raise ValueError "cannot write empty image as JPEG"
  else
    match lib_raises (lib_save format quality optimize) [Image_copy img] with
    | Some e => Raise e
    | None => Ok (mkEncoded format quality optimize (Image_copy img))
    end.

Definition _image_to_base64 (img : Image) (format : string) (quality : Z) : Exc Encoded :=
  let save_format := "JPEG" in
  do save_img <-
    (if bool_decide (im_mode img = RGBA \/ im_mode img = LA \/ im_mode img = P) then
       let background := Image_new RGB (im_size img) [255; 255; 255] in
       let img := if decide (im_mode img = P) then Image_convert img RGBA else img in
       if bool_decide (im_mode img = RGBA \/ im_mode img = LA) then
         match last (Image_split img) with
         | Some mask => Ok (Image_paste background img mask)
         | None => raise IndexError "tuple index out of range"
         end
       else Ok background
     else if negb (bool_decide (im_mode img = RGB)) then Ok (Image_convert img RGB)
     else Ok img);
  Image_save save_img save_format quality true.

Definition _get_image_info (img : Image) : Info :=
  mkInfo (im_width img) (im_height img) (mode_name (im_mode img))
    (match im_format img with
     | Some f => if String.eqb f "" then "Unknown" else f
     | None => "Unknown"
     end).

Definition _create_preview (img : Image) (max_size : Z) : Exc Image :=
  let '(width, height) := im_size img in
  if (width <=? max_size) && (height <=? max_size) then Ok img
  else
    do by_width <- Py.int_truediv max_size width;
    do by_height <- Py.int_truediv max_size height;
    let scale := Py.min by_width by_height in
    do w <- Py.float width;
    do new_width <- Py.int (Py.mul w scale);
    do h <- Py.float height;
    do new_height <- Py.int (Py.mul h scale);
    do preview <- Image_thumbnail (Image_copy img) (new_width, new_height) LANCZOS;
    do _ <- Py.int_truediv (im_width preview * im_height preview) (width * height);
    Ok preview.

(** The tail every load, transform and reset shares: the message, the
    info and the preview of [self.current_image], built after the
    assignment; an exception raised here leaves the assignment in place. *)
Definition respond (s : IPCServer) (msg : Image -> list Fragment) : Response :=
  match
    (do r <- match current_image s with
             | Some r => Ok r
             | None => raise ReferenceError "no such object"
             end;
     do o <- deref s r;
     let img := obj_image o in
     do shown <- (do loaded <- load o;
                  do preview_image <- _create_preview loaded 1024;
                  _image_to_base64 preview_image "PNG" 75);
     Ok (edited (msg img) (_get_image_info img) shown))
  with
  | Ok r => r
  | Raise e => Failure (exc_str e)
  end.

(** [self.picture], with the image its reference designates. *)
Definition the_picture (s : IPCServer) : Exc Picture :=
  match picture_image s with
  | None => Ok (mkPicture None)
  | Some r => do img <- pixels s r; Ok (mkPicture (Some img))
  end.

(** The shape of every transform branch:
    [if self.current_image is None: return failure];
    [self.current_image = self.picture.<method>(...)];
    [self.picture.set_image(self.current_image)]; [return {...}]. *)
Definition transform (s : IPCServer) (method : Picture -> Exc Image)
    (msg : Image -> list Fragment) : Response * IPCServer :=
  match current_image s with
  | None => (Failure no_image, s)
  | Some _ =>
      match (do self <- the_picture s; method self) with
      | Raise e => (Failure (exc_str e), s)
      | Ok result =>
          let '(r, s) := alloc (mkObj result None) s in
          let s := with_picture (Some r) (with_current (Some r) s) in
          (respond s msg, s)
      end
  end.

(** [x.copy()] on the object behind a reference. *)
Definition copy_object (s : IPCServer) (r : nat) : Exc (nat * IPCServer) :=
  do img <- pixels s r;
  Ok (alloc (mkObj (Image_copy img) None) s).

(** [FileHandler.load_file] *)
Definition FileHandler_load_file (host : Host) (s : IPCServer) (file_path : string)
    : Exc nat * IPCServer :=
  if negb (path_exists host file_path)
  then (raise FileNotFoundError ("找不到檔案: " ++ file_path), s)
  else
    match open_file host file_path with
    | Raise e => (raise IOError ("無法載入圖片: " ++ exc_str e), s)
    | Ok o =>
        let '(r, s) := alloc o s in
        (Ok r, with_file_handler
                 (mkFileHandler (Some r) (Some file_path) (im_format (obj_image o))) s)
    end.

(** What a load does once the opened image is in [self.current_image]. *)
Definition loaded (s : IPCServer) (r : nat) (msg : list Fragment) : Response * IPCServer :=
  let s := with_current (Some r) s in
  match copy_object s r with
  | Raise e => (Failure (exc_str e), s)
  | Ok (backup, s) =>
      let s := with_picture (Some r) (with_original (Some backup) s) in
      (respond s (fun _ => msg), s)
  end.

Definition handle_request (host : Host) (s : IPCServer) (request : Action.t)
    : Response * IPCServer :=
  match request with
  | Action.load_file file_path =>
      if falsy_str file_path then (Failure "缺少 file_path 參數", s)
      else
        let file_path := default "" file_path in
        match FileHandler_load_file host s file_path with
        | (Raise e, s) => (Failure (exc_str e), s)
        | (Ok r, s) => loaded s r [txt "成功載入: "; txt file_path]
        end
  | Action.load_base64 base64_str =>
      if falsy_str base64_str then (Failure "缺少 base64 參數", s)
      else
        match open_base64 host (default "" base64_str) with
        | Raise e => (Failure (exc_str e), s)
        | Ok o =>
            let '(r, s) := alloc o s in
            loaded s r [txt "成功從 Base64 載入圖片"]
        end
  | Action.save_file output_path quality =>
      let quality := default 95 quality in
      if falsy_str output_path then (Failure "缺少 output_path 參數", s)
      else
        match current_image s with
        | None => (Failure no_image, s)
        | Some r =>
            let output_path := default "" output_path in
            match (do o <- deref s r;
                   match save_as host output_path o quality with
                   | Some e => Raise e
                   | None => Ok tt
                   end) with
            | Raise e => (Failure (exc_str e), s)
            | Ok _ =>
                (Success (mkFields (Some [txt "已儲存至: "; txt output_path])
                            None None None (Some output_path) None None None None), s)
            end
        end
  | Action.get_base64 format =>
      let format := default "PNG" format in
      match current_image s with
      | None => (Failure no_image, s)
      | Some r =>
          match (do o <- deref s r;
                 do img <- load o;
                 do text <- _image_to_base64 img format 75;
                 Ok (text, _get_image_info (obj_image o))) with
          | Raise e => (Failure (exc_str e), s)
          | Ok (text, i) =>
              (Success (mkFields None (Some i) None (Some text)
                          None None None None None), s)
          end
      end
  | Action.get_info =>
      match current_image s with
      | None => (Failure no_image, s)
      | Some r =>
          match deref s r with
          | Raise e => (Failure (exc_str e), s)
          | Ok o =>
              (Success (mkFields None (Some (_get_image_info (obj_image o)))
                          None None None None None None None), s)
          end
      end
  | Action.batch_load folder_path =>
      if falsy_str folder_path then (Failure "缺少 folder_path 參數", s)
      else
        match batch_load host (default "" folder_path) with
        | Raise e => (Failure (exc_str e), s)
        | Ok found =>
            (Success (mkFields None None None None None (Some found)
                        (Some (Z.of_nat (length found))) None None), s)
        end
  | Action.thumbnail max_width max_height =>
      let max_width := default 128 max_width in
      let max_height := default 128 max_height in
      transform s (fun self => thumbnail self (max_width, max_height))
        (fun img => [txt "縮圖完成: "; size_val (im_size img)])
  | Action.resize width height keep_aspect =>
      let keep_aspect := default false keep_aspect in
      if falsy_int width || falsy_int height
      then (Failure "缺少 width 或 height 參數", s)
      else
        transform s (fun self => resize self (default 0 width, default 0 height) keep_aspect)
          (fun img => [txt "調整尺寸完成: "; size_val (im_size img)])
  | Action.rotate angle expand fill_color =>
      let angle := default Py.zero angle in
      let expand := default true expand in
      let fill_color := default [255; 255; 255] fill_color in
      transform s (fun self => rotate self angle expand fill_color)
        (fun _ => [txt "旋轉 "; float_val angle; txt "° 完成"])
  | Action.crop x0 y0 x1 y1 =>
      let x0 := default 0 x0 in
      let y0 := default 0 y0 in
      match x1, y1 with
      | Some x1, Some y1 =>
          transform s (fun self => crop self (x0, y0, x1, y1))
            (fun img => [txt "裁切完成: "; size_val (im_size img)])
      | _, _ => (Failure "缺少 right 或 bottom 參數", s)
      end
  | Action.crop_center width height =>
      if falsy_int width || falsy_int height
      then (Failure "缺少 width 或 height 參數", s)
      else
        transform s (fun self => crop_center self (default 0 width) (default 0 height))
          (fun img => [txt "中心裁切完成: "; size_val (im_size img)])
  | Action.grayscale =>
      transform s grayscale (fun _ => [txt "灰階轉換完成"])
  | Action.art_effect effect_type =>
      let effect_type := default "poster" effect_type in
      transform s (fun self => art_effect self effect_type)
        (fun _ => [txt "藝術效果 ("; txt effect_type; txt ") 套用完成"])
  | Action.white_balance method =>
      let method := default "auto" method in
      transform s (fun self => white_balance self method)
        (fun _ => [txt "白平衡調整完成"])
  | Action.brightness factor =>
      let factor := default Py.one factor in
      transform s (fun self => brightness self factor)
        (fun _ => [txt "亮度調整完成 (factor="; float_val factor; txt ")"])
  | Action.contrast factor =>
      let factor := default Py.one factor in
      transform s (fun self => contrast self factor)
        (fun _ => [txt "對比度調整完成 (factor="; float_val factor; txt ")"])
  | Action.saturation factor =>
      let factor := default Py.one factor in
      transform s (fun self => saturation self factor)
        (fun _ => [txt "飽和度調整完成 (factor="; float_val factor; txt ")"])
  | Action.sharpen factor =>
      let factor := default Py.one factor in
      transform s (fun self => sharpen self factor)
        (fun _ => [txt "銳化調整完成 (factor="; float_val factor; txt ")"])
  | Action.blur radius blur_type =>
      let radius := default (Py.of_int 2) radius in
      let blur_type := default "gaussian" blur_type in
      transform s (fun self => blur self radius blur_type)
        (fun _ => [txt "模糊處理完成 ("; txt blur_type; txt ", radius=";
                   float_val radius; txt ")"])
  | Action.flip direction =>
      let direction := default "horizontal" direction in
      transform s (fun self => flip self direction)
        (fun _ => [txt "翻轉完成 ("; txt direction; txt ")"])
  | Action.invert =>
      transform s invert (fun _ => [txt "負片效果完成"])
  | Action.sepia intensity =>
      let intensity := default Py.one intensity in
      transform s (fun self => sepia self intensity)
        (fun _ => [txt "懷舊效果完成 (intensity="; float_val intensity; txt ")"])
  | Action.edge_detect method =>
      let method := default "default" method in
      transform s (fun self => edge_detect self method)
        (fun _ => [txt "邊緣偵測完成 ("; txt method; txt ")"])
  | Action.emboss =>
      transform s emboss (fun _ => [txt "浮雕效果完成"])
  | Action.pixelate pixel_size =>
      let pixel_size := default 10 pixel_size in
      transform s (fun self => pixelate self pixel_size)
        (fun _ => [txt "馬賽克效果完成 (pixel_size="; int_val pixel_size; txt ")"])
  | Action.vignette strength =>
      let strength := default (Py.lit 5 1) strength in
      transform s (fun self => vignette self strength)
        (fun _ => [txt "暈影效果完成 (strength="; float_val strength; txt ")"])
  | Action.hue_shift degrees =>
      let degrees := default Py.zero degrees in
      transform s (fun self => hue_shift self degrees)
        (fun _ => [txt "色相偏移完成 ("; float_val degrees; txt "°)"])
  | Action.add_border border_width color =>
      let border_width := default 10 border_width in
      let color := default [0; 0; 0] color in
      transform s (fun self => add_border self border_width color)
        (fun _ => [txt "邊框添加完成 (width="; int_val border_width; txt ")"])
  | Action.auto_contrast cutoff =>
      let cutoff := default Py.zero cutoff in
      transform s (fun self => auto_contrast self cutoff)
        (fun _ => [txt "自動對比調整完成"])
  | Action.equalize =>
      transform s equalize (fun _ => [txt "直方圖等化完成"])
  | Action.color_temperature temperature =>
      let temperature := default 6500 temperature in
      transform s (fun self => color_temperature self temperature)
        (fun _ => [txt "色溫調整完成 ("; int_val temperature; txt "K)"])
  | Action.reset =>
      match original_image s with
      | None => (Failure no_original, s)
      | Some original =>
          match copy_object s original with
          | Raise e => (Failure (exc_str e), s)
          | Ok (r, s) =>
              let s := with_picture (Some r) (with_current (Some r) s) in
              (respond s (fun _ => [txt "已復原至原始圖片"]), s)
          end
      end
  | Action.list_actions =>
      (Success (mkFields None None None None None None None (Some catalogue) None), s)
  | Action.ping =>
      (Success (mkFields (Some [txt "pong"]) None None None None None None None
                  (Some "running")), s)
  | Action.other action =>
      (Failure ("未知的 action: " ++ default "None" action), s)
  end.

(** A run of the request loop: each request meets the file system of its
    moment. *)
Fixpoint run (s : IPCServer) (requests : list (Host * Action.t))
    : list Response * IPCServer :=
  match requests with
  | [] => ([], s)
  | (host, request) :: rest =>
      let '(response, s) := handle_request host s request in
      let '(responses, s) := run s rest in
      (response :: responses, s)
  end.

End Server.

(** ** The request loop on standard input *)

(** What [json.loads] and the reading of the request make of a line: a
    [JSONDecodeError], another exception (the text is JSON and not an
    object, so that [request.get] raises before anything is done), or a
    request. *)
Inductive Decoded :=
| bad_json (e : Exception)
| crash (e : Exception)
| request (a : Action.t).

(** The text functions of the loop: [str.strip] and the decoding. *)
Record Wire := mkWire {
  strip : string -> string;
  loads : string -> Decoded
}.

(** The line feed, and [chunk.endswith('\n')]. *)
Definition line_feed : Ascii.ascii := Ascii.ascii_of_nat 10.

Fixpoint endswith_newline (chunk : string) : bool :=
  match chunk with
  | EmptyString => false
  | String c EmptyString => Ascii.eqb c line_feed
  | String _ rest => endswith_newline rest
  end.

Section Loop.
Context {lib : Imaging}.

(** [IPCServer.run]: the responses handed to [_send_response], for the
    chunks [sys.stdin.readline] returns one after the other, each read
    with the file system of its moment.  The end of the list, and an empty
    chunk, are the end of the input.  A keyboard interrupt and a read that
    raises are left out: the chunks are those of reads that return. *)
Fixpoint run_stdin (wire : Wire) (s : IPCServer) (buffer : string)
    (chunks : list (Host * string)) : list Response * IPCServer :=
  match chunks with
  | [] => ([], s)
  | (host, chunk) :: rest =>
      if String.eqb chunk "" then ([], s)
      else
        let buffer := buffer ++ chunk in
        if negb (endswith_newline chunk) then run_stdin wire s buffer rest
        else
          let line := strip wire buffer in
          if String.eqb line "" then run_stdin wire s "" rest
          else
            match loads wire line with
            | bad_json e =>
                let '(responses, s) := run_stdin wire s "" rest in
                (Failure ("JSON 解析錯誤: " ++ exc_str e) :: responses, s)
            | crash e =>
                let '(responses, s) := run_stdin wire s "" rest in
                (Failure (exc_str e) :: responses, s)
            | request a =>
                let '(response, s) := handle_request host s a in
                let '(responses, s) := run_stdin wire s "" rest in
                (response :: responses, s)
            end
  end.
End Loop.

(** ** [FileHandler.save_as] *)

(** The path functions and the encoder, as [save_as] calls them. *)
Record Disk := mkDisk {
  (** [os.path.dirname] *)
  dirname : string -> string;
  (** [os.path.exists] *)
  dir_exists : string -> bool;
  (** [os.makedirs]: the exception it raises, if any *)
  makedirs : string -> option Exception;
  (** [os.path.splitext(path)[1].lower()] *)
  extension : string -> string;
  (** [Image.save(path, quality=..., format=...)] with the keyword
      arguments that are passed: the exception it raises, if any *)
  write : string -> Image -> option Z -> option string -> option Exception
}.

Section SaveAs.
Context {lib : Imaging}.

(** [FileHandler.save_as(output_path, image, format, quality)], with
    [self.current_image] as second argument.  What happens before the
    [try] (the directories, the compositing of an RGBA image for JPEG)
    raises as it is; what the encoder raises comes back as [IOError]. *)
Definition FileHandler_save_as (disk : Disk) (current_image : option Obj)
    (output_path : string) (image : option Obj) (format : option string)
    (quality : Z) : Exc string :=
  match (match image with Some o => Some o | None => current_image end) with
  | None => raise ValueError "沒有可儲存的圖片，請先載入圖片"
  | Some img =>
      let output_dir := dirname disk output_path in
      do _ <- (if negb (String.eqb output_dir "") && negb (dir_exists disk output_dir)
               then match makedirs disk output_dir with
                    | Some e => Raise e
                    | None => Ok tt
                    end
               else Ok tt);
      let ext := extension disk output_path in
      let jpeg := String.eqb ext ".jpg" || String.eqb ext ".jpeg" in
      do save_img <-
        (if jpeg && bool_decide (im_mode (obj_image img) = RGBA) then
           do loaded <- load img;
           let background := Image_new RGB (im_size loaded) [255; 255; 255] in
           match Image_split loaded !! 3%nat with
           | Some mask => Ok (mkObj (Image_paste background loaded mask) None)
           | None => raise IndexError "tuple index out of range"
           end
         else Ok img);
      match
        (do pixels <- load save_img;
         match write disk output_path pixels
                 (if jpeg then Some quality else None)
                 (if falsy_str format then None else format) with
         | Some e => Raise e
         | None => Ok output_path
         end)
      with
      | Ok saved => Ok saved
      | Raise e => raise IOError ("無法儲存圖片: " ++ exc_str e)
      end
  end.

(** A host whose [save_as] is [FileHandler.save_as] on a disk, called the
    way the router calls it: with the current image and no format. *)
Definition on_disk (disk : Disk) (host : Host) : Host := {|
  path_exists := path_exists host;
  open_file := open_file host;
  open_base64 := open_base64 host;
  save_as := fun output_path o quality =>
    match FileHandler_save_as disk None output_path (Some o) None quality with
    | Ok _ => None
    | Raise e => Some e
    end;
  batch_load := batch_load host
|}.

End SaveAs.

(** ** What the tools print *)

(** [Picture] and [FileHandler] report what they have done with [print],
    that is on standard output, the stream [_send_response] writes the
    answers to.  Each [Picture] method prints one text, as its last
    statement before it returns; [FileHandler.load_file] prints four once
    the file is open, [save_as] and [batch_load] one each before they
    return.  The router itself prints nothing. *)
Definition size_text (head : string) (img : Image) : list Fragment :=
  [txt head; int_val (im_width img); txt " x "; int_val (im_height img)].

Section Printing.
Context {lib : Imaging}.

(** The text of a transform branch: that of the method, if it returns. *)
Definition printed (s : IPCServer) (method : Picture -> Exc Image)
    (text : Image -> list Fragment) : list (list Fragment) :=
  match current_image s with
  | None => []
  | Some _ =>
      match (do self <- the_picture s; method self) with
      | Raise _ => []
      | Ok result => [text result]
      end
  end.

(** The texts printed while [handle_request] works on a request. *)
Definition tool_output (host : Host) (s : IPCServer) (request : Action.t)
    : list (list Fragment) :=
  match request with
  | Action.load_file file_path =>
      if falsy_str file_path then []
      else
        let file_path := default "" file_path in
        if negb (path_exists host file_path) then []
        else
          match open_file host file_path with
          | Raise _ => []
          | Ok o =>
              let img := obj_image o in
              [ [txt "✓ 成功載入圖片: "; txt file_path];
                [txt "  格式: "; txt (default "None" (im_format img))];
                size_text "  尺寸: " img;
                [txt "  色彩模式: "; txt (mode_name (im_mode img))] ]
          end
  | Action.save_file output_path quality =>
      let quality := default 95 quality in
      if falsy_str output_path then []
      else
        match current_image s with
        | None => []
        | Some r =>
            let output_path := default "" output_path in
            match deref s r with
            | Raise _ => []
            | Ok o =>
                match save_as host output_path o quality with
                | Some _ => []
                | None => [[txt "✓ 圖片已儲存至: "; txt output_path]]
                end
            end
        end
  | Action.batch_load folder_path =>
      if falsy_str folder_path then []
      else
        match batch_load host (default "" folder_path) with
        | Raise _ => []
        | Ok found =>
            [[txt "✓ 找到 "; int_val (Z.of_nat (length found)); txt " 個圖片檔案"]]
        end
  | Action.thumbnail max_width max_height =>
      let max_width := default 128 max_width in
      let max_height := default 128 max_height in
      printed s (fun self => thumbnail self (max_width, max_height))
        (size_text "✓ 縮圖完成: ")
  | Action.resize width height keep_aspect =>
      let keep_aspect := default false keep_aspect in
      if falsy_int width || falsy_int height then []
      else
        printed s (fun self => resize self (default 0 width, default 0 height) keep_aspect)
          (size_text (if keep_aspect then "✓ 調整尺寸完成 (保持比例): "
                      else "✓ 調整尺寸完成: "))
  | Action.rotate angle expand fill_color =>
      let angle := default Py.zero angle in
      let expand := default true expand in
      let fill_color := default [255; 255; 255] fill_color in
      printed s (fun self => rotate self angle expand fill_color)
        (fun _ => [txt "✓ 旋轉 "; float_val angle; txt "° 完成"])
  | Action.crop x0 y0 x1 y1 =>
      let x0 := default 0 x0 in
      let y0 := default 0 y0 in
      match x1, y1 with
      | Some x1, Some y1 =>
          printed s (fun self => crop self (x0, y0, x1, y1)) (size_text "✓ 裁切完成: ")
      | _, _ => []
      end
  | Action.crop_center width height =>
      if falsy_int width || falsy_int height then []
      else
        printed s (fun self => crop_center self (default 0 width) (default 0 height))
          (size_text "✓ 裁切完成: ")
  | Action.grayscale =>
      printed s grayscale (fun _ => [txt "✓ 灰階轉換完成"])
  | Action.art_effect effect_type =>
      let effect_type := default "poster" effect_type in
      printed s (fun self => art_effect self effect_type)
        (fun _ => [txt "✓ 藝術效果 ("; txt effect_type; txt ") 套用完成"])
  | Action.white_balance method =>
      let method := default "auto" method in
      printed s (fun self => white_balance self method)
        (fun _ => [txt "✓ 白平衡調整完成"])
  | Action.brightness factor =>
      let factor := default Py.one factor in
      printed s (fun self => brightness self factor)
        (fun _ => [txt "✓ 亮度調整完成 (factor="; float_val factor; txt ")"])
  | Action.contrast factor =>
      let factor := default Py.one factor in
      printed s (fun self => contrast self factor)
        (fun _ => [txt "✓ 對比度調整完成 (factor="; float_val factor; txt ")"])
  | Action.saturation factor =>
      let factor := default Py.one factor in
      printed s (fun self => saturation self factor)
        (fun _ => [txt "✓ 飽和度調整完成 (factor="; float_val factor; txt ")"])
  | Action.sharpen factor =>
      let factor := default Py.one factor in
      printed s (fun self => sharpen self factor)
        (fun _ => [txt "✓ 銳化調整完成 (factor="; float_val factor; txt ")"])
  | Action.blur radius blur_type =>
      let radius := default (Py.of_int 2) radius in
      let blur_type := default "gaussian" blur_type in
      printed s (fun self => blur self radius blur_type)
        (fun _ => [txt "✓ 模糊處理完成 ("; txt blur_type; txt ", radius=";
                   float_val radius; txt ")"])
  | Action.flip direction =>
      let direction := default "horizontal" direction in
      printed s (fun self => flip self direction)
        (fun _ => [txt "✓ 翻轉完成 ("; txt direction; txt ")"])
  | Action.invert =>
      printed s invert (fun _ => [txt "✓ 負片效果完成"])
  | Action.sepia intensity =>
      let intensity := default Py.one intensity in
      printed s (fun self => sepia self intensity)
        (fun _ => [txt "✓ 懷舊效果完成 (intensity="; float_val intensity; txt ")"])
  | Action.edge_detect method =>
      let method := default "default" method in
      printed s (fun self => edge_detect self method)
        (fun _ => [txt "✓ 邊緣偵測完成 ("; txt method; txt ")"])
  | Action.emboss =>
      printed s emboss (fun _ => [txt "✓ 浮雕效果完成"])
  | Action.pixelate pixel_size =>
      let pixel_size := default 10 pixel_size in
      printed s (fun self => pixelate self pixel_size)
        (fun _ => [txt "✓ 馬賽克效果完成 (pixel_size="; int_val pixel_size; txt ")"])
  | Action.vignette strength =>
      let strength := default (Py.lit 5 1) strength in
      printed s (fun self => vignette self strength)
        (fun _ => [txt "✓ 暈影效果完成 (strength="; float_val strength; txt ")"])
  | Action.hue_shift degrees =>
      let degrees := default Py.zero degrees in
      printed s (fun self => hue_shift self degrees)
        (fun _ => [txt "✓ 色相偏移完成 ("; float_val degrees; txt "°)"])
  | Action.add_border border_width color =>
      let border_width := default 10 border_width in
      let color := default [0; 0; 0] color in
      printed s (fun self => add_border self border_width color)
        (fun _ => [txt "✓ 邊框添加完成 (width="; int_val border_width; txt ")"])
  | Action.auto_contrast cutoff =>
      let cutoff := default Py.zero cutoff in
      printed s (fun self => auto_contrast self cutoff)
        (fun _ => [txt "✓ 自動對比調整完成"])
  | Action.equalize =>
      printed s equalize (fun _ => [txt "✓ 直方圖等化完成"])
  | Action.color_temperature temperature =>
      let temperature := default 6500 temperature in
      printed s (fun self => color_temperature self temperature)
        (fun _ => [txt "✓ 色溫調整完成 ("; int_val temperature; txt "K)"])
  | Action.load_base64 _ | Action.get_base64 _ | Action.get_info | Action.reset
  | Action.list_actions | Action.ping | Action.other _ => []
  end.

(** What one request puts on standard output: the texts of the tools,
    then the answer. *)
Inductive Written :=
| report (text : list Fragment)
| answer (r : Response).

Definition written (host : Host) (s : IPCServer) (request : Action.t) : list Written :=
  map report (tool_output host s request)
    ++ [answer (fst (handle_request host s request))].

End Printing.

(** ** A plain backend

    For running the model on concrete inputs: the NumPy kernels in the
    obvious order of evaluation, nearest-neighbour resampling, the hue
    rotation and every other routine handing back what it was given, and no
    call raising.  Nothing proved below depends on it: the theorems hold for
    every backend. *)

Definition nearest (b : Band) (src dst : Z * Z) : Band :=
  map (fun y => map (fun x => sample_at b (x * fst src / fst dst) (y * snd src / snd dst))
                    (zrange 0 (fst dst)))
      (zrange 0 (snd dst)).

Definition plain_pixels (r : Routine) (args : list Image) (k : nat) : Band :=
  match args with
  | [] => []
  | img :: _ =>
      let b := nth k (im_bands img) (uniform_band (im_width img) (im_height img) 255) in
      match r with
      | lib_resize sz _ => nearest b (im_size img) sz
      | _ => b
      end
  end.

Definition plain_mean (a : list (list spec_float)) : spec_float :=
  let flat := concat a in
  Np.div (fold_left Np.add flat (S754_zero false))
         (Np.of_sample (Z.of_nat (length flat))).

Definition plain_dot3 (a b : spec_float * spec_float * spec_float) : spec_float :=
  let '(a0, a1, a2) := a in
  let '(b0, b1, b2) := b in
  Py.add (Py.add (Py.mul a0 b0) (Py.mul a1 b1)) (Py.mul a2 b2).

Definition plain : Imaging := {|
  lib_pixels := plain_pixels;
  lib_size := fun _ img => im_size img;
  lib_raises := fun _ _ => None;
  np_mean := plain_mean;
  np_dot3 := plain_dot3;
  hsv_rotate := fun _ px => px
|}.

(** A host with no file at all. *)
Definition no_files : Host := {|
  path_exists := fun _ => false;
  open_file := fun _ => raise FileNotFoundError "No such file or directory";
  open_base64 := fun _ => raise OSError "cannot identify image file";
  save_as := fun _ _ _ => None;
  batch_load := fun _ => raise NotADirectoryError "不是有效的資料夾"
|}.

(** A host whose every path and text decodes to the given image. *)
Definition serving (img : Image) : Host := {|
  path_exists := fun _ => true;
  open_file := fun _ => Ok (mkObj img None);
  open_base64 := fun _ => Ok (mkObj img None);
  save_as := fun _ _ _ => None;
  batch_load := fun _ => Ok []
|}.

(** A [w] by [h] image of one colour. *)
Definition solid (m : Mode) (w h : Z) (color : list Z) : Image :=
  mkImage m (w, h) (map (uniform_band w h) color) None.

(** * Vocabulary of the properties *)

(** ** Sessions *)

(** The image behind a reference of the server. *)
Definition image_at (s : IPCServer) (r : option nat) : option Image :=
  match r with
  | Some r => obj_image <$> heap s !! r
  | None => None
  end.

(** No load has succeeded yet. *)
Definition Empty (s : IPCServer) : Prop :=
  current_image s = None /\ original_image s = None.

(** The session is editing [img]: there is a current image, and the image
    [self.picture] works on is [img]. *)
Definition Editing (s : IPCServer) (img : Image) : Prop :=
  current_image s <> None /\
  exists r, picture_image s = Some r /\ pixels s r = Ok img.

(** The error kinds of the specification are not values of the program: a
    failure carries nothing but its message.  These are the messages the
    router answers with when it has no image to work on, and when a required
    parameter is absent. *)
Definition NoImageLoaded (r : Response) : Prop :=
  r = Failure no_image \/ r = Failure no_original.

Definition MissingParameter (r : Response) : Prop :=
  exists what, r = Failure ("缺少 " ++ what ++ " 參數").

(** The transforms whose required parameters the router checks before it
    looks at the session, with the condition that makes that check fail. *)
Definition parameters_missing (a : Action.t) : bool :=
  match a with
  | Action.resize w h _ | Action.crop_center w h => falsy_int w || falsy_int h
  | Action.crop _ _ x1 y1 => negb (bool_decide (is_Some x1) && bool_decide (is_Some y1))
  | _ => false
  end.

(** ** Sizes *)

(** The size the claim states, in its words and in exact arithmetic: the
    source size times [min(targetW/srcW, targetH/srcH)], each side rounded
    to the nearest integer and at least 1. *)
Definition claimed_size (src target : Z * Z) : Z * Z :=
  let ratio a b := QArith_base.Qdiv (QArith_base.inject_Z a) (QArith_base.inject_Z b) in
  let scale := Qminmax.Qmin (ratio (fst target) (fst src))
                            (ratio (snd target) (snd src)) in
  let nearest q := Qround.Qfloor (QArith_base.Qplus q (QArith_base.Qmake 1 2)) in
  let side a := Z.max 1 (nearest (QArith_base.Qmult (QArith_base.inject_Z a) scale)) in
  (side (fst src), side (snd src)).

(** The size [resize] asks the library for when it keeps the aspect ratio,
    as the source computes it. *)
Definition aspect_size (src target : Z * Z) : Exc (Z * Z) :=
  let '(target_width, target_height) := target in
  let '(original_width, original_height) := src in
  do width_ratio <- Py.int_truediv target_width original_width;
  do height_ratio <- Py.int_truediv target_height original_height;
  let scale := Py.min width_ratio height_ratio in
  do w <- Py.float original_width;
  do new_width <- Py.int (Py.mul w scale);
  do h <- Py.float original_height;
  do new_height <- Py.int (Py.mul h scale);
  Ok (new_width, new_height).

(** [n] is the integer part of the finite number [x]: same sign, and
    magnitude the largest integer not above that of [x]. *)
Definition integer_part (x : spec_float) (n : Z) : Prop :=
  match x with
  | S754_zero _ => n = 0
  | S754_finite s m e =>
      (if s then n <= 0 else 0 <= n) /\
      if 0 <=? e then Z.abs n = Zpos m * 2 ^ e
      else Z.abs n * 2 ^ (- e) <= Zpos m < (Z.abs n + 1) * 2 ^ (- e)
  | _ => False
  end.

(** ** Samples *)

(** The sum of the samples of a band: with the number of samples fixed,
    the order of two means is the order of the sums. *)
Definition total (b : Band) : Z := fold_right Z.add 0 (concat b).

(** One sample through a gain: float32 product, clip, byte. *)
Definition scaled (gain : spec_float) (v : Z) : Z :=
  Np.astype_uint8 (Np.clip32 (Np.mul (Np.of_sample v) (Np.of_float gain))).

Definition byte (v : Z) : bool := (0 <=? v) && (v <=? 255).


(** One sample of a channel whose mean is the sample itself, through the
    gain [avg_gray / (avg + 1e-6)], the clip and the cut to a byte. *)
Definition gray_world_sample (v : Z) : Z :=
  let avg := Np.of_sample v in
  let avg_gray := Np.div (Np.add (Np.add avg avg) avg) (Np.of_sample 3) in
  Np.astype_uint8 (Np.clip32
    (Np.mul (Np.of_sample v) (Np.div avg_gray (Np.add avg (Np.of_float (Py.lit 1 6)))))).

(** ** Example images and sessions *)

(** A two-pixel colour image as a file opens it. *)
Definition two_pixels : Image :=
  mkImage RGB (2, 1) [[[10; 20]]; [[30; 40]]; [[50; 60]]] (Some "PNG").

(** A colour image with an alpha channel. *)
Definition translucent : Image :=
  mkImage RGBA (2, 1) [[[10; 20]]; [[30; 40]]; [[50; 60]]; [[255; 128]]] (Some "PNG").

Definition four_by_four : Image := solid RGB 4 4 [9; 9; 9].

Definition eight_by_seven : Image := solid RGB 8 7 [1; 2; 3].

Definition after_load : IPCServer :=
  snd (handle_request (lib:=plain) (serving two_pixels) init
         (Action.load_file (Some "a.png"))).

Definition some_edits : list (Host * Action.t) :=
  [ (no_files, Action.invert);
    (no_files, Action.flip (Some "horizontal"));
    (no_files, Action.art_effect (Some "watercolor"));
    (no_files, Action.get_info) ].

Definition after_edits : IPCServer := snd (run (lib:=plain) after_load some_edits).

Definition editing_four : IPCServer :=
  snd (handle_request (lib:=plain) (serving four_by_four) init
         (Action.load_file (Some "a.png"))).

(** ** What depends on the imaging library *)

Section Vocabulary.
Context {lib : Imaging}.

(** The preview of an image: what [respond] encodes. *)
Definition shown (img : Image) : Exc Encoded :=
  do preview_image <- _create_preview img 1024;
  _image_to_base64 preview_image "PNG" 75.






End Vocabulary.

(** ** Invariants and shapes of results *)

(** What holds of the references of a session: the image [self.picture]
    works on and the stored original are decoded objects, the current image
    is an object, and there is no picture without a current image and no
    original without a picture. *)
Definition consistent (s : IPCServer) : Prop :=
  (forall r, picture_image s = Some r ->
     exists o, heap s !! r = Some o /\ obj_load o = None) /\
  (forall r, original_image s = Some r ->
     exists o, heap s !! r = Some o /\ obj_load o = None) /\
  (forall r, current_image s = Some r -> is_Some (heap s !! r)) /\
  (picture_image s <> None -> current_image s <> None) /\
  (original_image s <> None -> picture_image s <> None).

(** An image the library has made carries no file format. *)
Definition formatless (x : Exc Image) : Prop :=
  forall out, x = Ok out -> im_format out = None.

(** A result of the given size, when there is one. *)
Definition sized (sz : Z * Z) (x : Exc Image) : Prop :=
  forall out, x = Ok out -> im_size out = sz.

(** A result of the given mode, when there is one. *)
Definition moded (m : Mode) (x : Exc Image) : Prop :=
  forall out, x = Ok out -> im_mode out = m.

(** The requests that use neither [Picture] nor [FileHandler]. *)
Definition silent (a : Action.t) : bool :=
  match a with
  | Action.load_base64 _ | Action.get_base64 _ | Action.get_info | Action.reset
  | Action.list_actions | Action.ping | Action.other _ => true
  | _ => false
  end.

(** A text that opens with the check mark of the tools. *)
Definition check_marked (w : Written) : Prop :=
  exists t rest, w = report (txt t :: rest) /\ String.prefix "✓ " t = true.

Definition is_success (r : Response) : bool :=
  match r with Success _ => true | Failure _ => false end.

(** A sample scaled to the unit interval and back, as [hue_shift] does on
    both sides of the colour conversion: [(x / 255.0 * 255).astype(uint8)]
    in single precision. *)
Definition unit_sample (v : Z) : spec_float :=
  Np.div (Np.of_sample v) (Np.of_float (Py.of_int 255)).

Definition through_unit (v : Z) : Z :=
  Np.astype_uint8 (Np.mul (unit_sample v) (Np.of_sample 255)).

(** ** More examples *)

(** A file that opens (its header reads) and whose pixel data is cut short. *)
Definition truncated_file (img : Image) : Host := {|
  path_exists := fun _ => true;
  open_file := fun _ => Ok (mkObj img (Some (mkExc OSError "image file is truncated")));
  open_base64 := fun _ => raise OSError "cannot identify image file";
  save_as := fun _ _ _ => None;
  batch_load := fun _ => Ok []
|}.

Definition after_grayscale : Response * IPCServer :=
  handle_request (lib:=plain) no_files after_load Action.grayscale.

(** A palette image, as a GIF opens. *)
Definition indexed : Image :=
  mkImage P (2, 1) [[[0; 1]]] (Some "GIF").

Definition editing_indexed : IPCServer :=
  snd (handle_request (lib:=plain) (serving indexed) init
         (Action.load_file (Some "a.gif"))).

(** A wire for running the loop: nothing is stripped and every line reads
    as a ping. *)
Definition ping_wire : Wire := mkWire (fun text => text) (fun _ => request Action.ping).

Definition two_lines : list (Host * string * Action.t) :=
  [ (no_files, "a" ++ String line_feed EmptyString, Action.ping);
    (no_files, "b" ++ String line_feed EmptyString, Action.ping) ].

(** A disk that takes everything, and reads the extension as given. *)
Definition scratch_disk (ext : string) : Disk := {|
  dirname := fun _ => "";
  dir_exists := fun _ => true;
  makedirs := fun _ => None;
  extension := fun _ => ext;
  write := fun _ _ _ _ => None
|}.

(** The message of [Picture._ensure_image]. *)
Definition no_picture : string := "尚未設定圖片，請先使用 set_image() 或載入圖片".

(** The session a fresh server is in after a load_file whose file opens
    and does not decode. *)
Definition half_loaded : IPCServer :=
  snd (handle_request (lib:=plain) (truncated_file two_pixels) init
         (Action.load_file (Some "a.png"))).

(** A gray image: one band of luminance. *)
Definition gray_ramp : Image :=
  mkImage L (4, 1) [[[0; 85; 170; 255]]] (Some "PNG").

(** * Properties of the session *)

Section Session.
Context {lib : Imaging}.

Lemma Image_copy_copy img : Image_copy (Image_copy img) = Image_copy img.
Proof. reflexivity. Qed.

Lemma pixel_identical_copy img : pixel_identical (Image_copy img) img.
Proof. repeat split. Qed.

Lemma pixel_identical_same_copy a b :
  pixel_identical a b -> Image_copy a = Image_copy b.
Proof. intros (Hm & Hs & Hb). unfold Image_copy. by rewrite Hm, Hs, Hb. Qed.

(** Objects are never updated in place: a request only adds objects. *)
Lemma handle_request_heap host s a r s' :
  handle_request host s a = (r, s') -> heap s `prefix_of` heap s'.
Proof.
  destruct a; simpl;
    unfold transform, loaded, copy_object, FileHandler_load_file, alloc, ebind;
    intros; repeat (case_match; simplify_eq/=); simplify_eq/=;
    try reflexivity; try (by apply prefix_app_r);
    try (by eexists; rewrite <- ?app_assoc).
Qed.

(** The stored original is assigned by the two loads only. *)
Lemma handle_request_original host s a r s' :
  Action.is_load a = false ->
  handle_request host s a = (r, s') -> original_image s' = original_image s.
Proof.
  destruct a; simpl; try discriminate; intros _;
    unfold transform, copy_object, alloc, ebind;
    intros; repeat (case_match; simplify_eq/=); simplify_eq/=; congruence.
Qed.

Lemma run_heap requests : forall s responses s',
  run s requests = (responses, s') -> heap s `prefix_of` heap s'.
Proof.
  induction requests as [|[host a] rest IH]; simpl; intros s responses s' Hrun.
  - by simplify_eq.
  - destruct (handle_request host s a) as [r s1] eqn:Hstep.
    destruct (run s1 rest) as [rs s2] eqn:Hrest. simplify_eq.
    etrans; [by eapply handle_request_heap | by eapply IH].
Qed.

Lemma run_original requests : forall s responses s',
  Forall (fun q => Action.is_load (snd q) = false) requests ->
  run s requests = (responses, s') -> original_image s' = original_image s.
Proof.
  induction requests as [|[host a] rest IH]; simpl; intros s responses s' Hall Hrun.
  - by simplify_eq.
  - destruct (handle_request host s a) as [r s1] eqn:Hstep.
    destruct (run s1 rest) as [rs s2] eqn:Hrest. simplify_eq.
    inversion Hall as [|? ? Ha Hrest']; subst; simpl in Ha.
    erewrite IH by eauto. by eapply handle_request_original.
Qed.

Lemma _image_to_base64_copy img fmt q :
  _image_to_base64 (Image_copy img) fmt q = _image_to_base64 img fmt q.
Proof. destruct img as [m sz b f]; destruct m; reflexivity. Qed.

Lemma shown_copy img : shown (Image_copy img) = shown img.
Proof.
  unfold shown, _create_preview. destruct img as [m [w h] b f]; simpl.
  destruct ((w <=? 1024) && (h <=? 1024)); [|reflexivity].
  simpl. apply _image_to_base64_copy.
Qed.

Lemma shown_pixel_identical a b : pixel_identical a b -> shown a = shown b.
Proof.
  intros H. rewrite <- (shown_copy a), <- (shown_copy b).
  by rewrite (pixel_identical_same_copy a b).
Qed.

(** [respond] on a state whose current image can be decoded. *)
Lemma respond_loadable s msg r o :
  current_image s = Some r -> heap s !! r = Some o -> obj_load o = None ->
  respond s msg =
    match shown (obj_image o) with
    | Ok e => edited (msg (obj_image o)) (_get_image_info (obj_image o)) e
    | Raise e => Failure (exc_str e)
    end.
Proof.
  intros Hc Hr Hl. unfold respond, deref, load, shown. rewrite Hc. simpl.
  rewrite Hr. simpl. rewrite Hl. simpl.
  destruct (_create_preview (obj_image o) 1024) as [p|e]; simpl; [|done].
  by destruct (_image_to_base64 p "PNG" 75).
Qed.

(** [respond] fails when the current image cannot be decoded. *)
Lemma respond_success s msg f :
  respond s msg = Success f ->
  exists r o, current_image s = Some r /\ heap s !! r = Some o /\ obj_load o = None /\
              is_ok (shown (obj_image o)) = true.
Proof.
  unfold respond, deref, load, shown.
  destruct (current_image s) as [r|] eqn:Hc; simpl; [|done].
  destruct (heap s !! r) as [o|] eqn:Hr; simpl; [|done].
  destruct (obj_load o) eqn:Hl; simpl; [done|].
  intros H. exists r, o. repeat split; try done.
  destruct (_create_preview (obj_image o) 1024) as [p|e]; simpl in *; [|done].
  by destruct (_image_to_base64 p "PNG" 75).
Qed.

(** What a successful load leaves behind: the opened object, and right
    after it in the heap a copy of it, held as the original. *)
Lemma loaded_success s r msg f s' o :
  heap s !! r = Some o ->
  loaded s r msg = (Success f, s') ->
  obj_load o = None /\ current_image s' = Some r /\
  original_image s' = Some (length (heap s)) /\
  heap s' = (heap s ++ [mkObj (Image_copy (obj_image o)) None])%list /\
  is_ok (shown (obj_image o)) = true.
Proof.
  intros Hr. unfold loaded, copy_object, pixels, deref, load, alloc. simpl.
  rewrite Hr. simpl. destruct (obj_load o) eqn:Hl; simpl; [done|].
  intros H. injection H as Hresp <-. simpl.
  repeat split; try done.
  apply respond_success in Hresp as (r' & o' & Hc & Hr' & _ & Hok).
  simpl in Hc, Hr'. simplify_eq.
  rewrite lookup_app_l in Hr' by (by eapply lookup_lt_Some).
  by simplify_eq.
Qed.

Lemma load_success host s a f s' :
  Action.is_load a = true ->
  handle_request host s a = (Success f, s') ->
  exists o,
    obj_load o = None /\ current_image s' = Some (length (heap s)) /\
    original_image s' = Some (S (length (heap s))) /\
    heap s' = (heap s ++ [o; mkObj (Image_copy (obj_image o)) None])%list /\
    is_ok (shown (obj_image o)) = true.
Proof.
  destruct a as [fp|b64| | | | | | | | | | | | | | | | | | | | | | | | | | | | | | | | |];
    simpl; try discriminate; intros _.
  - destruct (falsy_str fp); [done|].
    unfold FileHandler_load_file.
    destruct (negb _); [done|].
    destruct (open_file host _) as [o|e]; [|done]. simpl.
    intros H. eapply (loaded_success _ _ _ _ _ o) in H as (Hl & Hc & Ho & Hh & Hok).
    + exists o. simpl in *. rewrite length_app in Ho. simpl in Ho.
      rewrite Hh, <- app_assoc. repeat split; try done.
      rewrite Ho. f_equal. lia.
    + simpl. by rewrite list_lookup_middle.
  - destruct (falsy_str b64); [done|].
    destruct (open_base64 host _) as [o|e]; [|done]. simpl.
    intros H. eapply (loaded_success _ _ _ _ _ o) in H as (Hl & Hc & Ho & Hh & Hok).
    + exists o. simpl in *. rewrite length_app in Ho. simpl in Ho.
      rewrite Hh, <- app_assoc. repeat split; try done.
      rewrite Ho. f_equal. lia.
    + simpl. by rewrite list_lookup_middle.
Qed.

(** What a reset does when an original is stored. *)
Lemma reset_copies host s backup img :
  original_image s = Some backup ->
  heap s !! backup = Some (mkObj img None) ->
  exists s',
    handle_request host s Action.reset =
      (match shown img with
       | Ok e => edited [txt "已復原至原始圖片"] (_get_image_info (Image_copy img)) e
       | Raise e => Failure (exc_str e)
       end, s') /\
    image_at s' (current_image s') = Some (Image_copy img) /\
    original_image s' = Some backup /\
    heap s' = (heap s ++ [mkObj (Image_copy img) None])%list.
Proof.
  intros Ho Hb. simpl. rewrite Ho.
  unfold copy_object, pixels, deref, load, alloc. rewrite Hb. simpl.
  eexists. split; [|split; [|split]]; try reflexivity.
  - f_equal.
    erewrite (respond_loadable _ _ (length (heap s)) (mkObj (Image_copy img) None));
      simpl; try done.
    + by rewrite shown_copy.
    + by rewrite list_lookup_middle.
  - simpl. by rewrite list_lookup_middle.
  - done.
  - done.
Qed.

(** C1.  After a load that succeeded, whatever requests other than a load
    follow (transforms that succeed or fail, queries, resets), the stored
    original is a distinct object that still holds the pixels of the loaded
    image, and a reset succeeds and makes the current image pixel-identical
    to the image captured at that load. *)
Theorem reset_restores_loaded_image host0 s0 load_request fields s1
    requests responses s2 host :
  Action.is_load load_request = true ->
  handle_request host0 s0 load_request = (Success fields, s1) ->
  Forall (fun q => Action.is_load (snd q) = false) requests ->
  run s1 requests = (responses, s2) ->
  exists loaded_image backup fields' s3 restored,
    image_at s1 (current_image s1) = Some loaded_image /\
    original_image s1 <> current_image s1 /\
    image_at s1 (original_image s1) = Some backup /\
    pixel_identical backup loaded_image /\
    image_at s2 (original_image s2) = Some backup /\
    handle_request host s2 Action.reset = (Success fields', s3) /\
    image_at s3 (current_image s3) = Some restored /\
    pixel_identical restored loaded_image.
Proof.
  intros Hload Hstep Hall Hrun.
  destruct (load_success _ _ _ _ _ Hload Hstep) as (o & Hl & Hc & Ho & Hh & Hok).
  assert (Hcur : heap s1 !! length (heap s0) = Some o).
  { rewrite Hh. by rewrite list_lookup_middle. }
  assert (Hbak : heap s1 !! S (length (heap s0))
                 = Some (mkObj (Image_copy (obj_image o)) None)).
  { rewrite Hh. rewrite (lookup_app_r (heap s0)) by lia.
    by replace (S (length (heap s0)) - length (heap s0))%nat with 1%nat by lia. }
  pose proof (run_heap _ _ _ _ Hrun) as Hpre.
  pose proof (run_original _ _ _ _ Hall Hrun) as Horig.
  assert (Hbak2 : heap s2 !! S (length (heap s0))
                  = Some (mkObj (Image_copy (obj_image o)) None))
    by (by eapply prefix_lookup_Some).
  rewrite Ho in Horig.
  destruct (reset_copies host s2 _ _ Horig Hbak2) as (s3 & Hreset & Hcur3 & _ & _).
  destruct (shown (obj_image o)) as [e|e] eqn:Hshown; [|done].
  rewrite shown_copy, Hshown in Hreset.
  eexists (obj_image o), (Image_copy (obj_image o)), _, s3,
    (Image_copy (Image_copy (obj_image o))).
  rewrite Hc, Ho, Horig. simpl. rewrite Hcur, Hbak, Hbak2. simpl.
  split; [done|]. split; [intros [= H]; lia|].
  split; [done|]. split; [apply pixel_identical_copy|].
  split; [done|]. split; [exact Hreset|].
  split; [exact Hcur3|]. repeat split.
Qed.

End Session.

(** ** Concrete sessions *)

Lemma reset_restores_loaded_image_witness :
  exists loaded_image backup fields' s3 restored,
    image_at after_load (current_image after_load) = Some loaded_image /\
    original_image after_load <> current_image after_load /\
    image_at after_load (original_image after_load) = Some backup /\
    pixel_identical backup loaded_image /\
    image_at after_edits (original_image after_edits) = Some backup /\
    handle_request (lib:=plain) no_files after_edits Action.reset = (Success fields', s3) /\
    image_at s3 (current_image s3) = Some restored /\
    pixel_identical restored loaded_image.
Proof.
  eapply (reset_restores_loaded_image (lib:=plain) (serving two_pixels) init
            (Action.load_file (Some "a.png")) _ after_load some_edits _ after_edits
            no_files).
  - reflexivity.
  - vm_compute. reflexivity.
  - repeat constructor.
  - vm_compute. reflexivity.
Defined.

(** ** C2: requests on an empty session *)

(** The claim fails as stated: a resize without its size, on the empty
    session, is answered with the missing-parameter message. *)
Lemma resize_without_size_on_empty_session :
  handle_request (lib:=plain) no_files init (Action.resize None None None)
    = (Failure "缺少 width 或 height 參數", init) /\
  Action.is_transform (Action.resize None None None) = true /\
  Empty init /\
  ~ NoImageLoaded (Failure "缺少 width 或 height 參數").
Proof.
  repeat split. intros [H|H]; discriminate H.
Qed.

Section EmptySession.
Context {lib : Imaging}.

(** C2 (amended).  On the empty session every transform and reset fails and
    leaves the session as it was; the failure is the no-image one, except
    for resize and crop_center without a non-zero width and height and crop
    without right and bottom, which are answered as a missing parameter. *)
Theorem empty_session_refuses host s a :
  Empty s ->
  Action.is_transform a = true \/ a = Action.reset ->
  exists msg,
    handle_request host s a = (Failure msg, s) /\
    (parameters_missing a = true /\ MissingParameter (Failure msg) \/
     parameters_missing a = false /\ NoImageLoaded (Failure msg)).
Proof.
  intros [Hc Ho] [Ht| ->].
  - destruct a; try discriminate Ht; simpl; unfold transform; rewrite Hc;
      try (eexists; split; [reflexivity|]; right; split; [reflexivity|]; by left).
    + destruct (falsy_int width0 || falsy_int height0); eexists;
        (split; [reflexivity|]).
      * left. split; [done|]. by exists "width 或 height".
      * right. split; [done|]. by left.
    + destruct right as [x1|], bottom as [y1|]; simpl; eexists;
        (split; [reflexivity|]);
        try (left; split; [done|]; by exists "right 或 bottom").
      right. split; [reflexivity|by left].
    + destruct (falsy_int width0 || falsy_int height0); eexists;
        (split; [reflexivity|]).
      * left. split; [done|]. by exists "width 或 height".
      * right. split; [done|]. by left.
  - simpl. rewrite Ho. eexists. split; [reflexivity|].
    right. split; [done|]. by right.
Qed.

End EmptySession.

Lemma empty_session_refuses_witness :
  exists msg,
    handle_request (lib:=plain) no_files init Action.grayscale = (Failure msg, init) /\
    (parameters_missing Action.grayscale = true /\ MissingParameter (Failure msg) \/
     parameters_missing Action.grayscale = false /\ NoImageLoaded (Failure msg)).
Proof.
  apply (empty_session_refuses (lib:=plain) no_files init Action.grayscale).
  - split; reflexivity.
  - left. reflexivity.
Defined.

(** ** Transforms on a loaded session *)

Section Editing.
Context {lib : Imaging}.

(** A transform that raises leaves the session as it was. *)
Lemma transform_raise s img method msg e :
  Editing s img -> method (mkPicture (Some img)) = Raise e ->
  transform s method msg = (Failure (exc_str e), s).
Proof.
  intros [Hc (r & Hp & Hpx)] Hm. unfold transform, the_picture.
  destruct (current_image s); [|done]. rewrite Hp, Hpx. simpl. by rewrite Hm.
Qed.

(** A transform that returns makes its result the current image. *)
Lemma transform_ok s img method msg out :
  Editing s img -> method (mkPicture (Some img)) = Ok out ->
  exists response s',
    transform s method msg = (response, s') /\
    image_at s' (current_image s') = Some out /\
    Editing s' out /\
    original_image s' = original_image s.
Proof.
  intros [Hc (r & Hp & Hpx)] Hm. unfold transform, the_picture.
  destruct (current_image s); [|done]. rewrite Hp, Hpx. simpl. rewrite Hm.
  simpl. eexists _, _. split; [reflexivity|]. simpl.
  rewrite list_lookup_middle by done. repeat split; try done.
  eexists. split; [reflexivity|]. unfold pixels, deref. simpl.
  by rewrite list_lookup_middle.
Qed.

End Editing.

(** ** C4: crop and crop_center *)

Lemma zrange_length start len : length (zrange start len) = Z.to_nat len.
Proof. unfold zrange. by rewrite length_map, length_seq. Qed.

Lemma zrange_lookup start len i :
  (i < Z.to_nat len)%nat -> zrange start len !! i = Some (start + Z.of_nat i).
Proof.
  intros Hi. unfold zrange. rewrite list_lookup_fmap.
  by rewrite lookup_seq_lt.
Qed.

(** The cropped band has the size of the box, and its sample at [(x, y)]
    is the source sample at [(x0 + x, y0 + y)]. *)
Lemma crop_band_rows b x0 y0 x1 y1 :
  length (crop_band b x0 y0 x1 y1) = Z.to_nat (y1 - y0).
Proof. unfold crop_band. by rewrite length_map, zrange_length. Qed.

Lemma crop_band_columns b x0 y0 x1 y1 row :
  row ∈ crop_band b x0 y0 x1 y1 -> length row = Z.to_nat (x1 - x0).
Proof.
  unfold crop_band. intros (y & -> & _)%list_elem_of_fmap.
  by rewrite length_map, zrange_length.
Qed.

Lemma crop_band_sample b x0 y0 x1 y1 x y :
  0 <= x < x1 - x0 -> 0 <= y < y1 - y0 ->
  sample_at (crop_band b x0 y0 x1 y1) x y = sample_at b (x0 + x) (y0 + y).
Proof.
  intros Hx Hy. unfold sample_at at 1.
  replace ((0 <=? x) && (0 <=? y)) with true
    by (symmetry; apply andb_true_intro; split; apply Z.leb_le; lia).
  unfold crop_band.
  rewrite (nth_lookup_Some _ _ _ (map (fun x => sample_at b x (y0 + y)) (zrange x0 (x1 - x0)))).
  - rewrite (nth_lookup_Some _ _ _ (sample_at b (x0 + x) (y0 + y))); [done|].
    rewrite list_lookup_fmap, zrange_lookup by lia. simpl.
    by rewrite Z2Nat.id by lia.
  - rewrite list_lookup_fmap, zrange_lookup by lia. simpl.
    by rewrite Z2Nat.id by lia.
Qed.




Section Crop.
Context {lib : Imaging}.



End Crop.


(** ** Facts about the library *)

Section LibraryFacts.
Context {lib : Imaging}.

Lemma Image_convert_size img target :
  im_size (Image_convert img target) = im_size img.
Proof.
  unfold Image_convert. case_decide; [done|].
  by destruct target, (im_mode img).
Qed.

Lemma Image_copy_convert img target :
  Image_copy (Image_convert img target) = Image_convert img target.
Proof.
  unfold Image_convert. case_decide; [done|].
  by destruct target, (im_mode img).
Qed.

Lemma Image_convert_mode img target :
  im_mode (Image_convert img target) = target.
Proof.
  unfold Image_convert. case_decide; [done|].
  by destruct target, (im_mode img).
Qed.

End LibraryFacts.

(** ** Checking a property of every 8-bit sample by evaluation *)

Lemma every_sample (p : Z -> bool) :
  forallb p (zrange 0 256) = true -> forall v, 0 <= v <= 255 -> p v = true.
Proof.
  intros Hall v Hv. rewrite forallb_forall in Hall. apply Hall.
  unfold zrange. apply in_map_iff. exists (Z.to_nat v). split; [lia|].
  apply in_seq. lia.
Qed.

(** A sample survives the round trip through float32, the clip and the
    conversion back to a byte. *)
Lemma sample_round_trip v :
  0 <= v <= 255 -> Np.astype_uint8 (Np.clip32 (Np.of_sample v)) = v.
Proof.
  intros Hv. apply Z.eqb_eq.
  apply (every_sample (fun v => Np.astype_uint8 (Np.clip32 (Np.of_sample v)) =? v));
    [by vm_compute|done].
Qed.

Lemma to_uint8_round_trip w h b :
  wf_band w h b = true -> to_uint8 (map_band Np.of_sample b) = b.
Proof.
  unfold wf_band, to_uint8, map_band. intros [_ Hrows]%andb_true_iff.
  rewrite forallb_forall in Hrows. rewrite map_map.
  rewrite <- (map_id b) at 2. apply map_ext_in. intros row Hrow.
  apply Hrows in Hrow. apply andb_true_iff in Hrow as [_ Hsamples].
  rewrite forallb_forall in Hsamples. rewrite map_map.
  rewrite <- (map_id row) at 2. apply map_ext_in. intros v Hin.
  apply Hsamples in Hin. apply andb_true_iff in Hin as [?%Z.leb_le ?%Z.leb_le].
  by apply sample_round_trip.
Qed.

(** The bands of a well-formed image, by position. *)
Lemma wf_image_band img k :
  wf_image img = true -> (k < nbands (im_mode img))%nat ->
  wf_band (im_width img) (im_height img) (nth k (im_bands img) []) = true.
Proof.
  unfold wf_image. intros [[_ Hn%Nat.eqb_eq]%andb_true_iff Hb]%andb_true_iff Hk.
  rewrite forallb_forall in Hb. apply Hb, nth_In. lia.
Qed.

Lemma wf_rgb_bands img :
  wf_image img = true -> im_mode img = RGB ->
  exists r g b, im_bands img = [r; g; b] /\
    wf_band (im_width img) (im_height img) r = true /\
    wf_band (im_width img) (im_height img) g = true /\
    wf_band (im_width img) (im_height img) b = true.
Proof.
  intros Hwf Hm.
  pose proof (wf_image_band img 0 Hwf) as H0.
  pose proof (wf_image_band img 1 Hwf) as H1.
  pose proof (wf_image_band img 2 Hwf) as H2.
  unfold wf_image in Hwf. apply andb_true_iff in Hwf as [[_ Hn%Nat.eqb_eq]%andb_true_iff _].
  rewrite Hm in *. simpl in *.
  destruct (im_bands img) as [|r [|g [|b [|]]]]; try discriminate Hn.
  exists r, g, b. repeat split; [apply H0|apply H1|apply H2]; lia.
Qed.

(** ** C5: names outside the catalogue *)


Section UnknownNames.
Context {lib : Imaging}.


End UnknownNames.


(** ** C10: the preview encoder *)

Section Encoder.
Context {lib : Imaging}.


End Encoder.


(** ** C3: the alpha channel through the colour operations *)


Section Alpha.
Context {lib : Imaging}.

Lemma alpha_band_rgb out : im_mode out = RGB -> alpha_band out = None.
Proof. unfold alpha_band. by intros ->. Qed.









End Alpha.


(** ** C6: resize that keeps the aspect ratio *)

(** The claim fails as stated: an 8 by 7 image resized into 2 by 7 comes
    out 2 by 1 (7 * 0.25 = 1.75 is cut to 1), not 2 by 2. *)
Lemma resize_truncates_instead_of_rounding :
  exists out,
    resize (lib:=plain) (mkPicture (Some eight_by_seven)) (2, 7) true = Ok out /\
    im_size out = (2, 1) /\
    claimed_size (8, 7) (2, 7) = (2, 2).
Proof. eexists. vm_compute. repeat split. Qed.

(** [int(x)] cuts toward zero. *)
Lemma Py_int_integer_part x n : Py.int x = Ok n -> integer_part x n.
Proof.
  destruct x as [s|s| |s m e]; simpl; try discriminate.
  - by intros [= <-].
  - intros [= <-]. unfold integer_part.
    destruct (0 <=? e) eqn:He.
    + apply Z.leb_le in He.
      assert (0 < Z.pos m * 2 ^ e) by (apply Z.mul_pos_pos; [lia|by apply Z.pow_pos_nonneg]).
      destruct s; simpl; split; lia.
    + apply Z.leb_gt in He.
      assert (Hp : 0 < 2 ^ (- e)) by (apply Z.pow_pos_nonneg; lia).
      pose proof (Z.div_pos (Z.pos m) (2 ^ (- e)) ltac:(lia) Hp) as Hq.
      pose proof (Z.mul_div_le (Z.pos m) (2 ^ (- e)) Hp) as Hlo.
      pose proof (Z.mul_succ_div_gt (Z.pos m) (2 ^ (- e)) Hp) as Hhi.
      destruct s; simpl; (split; [lia|]).
      * rewrite Z.abs_opp, Z.abs_eq by lia. lia.
      * rewrite Z.abs_eq by lia. lia.
Qed.

Section Resize.
Context {lib : Imaging}.

(** C6 (amended).  A resize that keeps the aspect ratio asks the library
    for the size [(int(W * scale), int(H * scale))], with
    [scale = min(targetW / W, targetH / H)] in binary64: each side is cut
    toward zero, not rounded, and a side cut below 1 is not raised to 1, the
    resize fails.  When it returns, the image has that size and the mode of
    the source; a 2000 by 1000 image resized into 500 by 500 comes out
    500 by 250. *)
Theorem resize_keeps_aspect_by_truncation img tw th :
  resize (mkPicture (Some img)) (tw, th) true =
    (do sz <- aspect_size (im_size img) (tw, th); Image_resize img sz LANCZOS) /\
  (forall w h, aspect_size (im_size img) (tw, th) = Ok (w, h) ->
     exists width_ratio height_ratio fw fh,
       Py.int_truediv tw (im_width img) = Ok width_ratio /\
       Py.int_truediv th (im_height img) = Ok height_ratio /\
       Py.float (im_width img) = Ok fw /\ Py.float (im_height img) = Ok fh /\
       integer_part (Py.mul fw (Py.min width_ratio height_ratio)) w /\
       integer_part (Py.mul fh (Py.min width_ratio height_ratio)) h /\
       (w < 1 \/ h < 1 ->
        resize (mkPicture (Some img)) (tw, th) true
          = raise ValueError "height and width must be > 0") /\
       (1 <= w -> 1 <= h -> exists out,
          resize (mkPicture (Some img)) (tw, th) true = Ok out /\
          im_size out = (w, h) /\ im_mode out = im_mode img)) /\
  (im_size img = (2000, 1000) -> exists out,
     resize (mkPicture (Some img)) (500, 500) true = Ok out /\
     im_size out = (500, 250) /\ im_mode out = im_mode img).
Proof.
  assert (Hshape : forall tw th,
    resize (mkPicture (Some img)) (tw, th) true =
      (do sz <- aspect_size (im_size img) (tw, th); Image_resize img sz LANCZOS)).
  { intros tw' th'. unfold resize, aspect_size, _ensure_image. cbn [image ebind].
    destruct (im_size img) as [W H].
    destruct (Py.int_truediv tw' W); [|done]. cbn [ebind].
    destruct (Py.int_truediv th' H); [|done]. cbn [ebind].
    destruct (Py.float W); [|done]. cbn [ebind].
    destruct (Py.int _); [|done]. cbn [ebind].
    destruct (Py.float H); [|done]. cbn [ebind].
    by destruct (Py.int _). }
  assert (Hsized : forall tw th w h,
    aspect_size (im_size img) (tw, th) = Ok (w, h) -> 1 <= w -> 1 <= h ->
    exists out, resize (mkPicture (Some img)) (tw, th) true = Ok out /\
                im_size out = (w, h) /\ im_mode out = im_mode img).
  { intros tw' th' w h Hsz Hw Hh. rewrite Hshape, Hsz. cbn [ebind].
    unfold Image_resize. cbn [fst snd].
    replace ((w <? 1) || (h <? 1)) with false
      by (symmetry; apply orb_false_iff; split; apply Z.ltb_ge; lia).
    case_bool_decide as Heq; eexists; (split; [reflexivity|]); by rewrite ?Heq. }
  split; [apply Hshape|]. split.
  - intros w h Hsz. pose proof Hsz as Hsz'. revert Hsz'.
    unfold aspect_size, im_width, im_height. destruct (im_size img) as [W H].
    cbn [fst snd].
    destruct (Py.int_truediv tw W) as [wr|]; [|done]. cbn [ebind].
    destruct (Py.int_truediv th H) as [hr|]; [|done]. cbn [ebind].
    destruct (Py.float W) as [fw|]; [|done]. cbn [ebind].
    destruct (Py.int (Py.mul fw _)) as [w'|] eqn:Hw; [|done]. cbn [ebind].
    destruct (Py.float H) as [fh|]; [|done]. cbn [ebind].
    destruct (Py.int (Py.mul fh _)) as [h'|] eqn:Hh; [|done]. cbn [ebind].
    intros [= <- <-]. exists wr, hr, fw, fh.
    repeat split; try done; try (by apply Py_int_integer_part).
    + intros Hsmall. rewrite Hshape, Hsz. cbn [ebind]. unfold Image_resize.
      cbn [fst snd].
      replace ((w' <? 1) || (h' <? 1)) with true; [done|].
      symmetry. apply orb_true_iff. destruct Hsmall; [left|right]; by apply Z.ltb_lt.
    + by apply Hsized.
  - intros Hsize. apply Hsized; [|lia..]. by rewrite Hsize.
Qed.

End Resize.

Lemma resize_keeps_aspect_by_truncation_witness :
  exists out,
    resize (lib:=plain) (mkPicture (Some (solid RGB 2000 1000 [])))
      (500, 500) true = Ok out /\
    im_size out = (500, 250) /\ im_mode out = im_mode (solid RGB 2000 1000 []).
Proof.
  apply (proj2 (proj2 (resize_keeps_aspect_by_truncation (lib:=plain)
                         (solid RGB 2000 1000 []) 500 500))).
  reflexivity.
Defined.

(** ** C7: colour temperature *)

Lemma total_repeat_row v n : fold_right Z.add 0 (repeat v n) = Z.of_nat n * v.
Proof. induction n as [|n IH]; [done|]. cbn [repeat fold_right]. lia. Qed.

Lemma total_app a b : fold_right Z.add 0 (a ++ b) = fold_right Z.add 0 a + fold_right Z.add 0 b.
Proof. induction a as [|x a IH]; [done|]. cbn [app fold_right]. lia. Qed.

Lemma total_uniform w h v :
  0 <= w -> 0 <= h -> total (uniform_band w h v) = w * h * v.
Proof.
  intros Hw Hh. unfold total, uniform_band.
  remember (Z.to_nat h) as m eqn:Hm.
  assert (Hsum : fold_right Z.add 0 (concat (repeat (repeat v (Z.to_nat w)) m))
                 = Z.of_nat m * (w * v)).
  { clear Hm. induction m as [|m IH]; [done|].
    cbn [repeat concat]. rewrite total_app, IH, total_repeat_row.
    rewrite Z2Nat.id, Nat2Z.inj_succ by lia. ring. }
  rewrite Hsum. subst m. rewrite Z2Nat.id by lia. ring.
Qed.

Lemma color_temperature_at_the_ends :
  color_temperature (lib:=plain) (mkPicture (Some (solid RGB 2 1 [4; 4; 4]))) 2000
    = Ok (mkImage RGB (2, 1) [[[4; 4]]; [[4; 4]]; [[3; 3]]] None) /\
  color_temperature (lib:=plain) (mkPicture (Some (solid RGB 2 1 [255; 255; 255]))) 2000
    = Ok (mkImage RGB (2, 1) [[[255; 255]]; [[255; 255]]; [[204; 204]]] None) /\
  total [[4; 4]] = total (uniform_band 2 1 4) /\
  total [[255; 255]] = total (uniform_band 2 1 255) /\
  temperature_gains 1000
    = Ok (S754_finite false 5604479536283284 (-52),
          S754_finite false 6805439436915416 (-53)) /\
  SFltb (Py.lit 12 1) (S754_finite false 5604479536283284 (-52)) = true /\
  SFltb (S754_finite false 6805439436915416 (-53)) (Py.lit 8 1) = true.
Proof. vm_compute. repeat split. Qed.

Lemma map_band_uniform {A B} (f : A -> B) (v : A) n m :
  map_band f (repeat (repeat v n) m) = repeat (repeat (f v) n) m.
Proof. unfold map_band. by rewrite !map_repeat. Qed.

Lemma scaled_at_2000 v :
  0 <= v <= 255 ->
  scaled (Py.lit 12 1) v = Z.min 255 (12 * v / 10) /\
  scaled (Py.lit 8 1) v = 8 * v / 10.
Proof.
  intros Hv.
  pose proof (every_sample
    (fun v => (scaled (Py.lit 12 1) v =? Z.min 255 (12 * v / 10)) &&
              (scaled (Py.lit 8 1) v =? 8 * v / 10)) ltac:(by vm_compute) v Hv) as H.
  cbv beta in H. apply andb_true_iff in H as [H1 H2].
  split; by apply Z.eqb_eq.
Qed.

Lemma scaled_is_a_byte gain v : 0 <= scaled gain v <= 255.
Proof.
  unfold scaled, Np.astype_uint8.
  pose proof (Z.mod_pos_bound (default 0 (IEEE.trunc (Np.clip32 (Np.mul (Np.of_sample v) (Np.of_float gain))))) 256).
  lia.
Qed.

Lemma to_uint8_scaled gain b :
  to_uint8 (map_band (fun x => Np.mul x (Np.of_float gain)) (map_band Np.of_sample b))
  = map_band (scaled gain) b.
Proof.
  unfold to_uint8, map_band, scaled. rewrite !map_map.
  apply map_ext. intros row. by rewrite !map_map.
Qed.

Section Temperature.
Context {lib : Imaging}.

Lemma color_temperature_rgb img r g b temperature gain_r gain_b :
  im_mode img = RGB -> im_bands img = [r; g; b] ->
  wf_band (im_width img) (im_height img) g = true ->
  temperature_gains temperature = Ok (gain_r, gain_b) ->
  color_temperature (mkPicture (Some img)) temperature =
    Ok (mkImage RGB (im_size img)
          [map_band (scaled gain_r) r; g; map_band (scaled gain_b) b] None).
Proof.
  intros Hm Hb Hg Hgains. unfold color_temperature, _ensure_image.
  cbn [image ebind]. rewrite Hgains. cbn [ebind].
  unfold Image_convert. rewrite decide_True by done.
  unfold np_channel, Image_fromarray, Image_copy. cbn [im_bands im_size].
  rewrite Hb. cbn [nth].
  rewrite (to_uint8_round_trip _ _ g Hg).
  by rewrite !to_uint8_scaled.
Qed.

End Temperature.

Section TemperatureClaim.
Context {lib : Imaging}.

Lemma color_temperature_solid w h v temperature gain_r gain_b :
  0 <= v <= 255 ->
  temperature_gains temperature = Ok (gain_r, gain_b) ->
  color_temperature (mkPicture (Some (solid RGB w h [v; v; v]))) temperature =
    Ok (solid RGB w h [scaled gain_r v; v; scaled gain_b v]).
Proof.
  intros Hv Hgains. unfold color_temperature, _ensure_image.
  cbn [image ebind]. rewrite Hgains. cbn [ebind].
  unfold Image_convert, solid. cbn [im_mode]. rewrite decide_True by done.
  unfold np_channel, Image_fromarray, Image_copy. cbn [im_bands im_size map nth].
  rewrite !to_uint8_scaled. unfold uniform_band, to_uint8.
  rewrite !map_band_uniform. by rewrite (sample_round_trip v Hv).
Qed.

(** C7 (amended).  On a colour image, color_temperature(T) multiplies the
    red samples by [1 + 0.2 f] and the blue samples by [1 - 0.2 f] with
    [f = (6500 - T) / 4500] when [T < 6500], and red by [1 - 0.2 f] and blue
    by [1 + 0.2 f] with [f = (T - 6500) / 3500] otherwise, in float32; the
    products are clipped to [0, 255] and cut to bytes; green is unchanged.
    The adjustment is 20 % at 2000 K and at 10000 K and is not capped.  At
    2000 K a sample [v] becomes [min(255, 12 v // 10)] in red and
    [8 v // 10] in blue, so on a uniform gray image of level [v] with
    [5 <= v <= 254] the red mean strictly increases and the blue mean
    strictly decreases. *)
Theorem color_temperature_scales_red_and_blue img r g b temperature :
  wf_image img = true -> im_mode img = RGB -> im_bands img = [r; g; b] ->
  (forall factor, temperature < 6500 ->
     Py.int_truediv (6500 - temperature) 4500 = Ok factor ->
     temperature_gains temperature =
       Ok (Py.add Py.one (Py.mul factor (Py.lit 2 1)),
           Py.sub Py.one (Py.mul factor (Py.lit 2 1)))) /\
  (forall factor, 6500 <= temperature ->
     Py.int_truediv (temperature - 6500) 3500 = Ok factor ->
     temperature_gains temperature =
       Ok (Py.sub Py.one (Py.mul factor (Py.lit 2 1)),
           Py.add Py.one (Py.mul factor (Py.lit 2 1)))) /\
  temperature_gains 2000 = Ok (Py.lit 12 1, Py.lit 8 1) /\
  temperature_gains 10000 = Ok (Py.lit 8 1, Py.lit 12 1) /\
  (forall gain_r gain_b, temperature_gains temperature = Ok (gain_r, gain_b) ->
     color_temperature (mkPicture (Some img)) temperature =
       Ok (mkImage RGB (im_size img)
             [map_band (scaled gain_r) r; g; map_band (scaled gain_b) b] None)) /\
  (forall gain v, 0 <= scaled gain v <= 255) /\
  (forall v, 0 <= v <= 255 ->
     scaled (Py.lit 12 1) v = Z.min 255 (12 * v / 10) /\
     scaled (Py.lit 8 1) v = 8 * v / 10) /\
  (forall w h v, 0 < w -> 0 < h -> 5 <= v <= 254 ->
     exists out,
       color_temperature (mkPicture (Some (solid RGB w h [v; v; v]))) 2000 = Ok out /\
       total (uniform_band w h v) < total (nth 0 (im_bands out) []) /\
       nth 1 (im_bands out) [] = uniform_band w h v /\
       total (nth 2 (im_bands out) []) < total (uniform_band w h v)).
Proof.
  intros Hwf Hm Hb.
  split; [|split; [|split; [|split; [|split; [|split; [|split]]]]]].
  - intros factor Hlt Hf. unfold temperature_gains.
    replace (temperature <? 6500) with true by (symmetry; by apply Z.ltb_lt).
    by rewrite Hf.
  - intros factor Hge Hf. unfold temperature_gains.
    replace (temperature <? 6500) with false by (symmetry; by apply Z.ltb_ge).
    by rewrite Hf.
  - by vm_compute.
  - by vm_compute.
  - intros gain_r gain_b Hgains. apply color_temperature_rgb; try done.
    pose proof (wf_image_band img 1 Hwf) as Hg.
    rewrite Hm, Hb in Hg. apply Hg. simpl. lia.
  - apply scaled_is_a_byte.
  - apply scaled_at_2000.
  - intros w h v Hw Hh Hv.
    assert (Hg : temperature_gains 2000 = Ok (Py.lit 12 1, Py.lit 8 1)) by (by vm_compute).
    eexists. split; [apply color_temperature_solid; [lia|exact Hg]|].
    destruct (scaled_at_2000 v ltac:(lia)) as [-> ->].
    unfold solid. cbn [im_bands map nth].
    rewrite !total_uniform by lia.
    assert (0 < w * h) by lia.
    assert (v < Z.min 255 (12 * v / 10)).
    { apply Z.min_glb_lt; [lia|].
      assert (v + 1 <= 12 * v / 10) by (apply Z.div_le_lower_bound; lia). lia. }
    assert (8 * v / 10 < v) by (apply Z.div_lt_upper_bound; lia).
    split; [nia|]. split; [reflexivity|]. nia.
Qed.

End TemperatureClaim.

Lemma color_temperature_scales_red_and_blue_witness :
  exists out,
    color_temperature (lib:=plain) (mkPicture (Some (solid RGB 3 2 [128; 128; 128]))) 2000
      = Ok out /\
    total (uniform_band 3 2 128) < total (nth 0 (im_bands out) []) /\
    nth 1 (im_bands out) [] = uniform_band 3 2 128 /\
    total (nth 2 (im_bands out) []) < total (uniform_band 3 2 128).
Proof.
  pose proof (color_temperature_scales_red_and_blue (lib:=plain) two_pixels
                [[10; 20]] [[30; 40]] [[50; 60]] 2000 eq_refl eq_refl eq_refl)
    as (_ & _ & _ & _ & _ & _ & _ & H).
  apply H; lia.
Defined.

(** ** C8: sepia *)

(** *** Multiplication by 1.0 is exact *)
















Section Sepia.
Context {lib : Imaging}.





End Sepia.

Section SepiaClaim.
Context {lib : Imaging}.


End SepiaClaim.


(** ** C9: gray world on a uniform gray image *)

Lemma gray_world_sample_spec v :
  0 <= v <= 255 ->
  gray_world_sample v = if (1 <=? v) && (v <=? 31) then v - 1 else v.
Proof.
  intros Hv. apply Z.eqb_eq.
  apply (every_sample (fun v => gray_world_sample v
           =? (if (1 <=? v) && (v <=? 31) then v - 1 else v)));
    [by vm_compute|done].
Qed.

Section GrayWorld.
Context {lib : Imaging}.

(** C9.  On a uniform gray image of level [v] whose channel mean the array
    library computes as [v], white_balance("gray_world") returns a uniform
    gray image again, but of level [v - 1] when [1 <= v <= 31]: the gain
    [v / (v + 1e-6)] is below 1 in float32 there and the cut to a byte
    truncates.  The image comes back unchanged only for [v = 0] and
    [32 <= v <= 255]. *)
Theorem gray_world_on_uniform_gray (w h v : Z) :
  0 <= v <= 255 ->
  np_mean (map_band Np.of_sample (uniform_band w h v)) = Np.of_sample v ->
  white_balance (mkPicture (Some (solid RGB w h [v; v; v]))) "gray_world"
    = Ok (solid RGB w h
            (repeat (if (1 <=? v) && (v <=? 31) then v - 1 else v) 3)).
Proof.
  intros Hv Hmean. rewrite <- (gray_world_sample_spec v Hv).
  unfold white_balance, _ensure_image, ebind. cbn [image].
  unfold Image_convert, solid. cbn [im_mode]. rewrite decide_True by done.
  unfold np_channel, Image_fromarray, Image_copy. cbn [im_bands im_size map nth].
  replace (String.eqb "gray_world" "auto" || String.eqb "gray_world" "gray_world")
    with true by reflexivity.
  rewrite Hmean. unfold uniform_band, to_uint8. rewrite !map_band_uniform.
  reflexivity.
Qed.

End GrayWorld.

Lemma gray_world_on_uniform_gray_witness :
  white_balance (lib:=plain) (mkPicture (Some (solid RGB 2 2 [16; 16; 16]))) "gray_world"
    = Ok (mkImage RGB (2, 2)
            [[[15; 15]; [15; 15]]; [[15; 15]; [15; 15]]; [[15; 15]; [15; 15]]] None).
Proof.
  apply (gray_world_on_uniform_gray (lib:=plain) 2 2 16); [lia|].
  vm_compute. reflexivity.
Defined.

(** * Further properties of the code *)

(** ** What each request writes *)

Section Writes.
Context {lib : Imaging}.

Lemma transform_writes s method msg r s' :
  transform s method msg = (r, s') ->
  file_handler s' = file_handler s /\ original_image s' = original_image s /\
  (s' = s \/
   exists out, heap s' = (heap s ++ [mkObj out None])%list /\
     current_image s' = Some (length (heap s)) /\
     picture_image s' = Some (length (heap s))).
Proof.
  unfold transform. destruct (current_image s); [|by intros [= _ <-]; auto].
  destruct (do self <- the_picture s; method self) as [out|e];
    [|by intros [= _ <-]; auto].
  cbn [alloc]. intros [= _ <-]. repeat split. right. by exists out.
Qed.

(** X1.  Which request writes what.  A request that is neither a load,
    nor a transform, nor a reset leaves the session exactly as it was.
    Only a load assigns the stored original, and only load_file the file
    handler.  A transform or a reset either leaves the session as it was or
    adds one decoded image object and makes it both the current image and
    the image the transforms work on. *)
Theorem requests_write_only_their_fields host s a :
  let s' := snd (handle_request host s a) in
  (Action.is_load a = false -> Action.is_transform a = false -> a <> Action.reset ->
     s' = s) /\
  (Action.is_load a = false ->
     original_image s' = original_image s /\ file_handler s' = file_handler s) /\
  (forall base64, a = Action.load_base64 base64 -> file_handler s' = file_handler s) /\
  (Action.is_transform a = true \/ a = Action.reset ->
     s' = s \/
     exists out, heap s' = (heap s ++ [mkObj out None])%list /\
       current_image s' = Some (length (heap s)) /\
       picture_image s' = Some (length (heap s))).
Proof.
  cbv zeta.
  assert (Htransform : forall method msg,
            let s' := snd (transform s method msg) in
            file_handler s' = file_handler s /\ original_image s' = original_image s /\
            (s' = s \/
             exists out, heap s' = (heap s ++ [mkObj out None])%list /\
               current_image s' = Some (length (heap s)) /\
               picture_image s' = Some (length (heap s)))).
  { intros method msg. cbv zeta. destruct (transform s method msg) as [r s'] eqn:Ht.
    by apply (transform_writes _ _ _ _ _ Ht). }
  assert (Hreset : let s' := snd (handle_request host s Action.reset) in
            file_handler s' = file_handler s /\ original_image s' = original_image s /\
            (s' = s \/
             exists out, heap s' = (heap s ++ [mkObj out None])%list /\
               current_image s' = Some (length (heap s)) /\
               picture_image s' = Some (length (heap s)))).
  { cbn [handle_request]. destruct (original_image s) as [orig|] eqn:Ho; [|by auto].
    unfold copy_object, ebind. destruct (pixels s orig) as [img|]; [|by auto].
    cbn [alloc snd]. repeat split; [done|]. right. by eexists. }
  assert (Hall : Action.is_transform a = true \/ a = Action.reset ->
            let s' := snd (handle_request host s a) in
            file_handler s' = file_handler s /\ original_image s' = original_image s /\
            (s' = s \/
             exists out, heap s' = (heap s ++ [mkObj out None])%list /\
               current_image s' = Some (length (heap s)) /\
               picture_image s' = Some (length (heap s)))).
  { intros [Ha| ->]; [|exact Hreset].
    destruct a; try discriminate Ha; cbn [handle_request];
      repeat (case_match; try (by auto)); apply Htransform. }
  split; [|split; [|split]].
  - intros Hl Ht Hr.
    destruct a; try discriminate Hl; try discriminate Ht;
      try (exfalso; by apply Hr);
      cbn [handle_request]; unfold ebind;
      repeat case_match; reflexivity.
  - intros Hl.
    destruct a; try discriminate Hl;
      lazymatch goal with
      | |- context [handle_request _ _ Action.reset] =>
          destruct Hreset as (? & ? & _); by split
      | _ =>
          first [ destruct (Hall (or_introl eq_refl)) as (? & ? & _); by split
                | cbn [handle_request]; unfold ebind; repeat case_match; by split ]
      end.
  - intros base64 ->. cbn [handle_request].
    destruct (falsy_str _); [done|].
    destruct (open_base64 host _) as [o|]; [|done].
    cbn [alloc]. unfold loaded, copy_object, ebind.
    by destruct (pixels _ _).
  - intros Ha. by destruct (Hall Ha) as (_ & _ & ?).
Qed.

(** X2.  The required parameters are checked first.  A load_file, a
    load_base64, a save_file or a batch_load request whose path or text is
    missing or empty, and a resize or crop_center request whose width or
    height is missing or 0, and a crop request without right or bottom, are
    answered with the message naming the missing parameter, whatever the
    session and the file system hold, and the session is as it was. *)
Theorem missing_parameters_are_reported host s :
  (forall p, falsy_str p = true ->
     handle_request host s (Action.load_file p) = (Failure "缺少 file_path 參數", s) /\
     handle_request host s (Action.load_base64 p) = (Failure "缺少 base64 參數", s) /\
     (forall quality,
        handle_request host s (Action.save_file p quality)
          = (Failure "缺少 output_path 參數", s)) /\
     handle_request host s (Action.batch_load p) = (Failure "缺少 folder_path 參數", s)) /\
  (forall w h, falsy_int w = true \/ falsy_int h = true ->
     (forall keep_aspect,
        handle_request host s (Action.resize w h keep_aspect)
          = (Failure "缺少 width 或 height 參數", s)) /\
     handle_request host s (Action.crop_center w h)
       = (Failure "缺少 width 或 height 參數", s)) /\
  (forall x0 y0 x1 y1, x1 = None \/ y1 = None ->
     handle_request host s (Action.crop x0 y0 x1 y1)
       = (Failure "缺少 right 或 bottom 參數", s)).
Proof.
  split; [|split].
  - intros p Hp. cbn [handle_request]. by rewrite Hp.
  - intros w h Hwh. cbn [handle_request].
    replace (falsy_int w || falsy_int h) with true; [done|].
    symmetry. apply orb_true_iff. by destruct Hwh; [left|right].
  - intros x0 y0 x1 y1 [-> | ->]; cbn [handle_request]; [done|]. by destruct x1.
Qed.

End Writes.

(** ** The router and the session *)

Section Router.
Context {lib : Imaging}.

(** X3.  The three ways a load_file request fails.  A path that does not
    exist, or a file the library cannot open, is reported and changes
    nothing.  A file that opens and whose pixel data cannot be decoded is
    reported too, but by then the opened image has been assigned: it is the
    current image of the session, while the stored original and the image
    the transforms work on are still the previous ones. *)
Theorem load_file_failures host s p :
  p <> "" ->
  (path_exists host p = false ->
     handle_request host s (Action.load_file (Some p))
       = (Failure ("找不到檔案: " ++ p), s)) /\
  (forall e, path_exists host p = true -> open_file host p = Raise e ->
     handle_request host s (Action.load_file (Some p))
       = (Failure ("無法載入圖片: " ++ exc_str e), s)) /\
  (forall o e, path_exists host p = true -> open_file host p = Ok o ->
     obj_load o = Some e ->
     exists s',
       handle_request host s (Action.load_file (Some p)) = (Failure (exc_str e), s') /\
       heap s' = (heap s ++ [o])%list /\
       current_image s' = Some (length (heap s)) /\
       original_image s' = original_image s /\
       picture_image s' = picture_image s /\
       file_handler s'
         = mkFileHandler (Some (length (heap s))) (Some p) (im_format (obj_image o))).
Proof.
  intros Hp. apply String.eqb_neq in Hp.
  split; [|split].
  - intros Hex. cbn [handle_request falsy_str]. rewrite Hp.
    cbn [default from_option id]. unfold FileHandler_load_file. by rewrite Hex.
  - intros e Hex Hopen. cbn [handle_request falsy_str]. rewrite Hp.
    cbn [default from_option id]. unfold FileHandler_load_file. by rewrite Hex, Hopen.
  - intros o e Hex Hopen Hload. cbn [handle_request falsy_str]. rewrite Hp.
    cbn [default from_option id]. unfold FileHandler_load_file. rewrite Hex, Hopen.
    cbn [negb alloc]. unfold loaded, copy_object, pixels, deref, ebind.
    cbn [with_current with_file_handler with_heap heap].
    rewrite list_lookup_middle by done. unfold load. rewrite Hload.
    eexists. split; [reflexivity|]. by cbn.
Qed.

(** Each request keeps the references of the session in order. *)
Lemma transform_consistent s method msg r s' :
  consistent s -> transform s method msg = (r, s') -> consistent s'.
Proof.
  intros Hs. unfold transform.
  destruct (current_image s) as [c|] eqn:Hc; [|by intros [= _ <-]].
  destruct (do self <- the_picture s; method self) as [result|e];
    [|by intros [= _ <-]].
  cbn [alloc]. intros [= _ <-].
  destruct Hs as (Hpic & Horig & Hcur & Hpc & Hop).
  unfold consistent.
  simpl.
  split; [|split; [|split; [|split]]].
  - intros ? [= <-]. eexists. by rewrite list_lookup_middle.
  - intros r' Hr'. destruct (Horig r' Hr') as (o & Ho & Hl).
    exists o. split; [|done]. by apply lookup_app_l_Some.
  - intros ? [= <-]. by rewrite list_lookup_middle.
  - done.
  - done.
Qed.

Lemma loaded_consistent s r o msg resp s' :
  consistent s -> heap s !! r = Some o ->
  loaded s r msg = (resp, s') -> consistent s'.
Proof.
  intros (Hpic & Horig & Hcur & Hpc & Hop) Hr.
  unfold loaded, copy_object, pixels, deref, ebind.
  change (heap (with_current (Some r) s)) with (heap s). rewrite Hr. unfold load.
  destruct (obj_load o) as [e|] eqn:Hl.
  - intros [= _ <-]. unfold consistent.
    simpl.
    repeat split; try done. intros ? [= <-]. by rewrite Hr.
  - cbn [alloc]. intros [= _ <-]. unfold consistent.
    simpl.
    split; [|split; [|split; [|split]]]; try done.
    + intros ? [= <-]. exists o. split; [|done]. by apply lookup_app_l_Some.
    + intros ? [= <-]. eexists. by rewrite list_lookup_middle.
    + intros ? [= <-]. rewrite lookup_app_l_Some with (x := o); done.
Qed.

Lemma consistent_alloc s o :
  consistent s -> consistent (with_heap (heap s ++ [o]) s).
Proof.
  intros (Hpic & Horig & Hcur & Hpc & Hop). unfold consistent.
  simpl.
  split; [|split; [|split; [|split]]]; try done.
  - intros r Hr. destruct (Hpic r Hr) as (o' & Ho & Hl). exists o'.
    split; [|done]. by apply lookup_app_l_Some.
  - intros r Hr. destruct (Horig r Hr) as (o' & Ho & Hl). exists o'.
    split; [|done]. by apply lookup_app_l_Some.
  - intros r Hr. destruct (Hcur r Hr) as [o' Ho]. exists o'.
    by apply lookup_app_l_Some.
Qed.

Lemma consistent_file_handler s f :
  consistent s -> consistent (with_file_handler f s).
Proof. by intros Hs. Qed.

Lemma handle_request_consistent host s a r s' :
  consistent s -> handle_request host s a = (r, s') -> consistent s'.
Proof.
  intros Hs.
  destruct a; cbn [handle_request];
    try (by apply transform_consistent);
    try (by unfold ebind; intros; repeat (case_match; simplify_eq/=); simplify_eq/=).
  - (* load_file *)
    destruct (falsy_str _); [by intros [= _ <-]|].
    unfold FileHandler_load_file.
    destruct (negb _); [by intros [= _ <-]|].
    destruct (open_file host _) as [o|e]; [|by intros [= _ <-]].
    cbn [alloc]. apply (loaded_consistent _ _ o).
    + by apply consistent_file_handler, consistent_alloc.
    + cbn. by rewrite list_lookup_middle.
  - (* load_base64 *)
    destruct (falsy_str _); [by intros [= _ <-]|].
    destruct (open_base64 host _) as [o|e]; [|by intros [= _ <-]].
    cbn [alloc]. apply (loaded_consistent _ _ o).
    + by apply consistent_alloc.
    + cbn. by rewrite list_lookup_middle.
  - (* resize *)
    destruct (_ || _); [by intros [= _ <-]|]. by apply transform_consistent.
  - (* crop *)
    repeat case_match; try (by intros [= _ <-]).
    by apply transform_consistent.
  - (* crop_center *)
    destruct (_ || _); [by intros [= _ <-]|]. by apply transform_consistent.
  - (* reset *)
    destruct (original_image s) as [orig|] eqn:Ho; [|by intros [= _ <-]].
    destruct Hs as (Hpic & Horig & Hcur & Hpc & Hop).
    destruct (Horig orig Ho) as (o & Horig_o & Hl).
    unfold copy_object, pixels, deref, ebind, load. rewrite Horig_o, Hl.
    cbn [alloc]. intros [= _ <-]. unfold consistent.
    simpl.
    split; [|split; [|split; [|split]]]; try done.
    + intros ? [= <-]. eexists. by rewrite list_lookup_middle.
    + intros r' Hr'. destruct (Horig r' Hr') as (o' & Ho' & Hl').
      exists o'. split; [|done]. by apply lookup_app_l_Some.
    + intros ? [= <-]. by rewrite list_lookup_middle.
Qed.

Lemma run_consistent requests : forall s,
  consistent s -> consistent (snd (run s requests)).
Proof.
  induction requests as [|[host a] rest IH]; intros s Hs; [done|].
  cbn [run]. destruct (handle_request host s a) as [response s1] eqn:H1.
  specialize (IH s1 (handle_request_consistent _ _ _ _ _ Hs H1)).
  by destruct (run s1 rest).
Qed.

(** X4.  In every state the server reaches from its start, whatever the
    requests and whatever the file system answered: the image the
    transforms work on and the stored original are decoded objects, there
    is no picture without a current image and no original without a
    picture.  So get_info answers with the info of the current image as
    soon as there is one, and once a picture is set every transform request
    runs its method on a decoded image. *)
Theorem reachable_sessions (requests : list (Host * Action.t)) :
  let s := snd (run init requests) in
  consistent s /\
  (forall host r, current_image s = Some r ->
     exists o, heap s !! r = Some o /\
       handle_request host s Action.get_info
         = (Success (mkFields None (Some (_get_image_info (obj_image o)))
                       None None None None None None None), s)) /\
  (picture_image s <> None -> exists img, Editing s img) /\
  (forall host orig, original_image s = Some orig ->
     exists o response s',
       heap s !! orig = Some o /\
       handle_request host s Action.reset = (response, s') /\
       image_at s' (current_image s') = Some (Image_copy (obj_image o)) /\
       picture_image s' = current_image s' /\
       original_image s' = Some orig).
Proof.
  assert (Hs : consistent (snd (run init requests))).
  { apply run_consistent. unfold consistent, init. simpl. repeat split; done. }
  cbv zeta. split; [exact Hs|].
  destruct Hs as (Hpic & Horig & Hcur & Hpc & Hop). split; [|split].
  - intros host r Hr. destruct (Hcur r Hr) as [o Ho]. exists o. split; [done|].
    cbn [handle_request]. rewrite Hr. unfold deref. by rewrite Ho.
  - intros Hp. destruct (picture_image _) as [r|] eqn:Hr; [|done].
    destruct (Hpic r eq_refl) as (o & Ho & Hl).
    exists (obj_image o). split; [by apply Hpc|].
    exists r. split; [done|]. unfold pixels, deref, ebind, load. by rewrite Ho, Hl.
  - intros host orig Ho. destruct (Horig orig Ho) as (o & Hobj & Hl).
    exists o. cbn [handle_request]. rewrite Ho.
    unfold copy_object, pixels, deref, ebind, load. rewrite Hobj, Hl.
    cbn [alloc]. eexists _, _. split; [done|]. split; [reflexivity|].
    simpl. by rewrite list_lookup_middle.
Qed.

End Router.

Lemma load_file_failures_witness :
  exists s',
    handle_request (lib:=plain) (truncated_file two_pixels) after_load
        (Action.load_file (Some "b.png"))
      = (Failure "image file is truncated", s') /\
    current_image s' = Some 2%nat /\
    original_image s' = original_image after_load /\
    picture_image s' = picture_image after_load.
Proof.
  destruct (load_file_failures (lib:=plain) (truncated_file two_pixels) after_load "b.png"
              ltac:(discriminate)) as (_ & _ & H).
  destruct (H _ _ eq_refl eq_refl eq_refl) as (s' & Hr & Hh & Hc & Ho & Hp & _).
  exists s'. split; [exact Hr|]. split; [exact Hc|]. split; [exact Ho|exact Hp].
Defined.

(** ** A picture without an image *)

Section NoPicture.
Context {lib : Imaging}.

(** X5.  A [Picture] without an image: each of its 25 methods raises
    the same [ValueError], before it looks at its arguments.  The router
    meets this case when there is a current image and no picture, which is
    the state a failed decoding leaves a fresh server in: every transform
    request is then answered with the message of [Picture], not with the
    router's, and the session stays as it is. *)
Theorem picture_without_image :
  let self := mkPicture None in
  let refused (x : Exc Image) := x = raise ValueError no_picture in
  ((forall max_size, refused (thumbnail self max_size)) /\
   (forall new_size keep_aspect, refused (resize self new_size keep_aspect)) /\
   (forall angle expand fill_color, refused (rotate self angle expand fill_color)) /\
   (forall box, refused (crop self box)) /\
   (forall w h, refused (crop_center self w h)) /\
   refused (grayscale self) /\
   (forall effect_type, refused (art_effect self effect_type)) /\
   (forall method, refused (white_balance self method)) /\
   (forall factor, refused (brightness self factor)) /\
   (forall factor, refused (contrast self factor)) /\
   (forall factor, refused (saturation self factor)) /\
   (forall factor, refused (sharpen self factor)) /\
   (forall radius blur_type, refused (blur self radius blur_type)) /\
   (forall direction, refused (flip self direction)) /\
   refused (invert self) /\
   (forall intensity, refused (sepia self intensity)) /\
   (forall method, refused (edge_detect self method)) /\
   refused (emboss self) /\
   (forall pixel_size, refused (pixelate self pixel_size)) /\
   (forall strength, refused (vignette self strength)) /\
   (forall degrees, refused (hue_shift self degrees)) /\
   (forall border_width color, refused (add_border self border_width color)) /\
   (forall cutoff, refused (auto_contrast self cutoff)) /\
   refused (equalize self) /\
   (forall temperature, refused (color_temperature self temperature))) /\
  (forall host s a,
     current_image s <> None -> picture_image s = None ->
     Action.is_transform a = true -> parameters_missing a = false ->
     handle_request host s a = (Failure no_picture, s)).
Proof.
  cbv zeta. split.
  - repeat apply conj; intros; reflexivity.
  - intros host s a Hc Hp Ha Hparams.
    assert (Ht : forall method msg,
              method (mkPicture None) = raise ValueError no_picture ->
              transform s method msg = (Failure no_picture, s)).
    { intros method msg Hm. unfold transform, the_picture.
      destruct (current_image s); [|done]. rewrite Hp. cbn [ebind]. by rewrite Hm. }
    destruct a; try discriminate Ha; cbn [handle_request];
      cbn [parameters_missing] in Hparams;
      rewrite ?Hparams; try (by apply Ht).
    (* crop *)
    repeat case_match; try discriminate Hparams; by apply Ht.
Qed.

End NoPicture.

Lemma picture_without_image_witness :
  handle_request (lib:=plain) no_files half_loaded Action.grayscale
    = (Failure no_picture, half_loaded).
Proof.
  apply (proj2 (picture_without_image (lib:=plain)) no_files half_loaded Action.grayscale);
    by vm_compute.
Defined.

(** ** What the answers say *)

Section Answers.
Context {lib : Imaging}.

(** What a transform request answered with success has done. *)
Lemma transform_success s method msg f s' :
  transform s method msg = (Success f, s') ->
  exists self out e,
    the_picture s = Ok self /\ method self = Ok out /\ shown out = Ok e /\
    Success f = edited (msg out) (_get_image_info out) e /\
    s' = with_picture (Some (length (heap s)))
           (with_current (Some (length (heap s)))
              (with_heap (heap s ++ [mkObj out None]) s)).
Proof.
  unfold transform. destruct (current_image s); [|done].
  destruct (the_picture s) as [self|]; [|done]. cbn [ebind].
  destruct (method self) as [out|] eqn:Hm; [|done].
  cbn [alloc]. intros [= Hr <-].
  rewrite (respond_loadable _ _ (length (heap s)) (mkObj out None)) in Hr;
    [|done|simpl; by rewrite list_lookup_middle|done].
  cbn [obj_image] in Hr. destruct (shown out) as [e|] eqn:Hsh; [|done].
  exists self, out, e. by rewrite <- Hr.
Qed.

End Answers.

Lemma formatless_bind {A} (m : Exc A) (k : A -> Exc Image) :
  (forall a, formatless (k a)) -> formatless (ebind m k).
Proof. intros H out. destruct m as [a|e]; [apply H|done]. Qed.

Lemma formatless_ok img : im_format img = None -> formatless (Ok img).
Proof. by intros H out [= <-]. Qed.

Lemma formatless_raise e : formatless (Raise e).
Proof. by intros out. Qed.

Section Fresh.
Context {lib : Imaging}.

Lemma Image_convert_format img m : im_format (Image_convert img m) = None.
Proof. unfold Image_convert. by repeat case_match. Qed.

Lemma call_formatless r args m sz : formatless (call r args m sz).
Proof. unfold call. destruct (lib_raises _ _); [apply formatless_raise|by apply formatless_ok]. Qed.

Lemma Image_merge_formatless m parts : formatless (Image_merge m parts).
Proof.
  unfold Image_merge. destruct parts; [apply formatless_raise|].
  repeat case_match; (apply formatless_raise || by apply formatless_ok).
Qed.

Lemma Image_resize_formatless img sz r : formatless (Image_resize img sz r).
Proof.
  unfold Image_resize.
  repeat case_match; (apply formatless_raise || by apply formatless_ok).
Qed.

Lemma Image_crop_formatless img box : formatless (Image_crop img box).
Proof.
  unfold Image_crop. destruct box as [[[x0 y0] x1] y1].
  repeat case_match; (apply formatless_raise || by apply formatless_ok).
Qed.

Lemma Image_filter_formatless img f : formatless (Image_filter img f).
Proof.
  unfold Image_filter. case_match; (apply formatless_raise || by apply formatless_ok).
Qed.

Lemma ImageOps_lut_formatless r img : formatless (ImageOps_lut r img).
Proof.
  unfold ImageOps_lut. case_match; (apply formatless_raise || by apply formatless_ok).
Qed.

Lemma ImageOps_invert_formatless img : formatless (ImageOps_invert img).
Proof.
  unfold ImageOps_invert. case_match; (apply formatless_raise || by apply formatless_ok).
Qed.

Lemma ImageOps_equalize_formatless img : formatless (ImageOps_equalize img).
Proof. apply ImageOps_lut_formatless. Qed.

End Fresh.

Ltac formatless_step :=
  lazymatch goal with
  | |- formatless (ebind _ _) => apply formatless_bind; intros
  | |- formatless (Ok _) => apply formatless_ok; first [reflexivity | apply Image_convert_format]
  | |- formatless (Raise _) => apply formatless_raise
  | |- formatless (raise _ _) => apply formatless_raise
  | |- formatless (call _ _ _ _) => apply call_formatless
  | |- formatless (Image_merge _ _) => apply Image_merge_formatless
  | |- formatless (Image_resize _ _ _) => apply Image_resize_formatless
  | |- formatless (Image_crop _ _) => apply Image_crop_formatless
  | |- formatless (Image_filter _ _) => apply Image_filter_formatless
  | |- formatless (ImageOps_lut _ _) => apply ImageOps_lut_formatless
  | |- formatless (ImageOps_invert _) => apply ImageOps_invert_formatless
  | |- formatless (ImageOps_equalize _) => apply ImageOps_equalize_formatless
  | |- formatless (if ?c then _ else _) => destruct c
  | |- formatless (match ?x with _ => _ end) => destruct x
  end.

Section FreshMethods.
Context {lib : Imaging}.

(** Every method of [Picture] returns an image without a file format. *)
Lemma methods_formatless self :
  (forall max_size, formatless (thumbnail self max_size)) /\
  (forall new_size keep_aspect, formatless (resize self new_size keep_aspect)) /\
  (forall angle expand fill_color, formatless (rotate self angle expand fill_color)) /\
  (forall box, formatless (crop self box)) /\
  (forall w h, formatless (crop_center self w h)) /\
  formatless (grayscale self) /\
  (forall effect_type, formatless (art_effect self effect_type)) /\
  (forall method, formatless (white_balance self method)) /\
  (forall factor, formatless (brightness self factor)) /\
  (forall factor, formatless (contrast self factor)) /\
  (forall factor, formatless (saturation self factor)) /\
  (forall factor, formatless (sharpen self factor)) /\
  (forall radius blur_type, formatless (blur self radius blur_type)) /\
  (forall direction, formatless (flip self direction)) /\
  formatless (invert self) /\
  (forall intensity, formatless (sepia self intensity)) /\
  (forall method, formatless (edge_detect self method)) /\
  formatless (emboss self) /\
  (forall pixel_size, formatless (pixelate self pixel_size)) /\
  (forall strength, formatless (vignette self strength)) /\
  (forall degrees, formatless (hue_shift self degrees)) /\
  (forall border_width color, formatless (add_border self border_width color)) /\
  (forall cutoff, formatless (auto_contrast self cutoff)) /\
  formatless (equalize self) /\
  (forall temperature, formatless (color_temperature self temperature)).
Proof.
  repeat apply conj; intros.
  - unfold thumbnail, Image_thumbnail. repeat formatless_step.
  - unfold resize. repeat formatless_step.
  - unfold rotate, Image_rotate. repeat formatless_step.
  - unfold crop. repeat formatless_step.
  - unfold crop_center, crop. repeat formatless_step.
  - unfold grayscale. repeat formatless_step.
  - unfold art_effect, ImageOps_posterize, Image_blend. repeat formatless_step.
  - unfold white_balance. repeat formatless_step.
  - unfold brightness, ImageEnhance_enhance. repeat formatless_step.
  - unfold contrast, ImageEnhance_enhance. repeat formatless_step.
  - unfold saturation, ImageEnhance_enhance. repeat formatless_step.
  - unfold sharpen, ImageEnhance_enhance. repeat formatless_step.
  - unfold blur. repeat formatless_step.
  - unfold flip. repeat formatless_step.
  - unfold invert. repeat formatless_step.
  - unfold sepia. repeat formatless_step.
  - unfold edge_detect. repeat formatless_step.
  - unfold emboss. repeat formatless_step.
  - unfold pixelate. repeat formatless_step.
  - unfold vignette. formatless_step. destruct (im_size _) as [w h]. repeat formatless_step.
  - unfold hue_shift. repeat formatless_step.
  - unfold add_border, ImageOps_expand. repeat formatless_step.
  - unfold auto_contrast, ImageOps_autocontrast. repeat formatless_step.
  - unfold equalize, equalize_rgb. repeat formatless_step.
  - unfold color_temperature. repeat formatless_step.
Qed.

End FreshMethods.

Section Described.
Context {lib : Imaging}.

(** What [respond] says when it succeeds. *)
Lemma respond_inv s msg f :
  respond s msg = Success f ->
  exists r o e,
    current_image s = Some r /\ heap s !! r = Some o /\ obj_load o = None /\
    shown (obj_image o) = Ok e /\
    f = mkFields (Some (msg (obj_image o))) (Some (_get_image_info (obj_image o)))
          (Some e) None None None None None None.
Proof.
  intros H. destruct (respond_success _ _ _ H) as (r & o & Hc & Ho & Hl & _).
  rewrite (respond_loadable _ _ r o Hc Ho Hl) in H.
  destruct (shown (obj_image o)) as [e|] eqn:Hsh; [|done].
  injection H as <-. by exists r, o, e.
Qed.

(** A load, a transform or a reset answered with success has answered
    with [respond] on the session it leaves. *)
Lemma transform_respond s method msg f s' :
  transform s method msg = (Success f, s') ->
  respond s' msg = Success f /\
  exists out, heap s' !! length (heap s) = Some (mkObj out None) /\
    current_image s' = Some (length (heap s)) /\
    (forall self, the_picture s = Ok self -> method self = Ok out).
Proof.
  unfold transform. destruct (current_image s); [|done].
  destruct (the_picture s) as [self|]; [|done]. cbn [ebind].
  destruct (method self) as [out|] eqn:Hm; [|done].
  cbn [alloc]. intros [= Hr <-]. split; [done|].
  exists out. simpl. rewrite list_lookup_middle by done.
  repeat split. by intros ? [= <-].
Qed.

Lemma loaded_respond s r msg f s' :
  loaded s r msg = (Success f, s') ->
  respond s' (fun _ => msg) = Success f /\ current_image s' = Some r.
Proof.
  unfold loaded. destruct (copy_object _ r) as [[backup s1]|] eqn:Hc; [|done].
  intros [= Hr <-]. split; [done|]. revert Hc.
  unfold copy_object, ebind. destruct (pixels _ r); [|done].
  cbn [alloc]. by intros [= _ <-].
Qed.

End Described.

Section DescribedClaim.
Context {lib : Imaging}.

(** X6.  Whenever a request is answered with success and the answer
    carries an info record, that record is the info of the current image of
    the session the request leaves, and a preview in the answer is the
    encoded preview of that same image. *)
Theorem answers_describe_the_current_image host s a f s' i :
  handle_request host s a = (Success f, s') ->
  info f = Some i ->
  exists r o,
    current_image s' = Some r /\ heap s' !! r = Some o /\
    i = _get_image_info (obj_image o) /\
    (forall e, preview f = Some e -> shown (obj_image o) = Ok e).
Proof.
  assert (Hrespond : forall s' msg f, respond s' msg = Success f -> info f = Some i ->
            exists r o, current_image s' = Some r /\ heap s' !! r = Some o /\
              i = _get_image_info (obj_image o) /\
              (forall e, preview f = Some e -> shown (obj_image o) = Ok e)).
  { intros s1 msg f1 H Hi. destruct (respond_inv _ _ _ H) as (r & o & e & Hc & Ho & _ & Hsh & ->).
    cbn [info] in Hi. injection Hi as <-. exists r, o. repeat split; try done.
    cbn [preview]. by intros ? [= <-]. }
  assert (Htransform : forall method msg, transform s method msg = (Success f, s') ->
            info f = Some i ->
            exists r o, current_image s' = Some r /\ heap s' !! r = Some o /\
              i = _get_image_info (obj_image o) /\
              (forall e, preview f = Some e -> shown (obj_image o) = Ok e)).
  { intros method msg H. destruct (transform_respond _ _ _ _ _ H) as [Hr _].
    by apply (Hrespond _ _ _ Hr). }
  assert (Hloaded : forall s0 r msg, loaded s0 r msg = (Success f, s') ->
            info f = Some i ->
            exists r o, current_image s' = Some r /\ heap s' !! r = Some o /\
              i = _get_image_info (obj_image o) /\
              (forall e, preview f = Some e -> shown (obj_image o) = Ok e)).
  { intros s0 r msg H. destruct (loaded_respond _ _ _ _ _ H) as [Hr _].
    by apply (Hrespond _ _ _ Hr). }
  destruct a; cbn [handle_request]; try (by apply Htransform).
  - (* load_file *)
    destruct (falsy_str _); [done|].
    destruct (FileHandler_load_file host s _) as [[r|] s0]; [|done]. apply Hloaded.
  - (* load_base64 *)
    destruct (falsy_str _); [done|].
    destruct (open_base64 host _) as [o|]; [|done]. cbn [alloc]. apply Hloaded.
  - (* save_file *)
    destruct (falsy_str _); [done|].
    destruct (current_image s); [|done].
    destruct (ebind _ _); [|done]. by intros [= <- <-].
  - (* get_base64 *)
    destruct (current_image s) as [r|] eqn:Hc; [|done].
    unfold deref, ebind. destruct (heap s !! r) as [o|] eqn:Ho; [|done].
    destruct (load o); [|done].
    destruct (_image_to_base64 _ _ _); [|done].
    intros [= <- <-] [= <-]. by exists r, o.
  - (* get_info *)
    destruct (current_image s) as [r|] eqn:Hc; [|done].
    unfold deref. destruct (heap s !! r) as [o|] eqn:Ho; [|done].
    intros [= <- <-] [= <-]. by exists r, o.
  - (* batch_load *)
    destruct (falsy_str _); [done|].
    destruct (batch_load host _); [|done]. by intros [= <- <-].
  - (* resize *)
    destruct (_ || _); [done|]. apply Htransform.
  - (* crop *)
    repeat case_match; try done. apply Htransform.
  - (* crop_center *)
    destruct (_ || _); [done|]. apply Htransform.
  - (* reset *)
    destruct (original_image s); [|done].
    destruct (copy_object s _) as [[r s0]|]; [|done].
    intros [= Hr <-]. by apply (Hrespond _ _ _ Hr).
  - (* list_actions *) by intros [= <- <-].
  - (* ping *) by intros [= <- <-].
  - (* other *) done.
Qed.

End DescribedClaim.

Section FormatClaim.
Context {lib : Imaging}.

Lemma transform_format s method msg f s' :
  (forall self, formatless (method self)) ->
  transform s method msg = (Success f, s') ->
  exists i, info f = Some i /\ format i = "Unknown".
Proof.
  intros Hfresh H.
  destruct (transform_success _ _ _ _ _ H) as (self & out & e & _ & Hm & _ & Hf & _).
  injection Hf as ->. eexists. split; [reflexivity|].
  cbn [_get_image_info format]. by rewrite (Hfresh self out Hm).
Qed.

(** X7.  After any transform, and after a reset, the info of the answer
    gives the format as "Unknown": the image a method of [Picture] returns,
    and the copy a reset makes of the original, carry no file format, even
    when the image was loaded from a file that had one. *)
Theorem edits_lose_the_file_format host s a f s' :
  Action.is_transform a = true \/ a = Action.reset ->
  handle_request host s a = (Success f, s') ->
  exists i, info f = Some i /\ format i = "Unknown".
Proof.
  intros [Ha| ->].
  - destruct a; try discriminate Ha; cbn [handle_request];
      try (destruct (_ || _); [done|]);
      repeat (case_match; try done);
      apply transform_format; intros self; cbv beta;
      pose proof (methods_formatless self) as Hall;
      repeat (let H := fresh in destruct Hall as [H Hall]; try apply H);
      try apply Hall.
  - cbn [handle_request]. destruct (original_image s) as [orig|]; [|done].
    unfold copy_object, ebind. destruct (pixels s orig) as [img|]; [|done].
    cbn [alloc]. intros [= Hr <-].
    destruct (respond_inv _ _ _ Hr) as (r & o & e & Hc & Ho & _ & _ & ->).
    simpl in Hc, Ho. injection Hc as <-. rewrite list_lookup_middle in Ho by done.
    injection Ho as <-. eexists. split; reflexivity.
Qed.

End FormatClaim.

Lemma answers_describe_the_current_image_witness :
  exists f s' r o,
    after_grayscale = (Success f, s') /\
    current_image s' = Some r /\ heap s' !! r = Some o /\
    info f = Some (_get_image_info (obj_image o)).
Proof.
  assert (H : exists f s' i, after_grayscale = (Success f, s') /\ info f = Some i).
  { vm_compute. eexists _, _, _. split; reflexivity. }
  destruct H as (f & s' & i & H & Hi).
  destruct (answers_describe_the_current_image (lib:=plain) no_files after_load
              Action.grayscale f s' i H Hi) as (r & o & Hc & Ho & -> & _).
  by exists f, s', r, o.
Defined.

Lemma edits_lose_the_file_format_witness :
  exists f s' i,
    after_grayscale = (Success f, s') /\ info f = Some i /\ format i = "Unknown" /\
    im_format two_pixels = Some "PNG".
Proof.
  assert (H : exists f s', after_grayscale = (Success f, s')).
  { vm_compute. eexists _, _. reflexivity. }
  destruct H as (f & s' & H).
  destruct (edits_lose_the_file_format (lib:=plain) no_files after_load
              Action.grayscale f s' (or_introl eq_refl) H) as (i & Hi & Hf).
  by exists f, s', i.
Defined.

(** ** The payload of get_base64 *)

Section Payload.
Context {lib : Imaging}.

(** X8.  For a decoded current image that fits in 1024 by 1024,
    get_base64 returns, whatever format is asked for, the very payload the
    loads, transforms and resets send as preview: the JPEG encoding at
    quality 75 of the image itself, together with the same info.  For a
    larger image get_base64 encodes the image at its full size, where the
    preview is a reduction. *)
Theorem get_base64_is_the_preview host s r o format :
  current_image s = Some r -> heap s !! r = Some o -> obj_load o = None ->
  handle_request host s (Action.get_base64 format)
    = (match _image_to_base64 (obj_image o) "PNG" 75 with
       | Ok e => Success (mkFields None (Some (_get_image_info (obj_image o)))
                            None (Some e) None None None None None)
       | Raise e => Failure (exc_str e)
       end, s) /\
  (im_width (obj_image o) <= 1024 -> im_height (obj_image o) <= 1024 ->
   shown (obj_image o) = _image_to_base64 (obj_image o) "PNG" 75 /\
   forall msg f e,
     respond s msg = Success f -> preview f = Some e ->
     exists f',
       handle_request host s (Action.get_base64 format) = (Success f', s) /\
       base64 f' = Some e /\ info f' = info f).
Proof.
  intros Hc Ho Hl.
  assert (Hget : handle_request host s (Action.get_base64 format)
    = (match _image_to_base64 (obj_image o) "PNG" 75 with
       | Ok e => Success (mkFields None (Some (_get_image_info (obj_image o)))
                            None (Some e) None None None None None)
       | Raise e => Failure (exc_str e)
       end, s)).
  { cbn [handle_request]. rewrite Hc. unfold deref, ebind, load. rewrite Ho, Hl.
    change (_image_to_base64 (obj_image o) (default "PNG" format) 75)
      with (_image_to_base64 (obj_image o) "PNG" 75).
    by destruct (_image_to_base64 (obj_image o) "PNG" 75). }
  split; [exact Hget|]. intros Hw Hh.
  assert (Hshown : shown (obj_image o) = _image_to_base64 (obj_image o) "PNG" 75).
  { unfold shown, _create_preview, im_width, im_height in *.
    destruct (im_size (obj_image o)) as [w h]. cbn [fst snd] in Hw, Hh.
    replace ((w <=? 1024) && (h <=? 1024)) with true; [done|].
    symmetry. apply andb_true_intro. split; by apply Z.leb_le. }
  split; [exact Hshown|]. intros msg f e Hr Hp.
  rewrite (respond_loadable _ _ r o Hc Ho Hl) in Hr. rewrite Hshown in Hr.
  rewrite Hget. destruct (_image_to_base64 (obj_image o) "PNG" 75) as [e'|]; [|done].
  injection Hr as <-. cbn [preview] in Hp. injection Hp as <-.
  eexists. split; [reflexivity|]. done.
Qed.

End Payload.

Lemma get_base64_is_the_preview_witness :
  exists e,
    shown (lib:=plain) two_pixels = Ok e /\
    fst (handle_request (lib:=plain) no_files after_load (Action.get_base64 (Some "WEBP")))
      = Success (mkFields None (Some (_get_image_info two_pixels)) None (Some e)
                   None None None None None).
Proof.
  destruct (get_base64_is_the_preview (lib:=plain) no_files after_load 0%nat
              (mkObj two_pixels None) (Some "WEBP") eq_refl eq_refl eq_refl) as [Hget Hsmall].
  destruct (Hsmall ltac:(by vm_compute) ltac:(by vm_compute)) as [Hshown _].
  cbn [obj_image] in *.
  destruct (_image_to_base64 (lib:=plain) two_pixels "PNG" 75) as [e|] eqn:He;
    [|by vm_compute in He].
  exists e. split; [exact Hshown|]. by rewrite Hget.
Defined.

(** ** Images without pixels *)

Section EmptyImages.
Context {lib : Imaging}.





End EmptyImages.

Section EmptyCrop.
Context {lib : Imaging}.



End EmptyCrop.


(** ** Flips, negatives and the neutral settings *)

Section Flips.
Context {lib : Imaging}.

Lemma Image_transpose_twice img t :
  Image_transpose (Image_transpose img t) t = Image_copy img.
Proof.
  unfold Image_transpose, Image_copy. cbn [im_mode im_size im_bands]. f_equal.
  rewrite map_map. rewrite <- (map_id (im_bands img)) at 2.
  apply map_ext. intros b. destruct t.
  - rewrite map_map. rewrite <- (map_id b) at 2. apply map_ext. apply rev_involutive.
  - apply rev_involutive.
Qed.

Lemma Image_transpose_commute img :
  Image_transpose (Image_transpose img FLIP_LEFT_RIGHT) FLIP_TOP_BOTTOM
  = Image_transpose (Image_transpose img FLIP_TOP_BOTTOM) FLIP_LEFT_RIGHT.
Proof.
  unfold Image_transpose. cbn [im_mode im_size im_bands]. f_equal.
  rewrite !map_map. apply map_ext. intros b. symmetry. apply map_rev.
Qed.

(** X10.  A flip is its own inverse: flipping twice in the same direction
    gives back the samples of the image, mode and size included, for every
    image; the two flips commute; and through the router, two flip requests
    in the same direction leave as current image a copy of the image the
    session was editing. *)
Theorem flip_twice host1 host2 s img :
  (forall direction, direction = "horizontal" \/ direction = "vertical" ->
     exists once,
       flip (mkPicture (Some img)) direction = Ok once /\
       flip (mkPicture (Some once)) direction = Ok (Image_copy img) /\
       pixel_identical (Image_copy img) img /\
       (Editing s img ->
        exists response1 s1 response2 s2,
          handle_request host1 s (Action.flip (Some direction)) = (response1, s1) /\
          handle_request host2 s1 (Action.flip (Some direction)) = (response2, s2) /\
          image_at s2 (current_image s2) = Some (Image_copy img) /\
          original_image s2 = original_image s)) /\
  (exists h v,
     flip (mkPicture (Some img)) "horizontal" = Ok h /\
     flip (mkPicture (Some img)) "vertical" = Ok v /\
     flip (mkPicture (Some h)) "vertical" = flip (mkPicture (Some v)) "horizontal").
Proof.
  split.
  - intros direction Hd.
    assert (Hflip : exists once,
              flip (mkPicture (Some img)) direction = Ok once /\
              flip (mkPicture (Some once)) direction = Ok (Image_copy img)).
    { destruct Hd as [-> | ->]; eexists; (split; [reflexivity|]);
        unfold flip, _ensure_image, ebind; cbn [image];
        cbv [String.eqb Ascii.eqb Bool.eqb]; by rewrite Image_transpose_twice. }
    destruct Hflip as (once & H1 & H2). exists once.
    split; [done|]. split; [done|]. split; [done|].
    intros Hed. cbn [handle_request default from_option id].
    destruct (transform_ok s img (fun self => flip self direction)
                (fun _ => [txt "翻轉完成 ("; txt direction; txt ")"]) once Hed H1)
      as (response1 & s1 & Ht1 & _ & Hed1 & Ho1).
    destruct (transform_ok s1 once (fun self => flip self direction)
                (fun _ => [txt "翻轉完成 ("; txt direction; txt ")"]) _ Hed1 H2)
      as (response2 & s2 & Ht2 & Hc2 & _ & Ho2).
    exists response1, s1, response2, s2. by rewrite Ho2, Ho1.
  - eexists _, _. split; [reflexivity|]. split; [reflexivity|].
    unfold flip, _ensure_image, ebind. cbn [image].
    cbv [String.eqb Ascii.eqb Bool.eqb]. by rewrite Image_transpose_commute.
Qed.

End Flips.

Lemma flip_twice_witness :
  exists response1 s1 response2 s2,
    handle_request (lib:=plain) no_files after_load (Action.flip (Some "vertical"))
      = (response1, s1) /\
    handle_request (lib:=plain) no_files s1 (Action.flip (Some "vertical"))
      = (response2, s2) /\
    image_at s2 (current_image s2) = Some (Image_copy two_pixels) /\
    original_image s2 = original_image after_load.
Proof.
  destruct (proj1 (flip_twice (lib:=plain) no_files no_files after_load two_pixels)
              "vertical" (or_intror eq_refl)) as (once & _ & _ & _ & H).
  apply H. split; [done|]. exists 0%nat. split; reflexivity.
Defined.

Section Negative.
Context {lib : Imaging}.

Lemma invert_band_twice (b : Band) :
  map_band (fun v => 255 - v) (map_band (fun v => 255 - v) b) = b.
Proof.
  unfold map_band. rewrite map_map. rewrite <- (map_id b) at 2.
  apply map_ext. intros row. rewrite map_map. rewrite <- (map_id row) at 2.
  apply map_ext. intros v. lia.
Qed.

Lemma invert_bands_twice (bands : list Band) :
  map (map_band (fun v => 255 - v)) (map (map_band (fun v => 255 - v)) bands) = bands.
Proof.
  rewrite map_map. rewrite <- (map_id bands) at 2.
  apply map_ext. apply invert_band_twice.
Qed.

(** The negative of an RGB image, and the negative of that. *)
Lemma invert_rgb img :
  im_mode img = RGB ->
  invert (mkPicture (Some img))
    = Ok (mkImage RGB (im_size img) (map (map_band (fun v => 255 - v)) (im_bands img)) None).
Proof.
  intros Hm. unfold invert, _ensure_image, ebind. cbn [image].
  rewrite decide_False by (by rewrite Hm).
  unfold Image_convert. rewrite decide_True by done.
  unfold ImageOps_invert, Image_copy. cbn [im_mode im_size im_bands]. by rewrite Hm.
Qed.

(** X11.  The negative of the negative is the image: on an image without
    an alpha channel invert returns the negative of its RGB conversion, and
    inverting that gives the RGB conversion back; on a colour image with
    alpha, where invert keeps the alpha channel, inverting twice gives back
    every sample of the image. *)
Theorem invert_twice img :
  (im_mode img <> RGBA ->
   exists once,
     invert (mkPicture (Some img)) = Ok once /\
     invert (mkPicture (Some once)) = Ok (Image_convert img RGB)) /\
  (im_mode img = RGBA -> length (im_bands img) = 4%nat ->
   exists once,
     invert (mkPicture (Some img)) = Ok once /\
     invert (mkPicture (Some once)) = Ok (Image_copy img)).
Proof.
  split.
  - intros Hm. unfold invert at 1. unfold _ensure_image, ebind. cbn [image].
    rewrite decide_False by done.
    pose proof (Image_convert_mode img RGB) as Hc.
    unfold ImageOps_invert. rewrite Hc. eexists. split; [reflexivity|].
    rewrite invert_rgb by done. cbn [im_size im_bands].
    rewrite invert_bands_twice. rewrite <- (Image_copy_convert img RGB) at 3.
    unfold Image_copy. by rewrite Hc.
  - intros Hm Hl.
    destruct (im_bands img) as [|r [|g [|b [|a [|]]]]] eqn:Hb; try discriminate Hl.
    assert (Hrun : forall x r g b a, im_mode x = RGBA -> im_bands x = [r; g; b; a] ->
              invert (mkPicture (Some x))
              = Ok (mkImage RGBA (im_size x)
                      [map_band (fun v => 255 - v) r; map_band (fun v => 255 - v) g;
                       map_band (fun v => 255 - v) b; a] None)).
    { intros x r' g' b' a' Hxm Hxb. unfold invert, _ensure_image, ebind. cbn [image].
      rewrite decide_True by done. unfold Image_split. rewrite Hxb.
      cbn [map unpack4]. unfold Image_merge at 1.
      cbn [length nbands Nat.eqb negb forallb im_mode im_size andb].
      rewrite !bool_decide_eq_true_2 by done. cbn [negb andb map nth im_bands].
      unfold ImageOps_invert. cbn [im_mode im_size im_bands map unpack3].
      unfold Image_merge.
      cbn [length nbands Nat.eqb negb forallb im_mode im_size andb].
      rewrite !bool_decide_eq_true_2 by done. by cbn [negb andb map nth im_bands]. }
    eexists. split; [by apply Hrun|].
    rewrite (Hrun (mkImage RGBA (im_size img) _ None) _ _ _ _ eq_refl eq_refl).
    cbn [im_size].
    rewrite !invert_band_twice. unfold Image_copy. by rewrite Hm, Hb.
Qed.

End Negative.

Lemma invert_twice_witness :
  exists once,
    invert (lib:=plain) (mkPicture (Some translucent)) = Ok once /\
    invert (lib:=plain) (mkPicture (Some once)) = Ok (Image_copy translucent).
Proof. exact (proj2 (invert_twice (lib:=plain) translucent) eq_refl eq_refl). Defined.

(** A gain of 1.0 leaves every 8-bit sample as it is. *)
Lemma scaled_by_one v : 0 <= v <= 255 -> scaled Py.one v = v.
Proof.
  intros Hv. apply Z.eqb_eq.
  apply (every_sample (fun v => scaled Py.one v =? v)); [by vm_compute|done].
Qed.

Lemma map_band_wf (f : Z -> Z) w h b :
  wf_band w h b = true -> (forall v, 0 <= v <= 255 -> f v = v) -> map_band f b = b.
Proof.
  unfold wf_band, map_band. intros [_ Hrows]%andb_true_iff Hf.
  rewrite forallb_forall in Hrows.
  rewrite <- (map_id b) at 2. apply map_ext_in. intros row Hrow.
  apply Hrows in Hrow. apply andb_true_iff in Hrow as [_ Hsamples].
  rewrite forallb_forall in Hsamples.
  rewrite <- (map_id row) at 2. apply map_ext_in. intros v Hin.
  apply Hsamples in Hin. apply andb_true_iff in Hin as [?%Z.leb_le ?%Z.leb_le].
  by apply Hf.
Qed.

Section Neutral.
Context {lib : Imaging}.

(** X12.  6500 K is the neutral setting: both gains are exactly 1.0 and
    color_temperature(6500), the default of the request, returns a
    well-formed RGB image with every sample unchanged. *)
Theorem color_temperature_neutral img :
  wf_image img = true -> im_mode img = RGB ->
  temperature_gains 6500 = Ok (Py.one, Py.one) /\
  color_temperature (mkPicture (Some img)) 6500 = Ok (Image_copy img) /\
  pixel_identical (Image_copy img) img.
Proof.
  intros Hwf Hm.
  assert (Hg : temperature_gains 6500 = Ok (Py.one, Py.one)) by (by vm_compute).
  split; [exact Hg|]. split; [|done].
  destruct (wf_rgb_bands img Hwf Hm) as (r & g & b & Hb & Hr & Hgr & Hbl).
  rewrite (color_temperature_rgb img r g b 6500 _ _ Hm Hb Hgr Hg).
  rewrite (map_band_wf _ _ _ r Hr scaled_by_one).
  rewrite (map_band_wf _ _ _ b Hbl scaled_by_one).
  unfold Image_copy. by rewrite Hm, Hb.
Qed.

End Neutral.

Lemma color_temperature_neutral_witness :
  color_temperature (lib:=plain) (mkPicture (Some two_pixels)) 6500
    = Ok (Image_copy two_pixels).
Proof.
  exact (proj1 (proj2 (color_temperature_neutral (lib:=plain) two_pixels eq_refl eq_refl))).
Defined.

Section Sizes.
Context {lib : Imaging}.

Lemma Image_resize_ok img w h r :
  1 <= w -> 1 <= h ->
  exists out, Image_resize img (w, h) r = Ok out /\
    im_size out = (w, h) /\ im_mode out = im_mode img.
Proof.
  intros Hw Hh. unfold Image_resize. cbn [fst snd].
  replace ((w <? 1) || (h <? 1)) with false
    by (symmetry; apply orb_false_iff; split; apply Z.ltb_ge; lia).
  case_bool_decide as Heq; eexists; (split; [reflexivity|]); by rewrite ?Heq.
Qed.

Lemma Image_resize_small img w h r :
  w < 1 \/ h < 1 ->
  Image_resize img (w, h) r = raise ValueError "height and width must be > 0".
Proof.
  intros Hs. unfold Image_resize. cbn [fst snd].
  replace ((w <? 1) || (h <? 1)) with true; [done|].
  symmetry. apply orb_true_iff. destruct Hs; [left|right]; by apply Z.ltb_lt.
Qed.

(** X13.  pixelate on an image of at least one pixel: a block size between
    1 and the shorter side returns an image of the same size and mode; a
    block size of 0 fails with the division by zero; a negative block size,
    or one larger than the width or the height, makes the reduced image
    empty and fails in the resize. *)
Theorem pixelate_bounds img pixel_size :
  1 <= im_width img -> 1 <= im_height img ->
  (1 <= pixel_size <= Z.min (im_width img) (im_height img) ->
     exists out, pixelate (mkPicture (Some img)) pixel_size = Ok out /\
       im_size out = im_size img /\ im_mode out = im_mode img) /\
  (pixel_size = 0 ->
     pixelate (mkPicture (Some img)) pixel_size
       = raise ZeroDivisionError "integer division or modulo by zero") /\
  (pixel_size < 0 \/ im_width img < pixel_size \/ im_height img < pixel_size ->
     pixelate (mkPicture (Some img)) pixel_size
       = raise ValueError "height and width must be > 0").
Proof.
  intros Hw Hh. unfold pixelate, _ensure_image, ebind. cbn [image].
  split; [|split].
  - intros Hp. replace (pixel_size =? 0) with false by (symmetry; apply Z.eqb_neq; lia).
    destruct (Image_resize_ok img (im_width img / pixel_size) (im_height img / pixel_size)
                NEAREST) as (small & -> & Hss & Hsm).
    { apply Z.div_le_lower_bound; lia. }
    { apply Z.div_le_lower_bound; lia. }
    destruct (im_size img) as [w h] eqn:Hsz.
    assert (Hw' : im_width img = w) by (unfold im_width; by rewrite Hsz).
    assert (Hh' : im_height img = h) by (unfold im_height; by rewrite Hsz).
    destruct (Image_resize_ok small w h NEAREST) as (out & -> & Hos & Hom); [lia..|].
    exists out. by rewrite Hom, Hsm.
  - by intros ->.
  - intros Hp.
    destruct (decide (pixel_size = 0)) as [->|Hnz]; [lia|].
    replace (pixel_size =? 0) with false by (symmetry; by apply Z.eqb_neq).
    rewrite Image_resize_small; [done|].
    destruct Hp as [Hneg|[Hwide|Hhigh]].
    + left. assert (im_width img / pixel_size < 0); [|lia].
      rewrite <- (Z.div_opp_opp (im_width img) pixel_size) by lia.
      apply Z.div_lt_upper_bound; lia.
    + left. rewrite Z.div_small by lia. lia.
    + right. rewrite Z.div_small by lia. lia.
Qed.

End Sizes.

Lemma pixelate_bounds_witness :
  (exists out, pixelate (lib:=plain) (mkPicture (Some four_by_four)) 2 = Ok out /\
     im_size out = (4, 4) /\ im_mode out = RGB) /\
  pixelate (lib:=plain) (mkPicture (Some four_by_four)) 5
    = raise ValueError "height and width must be > 0".
Proof.
  destruct (pixelate_bounds (lib:=plain) four_by_four 2 ltac:(by vm_compute)
              ltac:(by vm_compute)) as (Hok & _ & _).
  destruct (pixelate_bounds (lib:=plain) four_by_four 5 ltac:(by vm_compute)
              ltac:(by vm_compute)) as (_ & _ & Hbig).
  split; [apply Hok; by vm_compute|apply Hbig; right; left; by vm_compute].
Defined.

Section ResizeExact.
Context {lib : Imaging}.

(** X14.  A resize request that does not keep the aspect ratio, while an
    image of at least one pixel is being edited: with a width and a height
    of at least 1 the transforms go on from an image of exactly that size,
    in the mode of the source; with a negative width or height the request
    fails in the library and the session is as it was.  (A width or height
    of 0 counts as a missing parameter.) *)
Theorem resize_to_exact_size host s img w h :
  Editing s img -> 1 <= im_width img -> 1 <= im_height img ->
  (1 <= w -> 1 <= h ->
     exists out response s',
       handle_request host s (Action.resize (Some w) (Some h) None) = (response, s') /\
       Editing s' out /\ image_at s' (current_image s') = Some out /\
       im_size out = (w, h) /\ im_mode out = im_mode img) /\
  (w < 0 \/ h < 0 -> w <> 0 -> h <> 0 ->
     handle_request host s (Action.resize (Some w) (Some h) None)
       = (Failure "height and width must be > 0", s)) /\
  (w = 0 \/ h = 0 ->
     handle_request host s (Action.resize (Some w) (Some h) None)
       = (Failure "缺少 width 或 height 參數", s)).
Proof.
  intros Hed Hiw Hih. split; [|split].
  - intros Hw Hh. cbn [handle_request falsy_int default from_option id].
    replace ((w =? 0) || (h =? 0)) with false
      by (symmetry; apply orb_false_iff; split; apply Z.eqb_neq; lia).
    destruct (Image_resize_ok img w h LANCZOS Hw Hh) as (out & Hout & Hs & Hm).
    destruct (transform_ok s img (fun self => resize self (w, h) false)
                (fun img => [txt "調整尺寸完成: "; size_val (im_size img)]) out Hed)
      as (response & s' & Ht & Hc & Hed' & _).
    { unfold resize, _ensure_image, ebind. by cbn [image]. }
    by exists out, response, s'.
  - intros Hneg Hw Hh. cbn [handle_request falsy_int default from_option id].
    replace ((w =? 0) || (h =? 0)) with false
      by (symmetry; apply orb_false_iff; split; by apply Z.eqb_neq).
    apply (transform_raise s img _ _ (mkExc ValueError "height and width must be > 0") Hed).
    unfold resize, _ensure_image, ebind. cbn [image].
    apply Image_resize_small. lia.
  - intros Hz. cbn [handle_request falsy_int].
    replace ((w =? 0) || (h =? 0)) with true; [done|].
    symmetry. apply orb_true_iff. destruct Hz; [left|right]; by apply Z.eqb_eq.
Qed.

End ResizeExact.

Lemma resize_to_exact_size_witness :
  exists out response s',
    handle_request (lib:=plain) no_files editing_four
        (Action.resize (Some 3) (Some 5) None) = (response, s') /\
    Editing s' out /\ image_at s' (current_image s') = Some out /\
    im_size out = (3, 5) /\ im_mode out = im_mode four_by_four.
Proof.
  apply (resize_to_exact_size (lib:=plain) no_files editing_four four_by_four 3 5).
  - split; [done|]. exists 0%nat. split; reflexivity.
  - by vm_compute.
  - by vm_compute.
  - lia.
  - lia.
Defined.

Lemma through_unit_exact v : 0 <= v <= 255 -> through_unit v = v.
Proof.
  intros Hv.
  assert (Hall : forallb (fun k => through_unit (Z.of_nat k) =? Z.of_nat k) (seq 0 256) = true)
    by (vm_compute; reflexivity).
  rewrite forallb_forall in Hall.
  specialize (Hall (Z.to_nat v)). rewrite Z2Nat.id in Hall by lia.
  apply Z.eqb_eq, Hall, in_seq. lia.
Qed.

Lemma map3_diagonal {A B} (f : A -> A -> A -> B) (l : list A) :
  map3 f l l l = map (fun x => f x x x) l.
Proof. induction l as [|x l IH]; [done|]. cbn [map3 map]. by rewrite IH. Qed.

Lemma band_map3_diagonal {A B} (f : A -> A -> A -> B) (b : list (list A)) :
  band_map3 f b b b = map_band (fun x => f x x x) b.
Proof.
  unfold band_map3, map_band. rewrite map3_diagonal.
  apply map_ext. intros row. apply map3_diagonal.
Qed.

Section Gray.
Context {lib : Imaging}.

(** X15.  hue_shift leaves a gray image as it is, whatever the angle: for
    a well-formed image of mode L, where the colour conversion has no
    saturation to turn and hands each pixel back (the hypothesis on
    [hsv_rotate]), the result is the RGB conversion of the image, every
    sample unchanged.  Scaling a sample to
    the unit interval and back in single precision, with the truncation at
    the end, is exact on each of the 256 values. *)
Theorem hue_shift_keeps_gray img degrees :
  wf_image img = true -> im_mode img = L ->
  (forall x, 0 <= x <= 255 ->
     let v := unit_sample x in hsv_rotate degrees (v, v, v) = (v, v, v)) ->
  exists out,
    hue_shift (mkPicture (Some img)) degrees = Ok out /\
    pixel_identical out (Image_convert img RGB).
Proof.
  intros Hwf Hm Hgray.
  unfold hue_shift, _ensure_image. cbn [image ebind].
  eexists. split; [reflexivity|].
  unfold Image_convert. rewrite decide_False by (by rewrite Hm). rewrite Hm.
  cbn [im_bands im_size nth Image_fromarray].
  split; [done|]. split; [done|]. cbn [im_bands].
  set (b := nth 0 (im_bands img) []).
  rewrite band_map3_diagonal.
  assert (Hpix : forall v, In v (concat b) ->
            hue_pixel degrees v v v = (v, v, v)).
  { intros v Hv.
    assert (Hr : 0 <= v <= 255).
    { unfold wf_image in Hwf. apply andb_prop in Hwf as [Hwf Hbands].
      apply andb_prop in Hwf as [_ Hlen]. rewrite Hm in Hlen.
      destruct (im_bands img) as [|b0 [|? ?]] eqn:Hb; try discriminate Hlen.
      subst b. cbn [nth] in Hv. cbn [forallb] in Hbands.
      apply andb_prop in Hbands as [Hb0 _]. unfold wf_band in Hb0.
      apply andb_prop in Hb0 as [_ Hrows]. rewrite forallb_forall in Hrows.
      apply in_concat in Hv as (row & Hrow & Hv).
      specialize (Hrows row Hrow). apply andb_prop in Hrows as [_ Hs].
      rewrite forallb_forall in Hs. specialize (Hs v Hv). lia. }
    pose proof (through_unit_exact v Hr) as He. unfold through_unit in He.
    specialize (Hgray v Hr). cbv zeta in Hgray. unfold unit_sample in *.
    unfold hue_pixel. rewrite Hgray. by rewrite He. }
  assert (Hproj : forall (p : Z * Z * Z -> Z),
            (forall v, p (v, v, v) = v) ->
            map_band p (map_band (fun x => hue_pixel degrees x x x) b) = b).
  { intros p Hp. unfold map_band. rewrite map_map.
    rewrite <- (map_id b) at 2. apply map_ext_in. intros row Hrow.
    rewrite map_map. rewrite <- (map_id row) at 2. apply map_ext_in. intros v Hv.
    rewrite Hpix; [apply Hp|]. apply in_concat. by exists row. }
  rewrite !Hproj by done. reflexivity.
Qed.

End Gray.

Lemma hue_shift_keeps_gray_witness :
  exists out,
    hue_shift (lib:=plain) (mkPicture (Some gray_ramp)) (Py.of_int 90) = Ok out /\
    pixel_identical out (Image_convert (lib:=plain) gray_ramp RGB).
Proof.
  apply (hue_shift_keeps_gray (lib:=plain) gray_ramp (Py.of_int 90)); [reflexivity..|].
  intros x _. reflexivity.
Defined.

(** ** Crops *)

Lemma zrange_shift d start len :
  zrange (d + start) len = map (Z.add d) (zrange start len).
Proof.
  unfold zrange. rewrite map_map. apply map_ext. intros i. lia.
Qed.

Lemma zrange_bounds start len x : In x (zrange start len) -> start <= x < start + len.
Proof.
  unfold zrange. intros (i & <- & Hi%in_seq)%in_map_iff. lia.
Qed.

(** Cutting a box out of a cut: the same as cutting once, with the offsets
    added, as long as the second box lies inside the first cut. *)
Lemma crop_band_twice b x0 y0 x1 y1 a0 b0 a1 b1 :
  0 <= a0 -> a1 <= x1 - x0 -> 0 <= b0 -> b1 <= y1 - y0 ->
  crop_band (crop_band b x0 y0 x1 y1) a0 b0 a1 b1
  = crop_band b (x0 + a0) (y0 + b0) (x0 + a1) (y0 + b1).
Proof.
  intros Ha0 Ha1 Hb0 Hb1. unfold crop_band at 1 3.
  replace (y0 + b1 - (y0 + b0)) with (b1 - b0) by lia.
  replace (x0 + a1 - (x0 + a0)) with (a1 - a0) by lia.
  rewrite (zrange_shift y0 b0), (zrange_shift x0 a0), map_map.
  apply map_ext_in. intros y Hy%zrange_bounds.
  rewrite map_map. apply map_ext_in. intros x Hx%zrange_bounds.
  apply crop_band_sample; lia.
Qed.

(** The band of a well-formed image, row by row and sample by sample. *)
Lemma crop_band_whole w h b :
  wf_band w h b = true -> crop_band b 0 0 w h = b.
Proof.
  unfold wf_band. intros [Hh%Z.eqb_eq Hrows]%andb_true_iff.
  rewrite forallb_forall in Hrows.
  unfold crop_band. rewrite !Z.sub_0_r.
  apply list_eq. intros i. rewrite list_lookup_fmap.
  destruct (decide (i < length b)%nat) as [Hi|Hi].
  - rewrite zrange_lookup by lia. cbn [fmap option_fmap option_map Z.add].
    destruct (lookup_lt_is_Some_2 b i Hi) as [row Hrow]. rewrite Hrow. f_equal.
    assert (Hw : Z.of_nat (length row) = w).
    { apply list_elem_of_lookup_2, list_elem_of_In, Hrows in Hrow.
      by apply andb_true_iff in Hrow as [?%Z.eqb_eq _]. }
    apply list_eq. intros j. rewrite list_lookup_fmap.
    destruct (decide (j < length row)%nat) as [Hj|Hj].
    + rewrite zrange_lookup by lia. cbn [fmap option_fmap option_map Z.add].
      destruct (lookup_lt_is_Some_2 row j Hj) as [v Hv]. rewrite Hv. f_equal.
      unfold sample_at.
      rewrite !Z.add_0_l.
      replace ((0 <=? Z.of_nat j) && (0 <=? Z.of_nat i)) with true
        by (symmetry; apply andb_true_intro; split; apply Z.leb_le; lia).
      rewrite !Nat2Z.id.
      rewrite (nth_lookup_Some _ _ _ row Hrow). by apply nth_lookup_Some.
    + rewrite lookup_ge_None_2 by (rewrite zrange_length; lia).
      symmetry. apply lookup_ge_None_2. lia.
  - rewrite lookup_ge_None_2 by (rewrite zrange_length; lia).
    symmetry. apply lookup_ge_None_2. lia.
Qed.

(** X16.  Crops compose: cutting the box [(a0, b0, a1, b1)] out of the
    result of cutting [(x0, y0, x1, y1)] gives the image that one crop with
    the offsets added gives, whenever the second box lies inside the first
    result. *)
Theorem crops_compose img x0 y0 x1 y1 a0 b0 a1 b1 :
  x0 <= x1 -> y0 <= y1 ->
  0 <= a0 <= a1 -> a1 <= x1 - x0 -> 0 <= b0 <= b1 -> b1 <= y1 - y0 ->
  exists first,
    crop (mkPicture (Some img)) (x0, y0, x1, y1) = Ok first /\
    im_size first = (x1 - x0, y1 - y0) /\
    crop (mkPicture (Some first)) (a0, b0, a1, b1)
      = crop (mkPicture (Some img)) (x0 + a0, y0 + b0, x0 + a1, y0 + b1).
Proof.
  intros Hx Hy Ha Ha1 Hb Hb1.
  unfold crop, _ensure_image, ebind, Image_crop. cbn [image].
  replace (x1 <? x0) with false by (symmetry; apply Z.ltb_ge; lia).
  replace (y1 <? y0) with false by (symmetry; apply Z.ltb_ge; lia).
  eexists. split; [reflexivity|]. split; [done|].
  replace (a1 <? a0) with false by (symmetry; apply Z.ltb_ge; lia).
  replace (b1 <? b0) with false by (symmetry; apply Z.ltb_ge; lia).
  replace (x0 + a1 <? x0 + a0) with false by (symmetry; apply Z.ltb_ge; lia).
  replace (y0 + b1 <? y0 + b0) with false by (symmetry; apply Z.ltb_ge; lia).
  cbn [im_mode im_bands]. f_equal. f_equal.
  - f_equal; lia.
  - rewrite map_map. apply map_ext. intros b. apply crop_band_twice; lia.
Qed.

(** X17.  Cropping a well-formed image to its full frame, or centre
    cropping it to its own size, returns the image sample for sample. *)
Theorem full_frame_crop img :
  wf_image img = true ->
  crop (mkPicture (Some img)) (0, 0, im_width img, im_height img) = Ok (Image_copy img) /\
  crop_center (mkPicture (Some img)) (im_width img) (im_height img) = Ok (Image_copy img) /\
  pixel_identical (Image_copy img) img.
Proof.
  intros Hwf.
  assert (Hcrop : crop (mkPicture (Some img)) (0, 0, im_width img, im_height img)
                  = Ok (Image_copy img)).
  { pose proof Hwf as Hwf'. unfold wf_image in Hwf'.
    apply andb_true_iff in Hwf' as [[[Hw%Z.leb_le Hh%Z.leb_le]%andb_true_iff _]%andb_true_iff
                                      Hbands].
    rewrite forallb_forall in Hbands.
    unfold crop, _ensure_image, ebind, Image_crop. cbn [image].
    replace (im_width img <? 0) with false by (symmetry; apply Z.ltb_ge; lia).
    replace (im_height img <? 0) with false by (symmetry; apply Z.ltb_ge; lia).
    unfold Image_copy. f_equal. f_equal.
    - rewrite !Z.sub_0_r. unfold im_width, im_height. by destruct (im_size img).
    - rewrite <- (map_id (im_bands img)) at 2. apply map_ext_in. intros b Hb.
      apply (crop_band_whole (im_width img) (im_height img)). by apply Hbands. }
  split; [exact Hcrop|]. split; [|done].
  unfold crop_center, _ensure_image. cbn [image ebind].
  destruct (im_size img) as [w h] eqn:Hs.
  assert (Hw : im_width img = w) by (unfold im_width; by rewrite Hs).
  assert (Hh : im_height img = h) by (unfold im_height; by rewrite Hs).
  rewrite Hw, Hh in *. rewrite !Z.sub_diag. cbn [Z.div Z.add]. exact Hcrop.
Qed.

Lemma crops_compose_witness :
  exists first,
    crop (mkPicture (Some four_by_four)) (1, 0, 4, 3) = Ok first /\
    im_size first = (3, 3) /\
    crop (mkPicture (Some first)) (1, 1, 3, 2)
      = crop (mkPicture (Some four_by_four)) (2, 1, 4, 2).
Proof.
  apply (crops_compose four_by_four 1 0 4 3 1 1 3 2); lia.
Defined.

Lemma full_frame_crop_witness :
  crop (mkPicture (Some two_pixels)) (0, 0, 2, 1) = Ok (Image_copy two_pixels).
Proof. exact (proj1 (full_frame_crop two_pixels eq_refl)). Defined.

(** ** Sizes *)

Lemma sized_bind {A} sz (m : Exc A) (k : A -> Exc Image) :
  (forall a, m = Ok a -> sized sz (k a)) -> sized sz (ebind m k).
Proof. intros H out. destruct m as [a|e]; [by apply H|done]. Qed.

Lemma sized_ok sz img : im_size img = sz -> sized sz (Ok img).
Proof. by intros H out [= <-]. Qed.

Lemma sized_raise sz e : sized sz (Raise e).
Proof. by intros out. Qed.

Section SizeFacts.
Context {lib : Imaging}.

Lemma call_sized r args m sz : sized sz (call r args m sz).
Proof. unfold call. destruct (lib_raises _ _); [apply sized_raise|by apply sized_ok]. Qed.

Lemma Image_merge_sized m first rest : sized (im_size first) (Image_merge m (first :: rest)).
Proof.
  unfold Image_merge. repeat case_match; (apply sized_raise || by apply sized_ok).
Qed.

Lemma Image_resize_sized img sz r : sized sz (Image_resize img sz r).
Proof.
  unfold Image_resize. repeat case_match; try apply sized_raise; apply sized_ok; [|done].
  by case_bool_decide.
Qed.

Lemma Image_filter_sized img f : sized (im_size img) (Image_filter img f).
Proof. unfold Image_filter. case_match; (apply sized_raise || by apply sized_ok). Qed.

Lemma ImageOps_lut_sized r img : sized (im_size img) (ImageOps_lut r img).
Proof. unfold ImageOps_lut. case_match; (apply sized_raise || by apply sized_ok). Qed.

Lemma ImageOps_invert_sized img : sized (im_size img) (ImageOps_invert img).
Proof. unfold ImageOps_invert. case_match; (apply sized_raise || by apply sized_ok). Qed.

Lemma ImageOps_equalize_sized img : sized (im_size img) (ImageOps_equalize img).
Proof.
  unfold ImageOps_equalize. intros out H. apply ImageOps_lut_sized in H.
  rewrite H. case_decide; [apply Image_convert_size|done].
Qed.

Lemma unpack2_sized img a b :
  unpack2 (Image_split img) = Ok (a, b) -> im_size a = im_size img /\ im_size b = im_size img.
Proof.
  unfold unpack2, Image_split. destruct (im_bands img) as [|x [|y [|]]]; try done.
  by intros [= <- <-].
Qed.

Lemma unpack3_sized img a b c :
  unpack3 (Image_split img) = Ok (a, b, c) ->
  im_size a = im_size img /\ im_size b = im_size img /\ im_size c = im_size img.
Proof.
  unfold unpack3, Image_split. destruct (im_bands img) as [|x [|y [|z [|]]]]; try done.
  by intros [= <- <- <-].
Qed.

Lemma unpack4_sized img a b c d :
  unpack4 (Image_split img) = Ok (a, b, c, d) ->
  im_size a = im_size img /\ im_size d = im_size img.
Proof.
  unfold unpack4, Image_split.
  destruct (im_bands img) as [|x [|y [|z [|w [|]]]]]; try done.
  by intros [= <- <- <- <-].
Qed.

Lemma equalize_rgb_sized img : sized (im_size img) (equalize_rgb img).
Proof.
  unfold equalize_rgb. apply sized_bind. intros [[y cb] cr] Hy.
  apply unpack3_sized in Hy as (Hy & _ & _). rewrite Image_convert_size in Hy.
  apply sized_bind. intros y_eq Heq. apply ImageOps_equalize_sized in Heq.
  apply sized_bind. intros merged Hmerged. apply Image_merge_sized in Hmerged.
  apply sized_ok. rewrite Image_convert_size. congruence.
Qed.

End SizeFacts.

Ltac sized_step :=
  lazymatch goal with
  | |- sized _ (Ok _) =>
      apply sized_ok; cbn [im_size Image_fromarray Image_transpose Image_composite
                           Image_paste lib_image Image_new Image_copy];
      rewrite ?Image_convert_size; try done
  | |- sized _ (Raise _) => apply sized_raise
  | |- sized _ (raise _ _) => apply sized_raise
  | |- sized _ (call _ _ _ _) =>
      let out := fresh "out" in let H := fresh "H" in
      intros out H; apply call_sized in H;
      rewrite ?Image_convert_size in H; congruence
  | |- sized _ (Image_filter _ _) =>
      first [apply Image_filter_sized
            | let out := fresh "out" in let H := fresh "H" in
              intros out H; apply Image_filter_sized in H; congruence]
  | |- sized _ (ImageOps_lut _ _) =>
      let out := fresh "out" in let H := fresh "H" in
      intros out H; apply ImageOps_lut_sized in H;
      rewrite ?Image_convert_size in H; congruence
  | |- sized _ (ImageOps_invert _) =>
      let out := fresh "out" in let H := fresh "H" in
      intros out H; apply ImageOps_invert_sized in H;
      rewrite ?Image_convert_size in H; congruence
  | |- sized _ (ImageOps_equalize _) =>
      let out := fresh "out" in let H := fresh "H" in
      intros out H; apply ImageOps_equalize_sized in H; congruence
  | |- sized _ (equalize_rgb _) =>
      let out := fresh "out" in let H := fresh "H" in
      intros out H; apply equalize_rgb_sized in H;
      rewrite ?Image_convert_size in H; congruence
  | |- sized _ (Image_merge _ (_ :: _)) =>
      let out := fresh "out" in let H := fresh "H" in
      intros out H; apply Image_merge_sized in H; congruence
  | |- sized _ (Image_resize _ _ _) => apply Image_resize_sized
  | |- sized _ (ebind (unpack4 (Image_split _)) _) =>
      apply sized_bind; intros [[[? ?] ?] ?] [? ?]%unpack4_sized
  | |- sized _ (ebind (unpack3 (Image_split _)) _) =>
      apply sized_bind; intros [[? ?] ?] (? & ? & ?)%unpack3_sized
  | |- sized _ (ebind (unpack2 (Image_split _)) _) =>
      apply sized_bind; intros [? ?] [? ?]%unpack2_sized
  | |- sized _ (ebind (Image_merge _ (_ :: _)) _) =>
      apply sized_bind; intros ? ?%Image_merge_sized
  | |- sized _ (ebind (ImageOps_lut _ _) _) =>
      apply sized_bind; intros ? ?%ImageOps_lut_sized
  | |- sized _ (ebind (ImageOps_invert _) _) =>
      apply sized_bind; intros ? ?%ImageOps_invert_sized
  | |- sized _ (ebind (ImageOps_equalize _) _) =>
      apply sized_bind; intros ? ?%ImageOps_equalize_sized
  | |- sized _ (ebind (equalize_rgb _) _) =>
      apply sized_bind; intros ? ?%equalize_rgb_sized
  | |- sized _ (ebind (Image_filter _ _) _) =>
      apply sized_bind; intros ? ?%Image_filter_sized
  | |- sized _ (ebind _ _) => apply sized_bind; intros ? ?
  | |- sized _ (if ?c then _ else _) => destruct c
  | |- sized _ (match ?x with _ => _ end) => destruct x eqn:?
  end.

Section SizeClaim.
Context {lib : Imaging}.

(** X18.  Nineteen of the transforms never change the dimensions of the
    image: whenever grayscale, art_effect, white_balance, brightness,
    contrast, saturation, sharpen, blur, flip, invert, sepia, edge_detect,
    emboss, pixelate, vignette, hue_shift, auto_contrast, equalize or
    color_temperature returns an image, it has the width and the height of
    its input, whatever the parameters and the mode. *)
Theorem transforms_keep_the_size img :
  let self := mkPicture (Some img) in
  let same := sized (im_size img) in
  same (grayscale self) /\
  (forall effect_type, same (art_effect self effect_type)) /\
  (forall method, same (white_balance self method)) /\
  (forall factor, same (brightness self factor)) /\
  (forall factor, same (contrast self factor)) /\
  (forall factor, same (saturation self factor)) /\
  (forall factor, same (sharpen self factor)) /\
  (forall radius blur_type, same (blur self radius blur_type)) /\
  (forall direction, same (flip self direction)) /\
  same (invert self) /\
  (forall intensity, same (sepia self intensity)) /\
  (forall method, same (edge_detect self method)) /\
  same (emboss self) /\
  (forall pixel_size, same (pixelate self pixel_size)) /\
  (forall strength, same (vignette self strength)) /\
  (forall degrees, same (hue_shift self degrees)) /\
  (forall cutoff, same (auto_contrast self cutoff)) /\
  same (equalize self) /\
  (forall temperature, same (color_temperature self temperature)).
Proof.
  cbv zeta. repeat apply conj; intros.
  - unfold grayscale, _ensure_image, ebind. cbn [image]. repeat sized_step.
  - unfold art_effect, _ensure_image. cbn [image ebind].
    unfold ImageOps_posterize, Image_blend. repeat sized_step.
  - unfold white_balance, _ensure_image. cbn [image ebind]. repeat sized_step.
  - unfold brightness, ImageEnhance_enhance, _ensure_image. cbn [image ebind].
    repeat sized_step.
  - unfold contrast, ImageEnhance_enhance, _ensure_image. cbn [image ebind].
    repeat sized_step.
  - unfold saturation, ImageEnhance_enhance, _ensure_image. cbn [image ebind].
    repeat sized_step.
  - unfold sharpen, ImageEnhance_enhance, _ensure_image. cbn [image ebind].
    repeat sized_step.
  - unfold blur, _ensure_image. cbn [image ebind]. repeat sized_step.
  - unfold flip, _ensure_image. cbn [image ebind]. repeat sized_step.
  - unfold invert, _ensure_image. cbn [image ebind]. repeat sized_step.
  - unfold sepia, _ensure_image. cbn [image ebind]. repeat sized_step.
  - unfold edge_detect, _ensure_image. cbn [image ebind]. repeat sized_step.
  - unfold emboss, _ensure_image. cbn [image ebind]. repeat sized_step.
  - unfold pixelate, _ensure_image. cbn [image ebind]. repeat sized_step.
  - unfold vignette, _ensure_image. cbn [image ebind].
    destruct (im_size (Image_convert img RGB)) as [w h] eqn:Hs.
    rewrite Image_convert_size in Hs. repeat sized_step.
  - unfold hue_shift, _ensure_image. cbn [image ebind]. repeat sized_step.
  - unfold auto_contrast, ImageOps_autocontrast, _ensure_image. cbn [image ebind].
    repeat sized_step.
  - unfold equalize, _ensure_image. cbn [image ebind]. repeat sized_step.
  - unfold color_temperature, _ensure_image. cbn [image ebind]. repeat sized_step.
Qed.

End SizeClaim.

Section Resizing.
Context {lib : Imaging}.

(** X19.  The sizes the other transforms give, whenever they return an
    image: a resize that does not keep the aspect ratio gives exactly the
    size asked for; a crop the width and the height of its box; a centre
    crop the width and the height asked for; add_border adds twice the
    border to each dimension; and a rotation that does not expand the
    canvas keeps the size of its input. *)
Theorem resizing_transforms_sizes img :
  let self := mkPicture (Some img) in
  (forall new_size, sized new_size (resize self new_size false)) /\
  (forall x0 y0 x1 y1, sized (x1 - x0, y1 - y0) (crop self (x0, y0, x1, y1))) /\
  (forall w h, sized (w, h) (crop_center self w h)) /\
  (forall border_width color,
     sized (im_width img + 2 * border_width, im_height img + 2 * border_width)
       (add_border self border_width color)) /\
  (forall angle fill_color, sized (im_size img) (rotate self angle false fill_color)).
Proof.
  cbv zeta.
  assert (Hcrop : forall x0 y0 x1 y1,
            sized (x1 - x0, y1 - y0) (crop (mkPicture (Some img)) (x0, y0, x1, y1))).
  { intros x0 y0 x1 y1. unfold crop, _ensure_image, Image_crop. cbn [image ebind].
    repeat case_match; (apply sized_raise || by apply sized_ok). }
  repeat apply conj.
  - intros new_size. unfold resize, _ensure_image. cbn [image ebind].
    apply Image_resize_sized.
  - exact Hcrop.
  - intros w h. unfold crop_center, _ensure_image. cbn [image ebind].
    destruct (im_size img) as [iw ih]. intros out Hout.
    apply Hcrop in Hout. rewrite Hout. f_equal; lia.
  - intros border_width color. unfold add_border, ImageOps_expand, _ensure_image.
    cbn [image ebind]. apply call_sized.
  - intros angle fill_color. unfold rotate, Image_rotate, _ensure_image.
    cbn [image ebind]. apply call_sized.
Qed.

End Resizing.

(** ** Modes *)

Lemma moded_bind {A} m (x : Exc A) (k : A -> Exc Image) :
  (forall a, moded m (k a)) -> moded m (ebind x k).
Proof. intros H out. destruct x as [a|e]; [by apply H|done]. Qed.

Lemma moded_ok m img : im_mode img = m -> moded m (Ok img).
Proof. by intros H out [= <-]. Qed.

Lemma moded_raise m e : moded m (Raise e).
Proof. by intros out. Qed.

Lemma moded_bind_with m0 m (x : Exc Image) (k : Image -> Exc Image) :
  moded m0 x -> (forall a, im_mode a = m0 -> moded m (k a)) -> moded m (ebind x k).
Proof. intros Hx H out. destruct x as [a|e] eqn:E; [|done]. apply H. by apply Hx. Qed.

Section ModeFacts.
Context {lib : Imaging}.

Lemma call_moded r args m sz : moded m (call r args m sz).
Proof. unfold call. destruct (lib_raises _ _); [apply moded_raise|by apply moded_ok]. Qed.

Lemma Image_merge_moded m parts : moded m (Image_merge m parts).
Proof.
  unfold Image_merge. repeat case_match; (apply moded_raise || by apply moded_ok).
Qed.

Lemma Image_resize_moded img sz r : moded (im_mode img) (Image_resize img sz r).
Proof.
  unfold Image_resize. repeat case_match; (apply moded_raise || by apply moded_ok).
Qed.

Lemma Image_crop_moded img box : moded (im_mode img) (Image_crop img box).
Proof.
  unfold Image_crop. destruct box as [[[x0 y0] x1] y1].
  repeat case_match; (apply moded_raise || by apply moded_ok).
Qed.

Lemma Image_filter_moded img f : moded (im_mode img) (Image_filter img f).
Proof. unfold Image_filter. case_match; (apply moded_raise || by apply moded_ok). Qed.

Lemma ImageOps_lut_moded r img : moded (im_mode img) (ImageOps_lut r img).
Proof. unfold ImageOps_lut. case_match; (apply moded_raise || by apply moded_ok). Qed.

Lemma ImageOps_invert_moded img : moded (im_mode img) (ImageOps_invert img).
Proof. unfold ImageOps_invert. case_match; (apply moded_raise || by apply moded_ok). Qed.

Lemma equalize_rgb_moded img : moded RGB (equalize_rgb img).
Proof.
  unfold equalize_rgb. apply moded_bind. intros [[y cb] cr].
  do 2 (apply moded_bind; intros ?). apply moded_ok. apply Image_convert_mode.
Qed.

End ModeFacts.

Ltac moded_step :=
  lazymatch goal with
  | |- moded _ (Ok _) =>
      apply moded_ok; cbn [im_mode Image_fromarray Image_transpose Image_composite
                           Image_paste lib_image Image_new Image_copy];
      rewrite ?Image_convert_mode; try done
  | |- moded _ (Raise _) => apply moded_raise
  | |- moded _ (raise _ _) => apply moded_raise
  | |- moded _ (call _ _ _ _) =>
      first [apply call_moded
            | let out := fresh "out" in let H := fresh "H" in
              intros out H; apply call_moded in H;
              rewrite ?Image_convert_mode in H; congruence]
  | |- moded _ (Image_merge _ _) => apply Image_merge_moded
  | |- moded _ (equalize_rgb _) => apply equalize_rgb_moded
  | |- moded _ (Image_crop _ _) => apply Image_crop_moded
  | |- moded _ (Image_resize _ _ _) =>
      let out := fresh "out" in let H := fresh "H" in
      intros out H; apply Image_resize_moded in H; congruence
  | |- moded _ (Image_filter _ _) =>
      let out := fresh "out" in let H := fresh "H" in
      intros out H; apply Image_filter_moded in H;
      rewrite ?Image_convert_mode in H; congruence
  | |- moded _ (ImageOps_lut _ _) =>
      let out := fresh "out" in let H := fresh "H" in
      intros out H; apply ImageOps_lut_moded in H;
      rewrite ?Image_convert_mode in H; congruence
  | |- moded _ (ImageOps_invert _) =>
      let out := fresh "out" in let H := fresh "H" in
      intros out H; apply ImageOps_invert_moded in H;
      rewrite ?Image_convert_mode in H; congruence
  | |- moded _ (ebind (Image_resize _ _ _) _) =>
      eapply moded_bind_with; [apply Image_resize_moded|]; intros ? ?
  | |- moded _ (ebind (Image_filter _ _) _) =>
      eapply moded_bind_with; [apply Image_filter_moded|]; intros ? ?
  | |- moded _ (ebind _ _) => apply moded_bind; intros ?
  | |- moded _ (if ?c then _ else _) => destruct c eqn:?; try congruence
  | |- moded _ (match ?x with _ => _ end) => destruct x eqn:?
  end.

Section ModeClaim.
Context {lib : Imaging}.

(** X20.  The mode of what each transform returns.  thumbnail, resize,
    rotate, crop, crop_center, brightness, contrast, saturation, sharpen,
    blur, flip, edge_detect, emboss, pixelate, add_border and auto_contrast
    return an image in the mode of their input; grayscale returns L;
    white_balance, sepia, vignette, hue_shift and color_temperature return
    RGB; invert returns RGBA on RGBA and RGB otherwise; equalize returns
    RGBA, L and LA on these modes and RGB on every other, palette images
    included; art_effect returns RGB for poster and cartoon, L for sketch
    and the mode of its input for oil_paint. *)
Theorem transforms_result_modes img :
  let self := mkPicture (Some img) in
  let keeps := moded (im_mode img) in
  ((forall max_size, keeps (thumbnail self max_size)) /\
   (forall new_size keep_aspect, keeps (resize self new_size keep_aspect)) /\
   (forall angle expand fill_color, keeps (rotate self angle expand fill_color)) /\
   (forall box, keeps (crop self box)) /\
   (forall w h, keeps (crop_center self w h)) /\
   (forall factor, keeps (brightness self factor)) /\
   (forall factor, keeps (contrast self factor)) /\
   (forall factor, keeps (saturation self factor)) /\
   (forall factor, keeps (sharpen self factor)) /\
   (forall radius blur_type, keeps (blur self radius blur_type)) /\
   (forall direction, keeps (flip self direction)) /\
   (forall method, keeps (edge_detect self method)) /\
   keeps (emboss self) /\
   (forall pixel_size, keeps (pixelate self pixel_size)) /\
   (forall border_width color, keeps (add_border self border_width color)) /\
   (forall cutoff, keeps (auto_contrast self cutoff))) /\
  (moded L (grayscale self) /\
   (forall method, moded RGB (white_balance self method)) /\
   (forall intensity, moded RGB (sepia self intensity)) /\
   (forall strength, moded RGB (vignette self strength)) /\
   (forall degrees, moded RGB (hue_shift self degrees)) /\
   (forall temperature, moded RGB (color_temperature self temperature))) /\
  (moded (if decide (im_mode img = RGBA) then RGBA else RGB) (invert self) /\
   moded (match im_mode img with RGBA => RGBA | L => L | LA => LA | _ => RGB end)
     (equalize self) /\
   moded RGB (art_effect self "poster") /\
   moded L (art_effect self "sketch") /\
   keeps (art_effect self "oil_paint") /\
   moded RGB (art_effect self "cartoon")).
Proof.
  cbv zeta. repeat apply conj; intros.
  - unfold thumbnail, Image_thumbnail, _ensure_image. cbn [image ebind]. repeat moded_step.
  - unfold resize, _ensure_image. cbn [image ebind]. repeat moded_step.
  - unfold rotate, Image_rotate, _ensure_image. cbn [image ebind]. repeat moded_step.
  - unfold crop, _ensure_image. cbn [image ebind]. repeat moded_step.
  - unfold crop_center, crop, _ensure_image. cbn [image ebind]. repeat moded_step.
  - unfold brightness, ImageEnhance_enhance, _ensure_image. cbn [image ebind].
    repeat moded_step.
  - unfold contrast, ImageEnhance_enhance, _ensure_image. cbn [image ebind].
    repeat moded_step.
  - unfold saturation, ImageEnhance_enhance, _ensure_image. cbn [image ebind].
    repeat moded_step.
  - unfold sharpen, ImageEnhance_enhance, _ensure_image. cbn [image ebind].
    repeat moded_step.
  - unfold blur, _ensure_image. cbn [image ebind]. repeat moded_step.
  - unfold flip, _ensure_image. cbn [image ebind]. repeat moded_step.
  - unfold edge_detect, _ensure_image. cbn [image ebind]. repeat moded_step.
  - unfold emboss, _ensure_image. cbn [image ebind]. repeat moded_step.
  - unfold pixelate, _ensure_image. cbn [image ebind]. repeat moded_step.
  - unfold add_border, ImageOps_expand, _ensure_image. cbn [image ebind].
    repeat moded_step.
  - unfold auto_contrast, ImageOps_autocontrast, _ensure_image. cbn [image ebind].
    destruct (im_mode img) eqn:Hm; repeat moded_step.
  - unfold grayscale, _ensure_image. cbn [image ebind]. repeat moded_step.
  - unfold white_balance, _ensure_image. cbn [image ebind]. repeat moded_step.
  - unfold sepia, _ensure_image. cbn [image ebind]. repeat moded_step.
  - unfold vignette, _ensure_image. cbn [image ebind].
    destruct (im_size (Image_convert img RGB)) as [w h]. repeat moded_step.
  - unfold hue_shift, _ensure_image. cbn [image ebind]. repeat moded_step.
  - unfold color_temperature, _ensure_image. cbn [image ebind]. repeat moded_step.
  - unfold invert, _ensure_image. cbn [image ebind]. repeat moded_step.
  - unfold equalize, ImageOps_equalize, _ensure_image. cbn [image ebind].
    destruct (im_mode img) eqn:Hm;
      rewrite ?decide_True by done; rewrite ?decide_False by done;
      repeat moded_step.
  - unfold art_effect, ImageOps_posterize, _ensure_image. cbn [image ebind String.eqb Ascii.eqb Bool.eqb].
    repeat moded_step.
  - unfold art_effect, Image_blend, _ensure_image. cbn [image ebind String.eqb Ascii.eqb Bool.eqb].
    repeat moded_step.
  - unfold art_effect, _ensure_image. cbn [image ebind String.eqb Ascii.eqb Bool.eqb].
    repeat moded_step.
  - unfold art_effect, _ensure_image. cbn [image ebind String.eqb Ascii.eqb Bool.eqb].
    repeat moded_step.
Qed.

End ModeClaim.

(** ** Palette images *)

Section Palette.
Context {lib : Imaging}.

(** X21.  While a palette image is being edited the convolution filters
    and auto_contrast are refused: edge_detect with any method, emboss and
    a blur whose type is none of gaussian, box and motion fail with
    "cannot filter palette images", auto_contrast with its default cutoff
    fails with "mode P support coming soon", and the session stays as it
    was.  equalize is not refused: it converts the image and returns an RGB
    image of the same size. *)
Theorem palette_images_are_refused host s img :
  Editing s img -> im_mode img = P ->
  (forall method,
     handle_request host s (Action.edge_detect method)
       = (Failure "cannot filter palette images", s)) /\
  handle_request host s Action.emboss = (Failure "cannot filter palette images", s) /\
  (forall radius blur_type,
     blur_type <> "gaussian" -> blur_type <> "box" -> blur_type <> "motion" ->
     handle_request host s (Action.blur radius (Some blur_type))
       = (Failure "cannot filter palette images", s)) /\
  handle_request host s (Action.auto_contrast None)
    = (Failure "mode P support coming soon", s) /\
  (exists out, equalize (mkPicture (Some img)) = Ok out /\
     im_mode out = RGB /\ im_size out = im_size img).
Proof.
  intros Hed Hm.
  assert (Hfilter : forall f,
            Image_filter img f = raise ValueError "cannot filter palette images").
  { intros f. unfold Image_filter. by rewrite decide_True. }
  split; [|split; [|split; [|split]]].
  - intros method. cbn [handle_request].
    apply (transform_raise s img _ _ (mkExc ValueError "cannot filter palette images") Hed).
    unfold edge_detect, _ensure_image. cbn [image ebind]. rewrite !Hfilter.
    by repeat case_match.
  - cbn [handle_request].
    apply (transform_raise s img _ _ (mkExc ValueError "cannot filter palette images") Hed).
    unfold emboss, _ensure_image. cbn [image ebind]. apply Hfilter.
  - intros radius blur_type Hg Hb Hmo. cbn [handle_request default from_option id].
    apply (transform_raise s img _ _ (mkExc ValueError "cannot filter palette images") Hed).
    unfold blur, _ensure_image. cbn [image ebind].
    apply String.eqb_neq in Hg, Hb, Hmo. rewrite Hg, Hb, Hmo. apply Hfilter.
  - cbn [handle_request default from_option id].
    apply (transform_raise s img _ _ (mkExc NotImplementedError "mode P support coming soon")
             Hed).
    unfold auto_contrast, _ensure_image. cbn [image ebind].
    rewrite !decide_False by (by rewrite Hm).
    unfold ImageOps_autocontrast, ImageOps_lut. by rewrite Hm.
  - unfold equalize, _ensure_image. cbn [image ebind]. rewrite Hm.
    unfold ImageOps_equalize. rewrite decide_True by done.
    unfold ImageOps_lut. rewrite Image_convert_mode.
    eexists. split; [reflexivity|]. split; [done|]. cbn [im_size lib_image].
    apply Image_convert_size.
Qed.

End Palette.

Lemma palette_images_are_refused_witness :
  handle_request (lib:=plain) no_files editing_indexed Action.emboss
    = (Failure "cannot filter palette images", editing_indexed) /\
  handle_request (lib:=plain) no_files editing_indexed (Action.auto_contrast None)
    = (Failure "mode P support coming soon", editing_indexed).
Proof.
  destruct (palette_images_are_refused (lib:=plain) no_files editing_indexed indexed)
    as (_ & He & _ & Ha & _).
  - split; [done|]. exists 0%nat. split; reflexivity.
  - reflexivity.
  - by split.
Defined.

(** ** The modes the transforms accept *)

Section Accepts.
Context {lib : Imaging}.

Lemma same_size_true (sz : Z * Z) : bool_decide (sz = sz) = true.
Proof. by apply bool_decide_eq_true_2. Qed.

Ltac accept_once :=
  try unfold ImageOps_equalize; try unfold ImageOps_autocontrast;
  try unfold ImageOps_lut; try unfold ImageOps_invert; try unfold Image_filter;
  try unfold Image_convert;
  cbn [image ebind _ensure_image im_mode im_size im_bands Image_split map unpack2 unpack3
       unpack4 Image_merge length Nat.eqb nbands negb forallb andb nth seq lib_image
       Image_copy is_ok ImageOps_lut ImageOps_invert ImageOps_equalize ImageOps_autocontrast
       Image_filter mode_name];
  rewrite ?same_size_true;
  repeat match goal with
         | |- context [decide (?a = ?b)] => destruct (decide (a = b)); try discriminate; try congruence
         | |- context [bool_decide (?a = ?b)] =>
             rewrite (bool_decide_eq_true_2 (a = b)) by reflexivity
         end.

Ltac accept := repeat (progress accept_once).

(** X22.  Which modes the colour operations accept.  On a well-formed
    image that has pixels, grayscale, flip (horizontal and vertical),
    invert, equalize, white_balance and sepia return an image whatever the
    mode.  auto_contrast with its default cutoff returns one on L, LA, RGB
    and RGBA, raises [NotImplementedError] on a palette image and [OSError]
    on CMYK and YCbCr, which equalize and invert convert first; edge_detect
    and emboss return one on every mode but P. *)
Theorem modes_the_transforms_accept img :
  wf_image img = true -> 0 < im_width img -> 0 < im_height img ->
  let self := mkPicture (Some img) in
  (is_ok (grayscale self) = true /\
   is_ok (flip self "horizontal") = true /\
   is_ok (flip self "vertical") = true /\
   is_ok (invert self) = true /\
   is_ok (equalize self) = true /\
   (forall method, is_ok (white_balance self method) = true) /\
   (forall intensity, is_ok (sepia self intensity) = true)) /\
  match im_mode img with
  | P => auto_contrast self Py.zero
           = raise NotImplementedError "mode P support coming soon"
  | CMYK | YCbCr =>
      auto_contrast self Py.zero
        = raise OSError ("not supported for mode " ++ mode_name (im_mode img))
  | _ => is_ok (auto_contrast self Py.zero) = true
  end /\
  (forall method, is_ok (edge_detect self method) = negb (bool_decide (im_mode img = P))) /\
  is_ok (emboss self) = negb (bool_decide (im_mode img = P)).
Proof.
  intros Hwf _ _. cbv zeta.
  assert (Hlen : length (im_bands img) = nbands (im_mode img)).
  { unfold wf_image in Hwf. apply andb_prop in Hwf as [Hwf _].
    apply andb_prop in Hwf as [_ Hwf]. by apply Nat.eqb_eq. }
  clear Hwf. destruct img as [m sz bands f]. cbn [im_mode im_bands] in *.
  split; [|split; [|split]].
  - split; [done|]. split; [done|]. split; [done|].
    split; [|split; [|split]].
    + unfold invert.
      destruct m; cbn [nbands] in Hlen;
        repeat (destruct bands as [|? bands]; try discriminate Hlen);
        unfold Image_convert; accept; reflexivity.
    + unfold equalize, equalize_rgb.
      destruct m; cbn [nbands] in Hlen;
        repeat (destruct bands as [|? bands]; try discriminate Hlen);
        unfold Image_convert; accept; reflexivity.
    + intros method. unfold white_balance. cbn [image ebind _ensure_image].
      by repeat case_match.
    + intros intensity. reflexivity.
  - unfold auto_contrast.
    destruct m; cbn [nbands] in Hlen;
      repeat (destruct bands as [|? bands]; try discriminate Hlen);
      accept; reflexivity.
  - intros method. unfold edge_detect.
    destruct m; accept; by repeat case_match.
  - unfold emboss. destruct m; accept; reflexivity.
Qed.

End Accepts.

Lemma modes_the_transforms_accept_witness :
  is_ok (invert (lib:=plain) (mkPicture (Some translucent))) = true /\
  is_ok (equalize (lib:=plain) (mkPicture (Some indexed))) = true /\
  auto_contrast (lib:=plain) (mkPicture (Some indexed)) Py.zero
    = raise NotImplementedError "mode P support coming soon".
Proof.
  split; [|split].
  - by apply (modes_the_transforms_accept (lib:=plain) translucent).
  - by apply (modes_the_transforms_accept (lib:=plain) indexed).
  - by apply (proj1 (proj2 (modes_the_transforms_accept (lib:=plain) indexed
                              eq_refl eq_refl eq_refl))).
Defined.

(** ** Saving *)

Section SaveAsFacts.
Context {lib : Imaging}.

(** X23.  [save_as] decides by the extension of the path alone.  Unless
    the extension is .jpg or .jpeg the quality is not passed to the
    encoder: the call does the same for every quality, and so does a
    save_file request.  With .jpg or .jpeg an RGBA image is first
    composited onto white, so that saving it is saving that RGB image; an
    image of any other mode, LA and P included, goes to the encoder as it
    is.  Without an image to save the call raises [ValueError]. *)
Theorem save_as_by_extension disk current output_path format quality :
  let jpeg := String.eqb (extension disk output_path) ".jpg"
              || String.eqb (extension disk output_path) ".jpeg" in
  (jpeg = false -> forall image quality' host s,
     FileHandler_save_as disk current output_path image format quality
       = FileHandler_save_as disk current output_path image format quality' /\
     handle_request (on_disk disk host) s (Action.save_file (Some output_path) (Some quality))
       = handle_request (on_disk disk host) s
           (Action.save_file (Some output_path) (Some quality'))) /\
  (jpeg = true -> forall img r g b a,
     im_mode img = RGBA -> im_bands img = [r; g; b; a] ->
     FileHandler_save_as disk current output_path (Some (mkObj img None)) format quality
       = FileHandler_save_as disk current output_path
           (Some (mkObj (Image_paste (Image_new RGB (im_size img) [255; 255; 255]) img
                           (mkImage L (im_size img) [a] None)) None))
           format quality) /\
  FileHandler_save_as disk None output_path None format quality
    = raise ValueError "沒有可儲存的圖片，請先載入圖片".
Proof.
  cbv zeta. split; [|split].
  - intros Hjpeg image quality' host s.
    assert (Hsame : forall image,
              FileHandler_save_as disk current output_path image format quality
              = FileHandler_save_as disk current output_path image format quality').
    { intros image'. unfold FileHandler_save_as. by rewrite Hjpeg. }
    split; [apply Hsame|].
    cbn [handle_request default from_option id on_disk save_as].
    destruct (falsy_str (Some output_path)); [done|].
    destruct (current_image s) as [r|]; [|done].
    unfold deref. destruct (heap s !! r) as [o|]; [|done]. cbn [ebind].
    unfold FileHandler_save_as. by rewrite Hjpeg.
  - intros Hjpeg img r g b a Hm Hb. unfold FileHandler_save_as. rewrite Hjpeg.
    cbn [obj_image]. rewrite bool_decide_eq_true_2 by done.
    unfold load at 1. cbn [obj_load obj_image ebind andb].
    unfold Image_split. rewrite Hb. cbn [map lookup list_lookup].
    destruct (if negb _ && negb _ then _ else _); [|done]. cbn [ebind].
    rewrite bool_decide_eq_false_2; [done|].
    by cbn [Image_paste lib_image im_mode Image_new].
  - done.
Qed.

End SaveAsFacts.

Lemma save_as_by_extension_witness :
  FileHandler_save_as (lib:=plain) (scratch_disk ".png") None "a.png"
      (Some (mkObj translucent None)) None 10
    = FileHandler_save_as (lib:=plain) (scratch_disk ".png") None "a.png"
        (Some (mkObj translucent None)) None 95.
Proof.
  exact (proj1 (proj1 (save_as_by_extension (lib:=plain) (scratch_disk ".png") None "a.png"
                         None 10) eq_refl (Some (mkObj translucent None)) 95 no_files init)).
Defined.

(** ** The request loop *)

Section LoopFacts.
Context {lib : Imaging}.

(** X24.  The loop answers line by line: when every chunk read is one
    line, ended by a line feed, that is not blank and decodes to a request,
    the responses sent are those of [handle_request] on these requests, in
    order, each on the session the one before has left. *)
Theorem run_stdin_answers_each_line (wire : Wire) (lines : list (Host * string * Action.t)) :
  forall s,
  Forall (fun l => let '(_, text, a) := l in
            endswith_newline text = true /\ strip wire text <> "" /\
            loads wire (strip wire text) = request a) lines ->
  run_stdin wire s "" (map (fun l => let '(host, text, _) := l in (host, text)) lines)
  = run s (map (fun l => let '(host, _, a) := l in (host, a)) lines).
Proof.
  induction lines as [|[[host text] a] rest IH]; intros s Hall; [done|].
  apply Forall_cons in Hall as [(Hnl & Hline & Hreq) Hrest].
  cbn [map run_stdin run].
  destruct (String.eqb text "") eqn:Hempty.
  { apply String.eqb_eq in Hempty. by subst text. }
  cbn [append]. rewrite Hnl. cbn [negb].
  apply String.eqb_neq in Hline. rewrite Hline, Hreq.
  destruct (handle_request host s a) as [response s1].
  by rewrite (IH s1 Hrest).
Qed.

(** X25.  What the loop does not answer.  A last chunk that does not end
    with a line feed (the input ended in the middle of a line) is read and
    never answered, whatever it holds; a blank line is skipped; and a line
    that is not valid JSON is answered with a failure that names the parse
    error, the session being left as it was. *)
Theorem run_stdin_drops_the_unfinished_line (wire : Wire) (chunks : list (Host * string)) :
  forall s buffer host text,
  (endswith_newline text = false ->
     run_stdin wire s buffer (chunks ++ [(host, text)])%list
     = run_stdin wire s buffer chunks) /\
  (forall rest, endswith_newline text = true -> strip wire (buffer ++ text) = "" ->
     run_stdin wire s buffer ((host, text) :: rest) = run_stdin wire s "" rest) /\
  (forall rest e, endswith_newline text = true -> strip wire (buffer ++ text) <> "" ->
     loads wire (strip wire (buffer ++ text)) = bad_json e ->
     run_stdin wire s buffer ((host, text) :: rest)
     = (Failure ("JSON 解析錯誤: " ++ exc_str e) :: fst (run_stdin wire s "" rest),
        snd (run_stdin wire s "" rest))).
Proof.
  intros s buffer host text. split; [|split].
  - intros Hnl. revert s buffer.
    induction chunks as [|[h c] rest IH]; intros s buffer.
    + cbn [app run_stdin]. rewrite Hnl. cbn [negb]. by destruct (String.eqb text "").
    + cbn [app run_stdin]. destruct (String.eqb c ""); [done|].
      destruct (negb (endswith_newline c)); [apply IH|].
      destruct (String.eqb (strip wire (buffer ++ c)) ""); [apply IH|].
      destruct (loads wire _) as [e|e|a]; rewrite ?IH; try done.
      destruct (handle_request h s a) as [response s1]. by rewrite IH.
  - intros rest Hnl Hblank. cbn [run_stdin].
    destruct (String.eqb text "") eqn:Hempty.
    { apply String.eqb_eq in Hempty. by subst text. }
    rewrite Hnl, Hblank. reflexivity.
  - intros rest e Hnl Hline Hbad. cbn [run_stdin].
    destruct (String.eqb text "") eqn:Hempty.
    { apply String.eqb_eq in Hempty. by subst text. }
    rewrite Hnl. cbn [negb]. apply String.eqb_neq in Hline. rewrite Hline, Hbad.
    by destruct (run_stdin wire s "" rest).
Qed.

End LoopFacts.

Lemma run_stdin_answers_each_line_witness :
  run_stdin (lib:=plain) ping_wire init ""
    (map (fun l => let '(host, text, _) := l in (host, text)) two_lines)
  = run (lib:=plain) init (map (fun l => let '(host, _, a) := l in (host, a)) two_lines).
Proof.
  apply (run_stdin_answers_each_line (lib:=plain) ping_wire two_lines init).
  repeat constructor; done.
Defined.

(** ** Standard output *)

Section PrintingFacts.
Context {lib : Imaging}.

Lemma alloc_changes o s : snd (alloc o s) <> s.
Proof.
  intros H. apply (f_equal (fun s => length (heap s))) in H.
  unfold alloc in H. cbn [snd with_heap heap] in H.
  rewrite length_app in H. cbn [length] in H. lia.
Qed.

Lemma transform_prints s method msg text r s' :
  transform s method msg = (r, s') ->
  (forall img t rest, text img = txt t :: rest -> String.prefix "✓ " t = true) ->
  (forall img, exists t rest, text img = txt t :: rest) ->
  (s' = s -> printed s method text = []) /\
  (s' <> s -> exists w, map report (printed s method text) = [w] /\ check_marked w) /\
  (is_success r = true -> s' <> s).
Proof.
  unfold transform, printed. intros H Hmark Hshape.
  destruct (current_image s); [|by simplify_eq].
  destruct (do self <- the_picture s; method self) as [result|e].
  - destruct (alloc _ s) as [r0 s0] eqn:Ha.
    assert (Hs0 : s0 <> s).
    { pose proof (alloc_changes (mkObj result None) s) as Hc. by rewrite Ha in Hc. }
    assert (Hne : s' <> s).
    { simplify_eq. intros Heq. apply Hs0.
      apply (f_equal heap) in Heq. cbn in Heq.
      unfold alloc in Ha. simplify_eq. exfalso.
      apply (f_equal length) in Heq. cbn in Heq. rewrite length_app in Heq.
      cbn in Heq. lia. }
    split; [done|]. split; [|done].
    intros _. destruct (Hshape result) as (t & rest & Ht).
    eexists. split; [reflexivity|]. exists t, rest. split; [by rewrite Ht|]. by eapply Hmark.
  - simplify_eq. split; [done|]. split; [done|]. discriminate.
Qed.

End PrintingFacts.

Section PrintingClaim.
Context {lib : Imaging}.

Ltac marks :=
  first
    [ by (intros ? ? ? [= <- _])
    | by (intros ? ? ?; unfold size_text; intros [= <- _])
    | by (intros ? ? ?; case_match; unfold size_text; intros [= <- _]) ].
Ltac shapes :=
  first
    [ by (intros ?; eexists _, _)
    | by (intros ?; unfold size_text; eexists _, _) ].

(** X26.  The tools print on the stream of the answers.  A transform
    request puts a text of [Picture] on standard output, before its answer,
    exactly when it changes the session: every transform answered with
    success is preceded by a line that opens with a check mark, and so is
    one whose preview failed after the image was replaced.  The same holds
    for every successful load_file, save_file and batch_load, whose texts
    are those of [FileHandler].  Only load_base64, get_base64, get_info,
    reset, list_actions, ping and an unknown action leave the answer alone
    on the stream. *)
Theorem tools_print_on_the_response_stream host s a r s' :
  handle_request host s a = (r, s') ->
  (silent a = true -> written host s a = [answer r]) /\
  (Action.is_transform a = true ->
     (s' = s -> written host s a = [answer r]) /\
     (s' <> s -> exists w, written host s a = [w; answer r] /\ check_marked w)) /\
  (silent a = false -> is_success r = true ->
     exists w more, written host s a = w :: more /\ check_marked w).
Proof.
  intros H. unfold written. rewrite H. cbn [fst].
  assert (Ht : forall method msg text,
            transform s method msg = (r, s') ->
            (forall img t rest, text img = txt t :: rest -> String.prefix "✓ " t = true) ->
            (forall img, exists t rest, text img = txt t :: rest) ->
            ((s' = s -> (map report (printed s method text) ++ [answer r])%list = [answer r]) /\
             (s' <> s -> exists w, (map report (printed s method text) ++ [answer r])%list
                                   = [w; answer r] /\ check_marked w)) /\
            (is_success r = true ->
             exists w more, (map report (printed s method text) ++ [answer r])%list = w :: more /\
                            check_marked w)).
  { intros method msg text Htr Hmark Hshape.
    destruct (transform_prints s method msg text r s' Htr Hmark Hshape) as (H1 & H2 & H3).
    split; [split|].
    - intros Heq. by rewrite (H1 Heq).
    - intros Hne. destruct (H2 Hne) as (w & -> & Hw). by exists w.
    - intros Hok. destruct (H2 (H3 Hok)) as (w & -> & Hw). by exists w, [answer r]. }
  destruct a; cbn [silent Action.is_transform tool_output handle_request] in *;
    cbn zeta in *;
    try (split; [done|split; [discriminate|discriminate]]);
    try (split; [discriminate|];
         lazymatch type of H with
         | transform _ _ _ = _ =>
             edestruct Ht as [Ha Hb]; [exact H| |
               |split; [intros _; exact Ha|intros _; exact Hb]]; [marks|shapes]
         | _ => idtac
         end).
  - (* load_file *)
    split; [discriminate|]. intros _ Hok.
    destruct (falsy_str _); [by simplify_eq|].
    unfold FileHandler_load_file in H.
    destruct (path_exists host _); cbn [negb] in *; [|by simplify_eq/=].
    destruct (open_file host _) as [o|e]; [|by simplify_eq/=].
    eexists _, _. split; [reflexivity|]. eexists _, _. split; reflexivity.
  - (* save_file *)
    split; [discriminate|]. intros _ Hok.
    destruct (falsy_str _); [by simplify_eq|].
    destruct (current_image s) as [c|]; [|by simplify_eq].
    destruct (deref s c) as [o|e]; cbn [ebind] in *; [|by simplify_eq/=].
    destruct (save_as host _ o _); [by simplify_eq/=|].
    eexists _, _. split; [reflexivity|]. eexists _, _. split; reflexivity.
  - (* batch_load *)
    split; [discriminate|]. intros _ Hok.
    destruct (falsy_str _); [by simplify_eq|].
    destruct (batch_load host _) as [found|e]; [|by simplify_eq/=].
    eexists _, _. split; [reflexivity|]. eexists _, _. split; reflexivity.
  - (* resize *)
    destruct (falsy_int _ || falsy_int _).
    + simplify_eq. split; [intros _; split; [done|by intros []]|by intros _ [=]].
    + edestruct Ht as [Ha Hb]; [exact H| |
        |split; [intros _; exact Ha|intros _; exact Hb]]; [marks|shapes].
  - (* crop *)
    repeat match type of H with
           | match ?x with Some _ => _ | None => _ end = _ => destruct x
           end;
      try (simplify_eq; split; [intros _; split; [done|by intros []]|by intros _ [=]]).
    edestruct Ht as [Ha Hb]; [exact H| |
      |split; [intros _; exact Ha|intros _; exact Hb]]; [marks|shapes].
  - (* crop_center *)
    destruct (falsy_int _ || falsy_int _).
    + simplify_eq. split; [intros _; split; [done|by intros []]|by intros _ [=]].
    + edestruct Ht as [Ha Hb]; [exact H| |
        |split; [intros _; exact Ha|intros _; exact Hb]]; [marks|shapes].
Qed.

End PrintingClaim.

Lemma tools_print_on_the_response_stream_witness :
  exists w, written (lib:=plain) no_files after_load Action.grayscale
              = [w; answer (fst after_grayscale)] /\ check_marked w.
Proof.
  apply (proj1 (proj2 (tools_print_on_the_response_stream (lib:=plain) no_files after_load
                         Action.grayscale (fst after_grayscale) (snd after_grayscale)
                         eq_refl)) eq_refl).
  by vm_compute.
Defined.
